(** * Document register, revision ledger and transmittals

    A shallow embedding of the persistence layer [database.py] of the
    document-control application (tables, the statements each function
    runs on its cursor, and the commit at the end of each function),
    together with the read path of [main.py] that shows the label of a
    document's current revision. *)

From Stdlib Require Import ZArith List String Bool Lia.
From Stdlib Require Import Permutation Sorted DecimalString.
Import ListNotations.

Open Scope Z_scope.

(** ** Tables

    Every table has an [INTEGER PRIMARY KEY AUTOINCREMENT] column [id]; a
    table is the list of its rows in insertion order, each with its rowid.
    No statement of the application deletes from these tables, so the
    sequence SQLite keeps for AUTOINCREMENT equals the largest rowid
    present and the next rowid is one more (1 for an empty table). *)

Definition table (R : Type) : Type := list (Z * R).

Definition max_rowid {R} (t : table R) : Z :=
  fold_right (fun r m => Z.max (fst r) m) 0 t.

Definition next_rowid {R} (t : table R) : Z := max_rowid t + 1.

(** [SELECT * FROM t WHERE id=?] followed by [fetchone()]. *)
Definition select_by_id {R} (t : table R) (i : Z) : option R :=
  option_map snd (find (fun r => fst r =? i) t).

Record organization := {
  org_name : string;
  org_description : string;
  org_created_at : string }.

Record project := {
  proj_name : string;
  proj_description : string;
  proj_org_id : Z;
  proj_created_at : string }.

Record document := {
  doc_number : string;
  title : string;
  doc_type : string;
  status : string;
  org_id : Z;
  project_id : Z;
  current_revision_id : option Z;
  created_at : string }.

Record document_revision := {
  document_id : Z;
  revision : string;
  file_path : string;
  uploaded_by : Z;
  uploaded_at : string }.

Record event := {
  ev_document_id : Z;
  ev_revision_id : option Z;
  ev_user_id : Z;
  event_type : string;
  timestamp : string;
  notes : option string }.

Record transmittal := {
  transmittal_number : string;
  description : string;
  sender_org_id : Z;
  recipient_org_id : Z;
  created_by : Z;
  tr_created_at : string }.

(** The database file.  [transmittal_documents] has no rowid column of its
    own in the schema: its primary key is the pair. *)
Record db := {
  organizations : table organization;
  projects : table project;
  documents : table document;
  document_revisions : table document_revision;
  events : table event;
  transmittals : table transmittal;
  transmittal_documents : list (Z * Z) }.

Definition empty_db : db :=
  {| organizations := []; projects := []; documents := [];
     document_revisions := []; events := []; transmittals := [];
     transmittal_documents := [] |}.

(** ** Exceptions and the cursor monad

    [sqlite3.IntegrityError] is what a violated UNIQUE or PRIMARY KEY
    constraint raises; [TypeError] is what subscripting or unpacking the
    [None] returned by [fetchone()] raises.  Connections are opened by
    [get_conn], which does not issue [PRAGMA foreign_keys = ON] (only the
    connection of [init_db] does), so FOREIGN KEY clauses are not enforced
    on any statement modelled here.

    SQLite stores an integer in 64 bits, and the [sqlite3] module raises
    [OverflowError] when a Python int outside that range is bound to a
    statement.  The statements below are those of calls whose integer
    arguments are in that range, [int64]: where a property below says
    that a call returns for integers the caller chooses, it says so for
    integers in that range.  Integers read back from a row are in range
    in the database file. *)

Inductive exn := IntegrityError | TypeError.

Definition int64 (n : Z) : bool := (- 2 ^ 63 <=? n) && (n <? 2 ^ 63).

Inductive result (A : Type) : Type :=
| Ok (a : A)
| Raise (e : exn).
Arguments Ok {A} a.
Arguments Raise {A} e.

(** A cursor program runs statements against the connection's view of the
    database inside its open transaction. *)
Definition cursor (A : Type) : Type := db -> result (A * db).

Definition ret {A} (a : A) : cursor A := fun w => Ok (a, w).

Definition bind {A B} (m : cursor A) (f : A -> cursor B) : cursor B :=
  fun w => match m w with
           | Ok (a, w') => f a w'
           | Raise e => Raise e
           end.

Definition raise {A} (e : exn) : cursor A := fun _ => Raise e.

Notation "x <- m ;; k" := (bind m (fun x => k))
  (at level 61, m at next level, right associativity).
Notation "m ;;; k" := (bind m (fun _ => k))
  (at level 61, right associativity).

(** [c.execute("SELECT ...").fetchone()] *)
Definition fetchone {A} (q : db -> option A) : cursor (option A) :=
  fun w => Ok (q w, w).

(** [row[0]]: subscripting [None] raises [TypeError]. *)
Definition subscript {A B} (row : option A) (col : A -> B) : cursor B :=
  match row with
  | Some r => ret (col r)
  | None => raise TypeError
  end.

(** [a, b, ... = row]: unpacking [None] raises [TypeError]. *)
Definition unpack {A} (row : option A) : cursor A :=
  match row with
  | Some r => ret r
  | None => raise TypeError
  end.

(** Python's [for x in xs: body]. *)
Fixpoint for_each {A} (xs : list A) (body : A -> cursor unit) : cursor unit :=
  match xs with
  | [] => ret tt
  | x :: rest => body x ;;; for_each rest body
  end.

(** ** Statements *)

Definition set_documents (t : table document) (w : db) : db :=
  {| organizations := organizations w; projects := projects w;
     documents := t; document_revisions := document_revisions w;
     events := events w; transmittals := transmittals w;
     transmittal_documents := transmittal_documents w |}.

Definition set_document_revisions (t : table document_revision) (w : db) : db :=
  {| organizations := organizations w; projects := projects w;
     documents := documents w; document_revisions := t;
     events := events w; transmittals := transmittals w;
     transmittal_documents := transmittal_documents w |}.

Definition set_events (t : table event) (w : db) : db :=
  {| organizations := organizations w; projects := projects w;
     documents := documents w; document_revisions := document_revisions w;
     events := t; transmittals := transmittals w;
     transmittal_documents := transmittal_documents w |}.

Definition set_transmittals (t : table transmittal) (w : db) : db :=
  {| organizations := organizations w; projects := projects w;
     documents := documents w; document_revisions := document_revisions w;
     events := events w; transmittals := t;
     transmittal_documents := transmittal_documents w |}.

Definition set_transmittal_documents (t : list (Z * Z)) (w : db) : db :=
  {| organizations := organizations w; projects := projects w;
     documents := documents w; document_revisions := document_revisions w;
     events := events w; transmittals := transmittals w;
     transmittal_documents := t |}.

Definition set_organizations (t : table organization) (w : db) : db :=
  {| organizations := t; projects := projects w;
     documents := documents w; document_revisions := document_revisions w;
     events := events w; transmittals := transmittals w;
     transmittal_documents := transmittal_documents w |}.

Definition set_projects (t : table project) (w : db) : db :=
  {| organizations := organizations w; projects := t;
     documents := documents w; document_revisions := document_revisions w;
     events := events w; transmittals := transmittals w;
     transmittal_documents := transmittal_documents w |}.

(** [INSERT INTO organizations]: [name] is UNIQUE.  Returns [lastrowid]. *)
Definition insert_organization (o : organization) : cursor Z :=
  fun w =>
    if existsb (fun r => String.eqb (org_name (snd r)) (org_name o))
               (organizations w)
    then Raise IntegrityError
    else let i := next_rowid (organizations w) in
         Ok (i, set_organizations (organizations w ++ [(i, o)]) w).

(** [INSERT INTO projects]. *)
Definition insert_project (p : project) : cursor Z :=
  fun w => let i := next_rowid (projects w) in
           Ok (i, set_projects (projects w ++ [(i, p)]) w).

(** The key of [UNIQUE(doc_number, org_id, project_id)]. *)
Definition same_key (num : string) (org proj : Z) (r : Z * document) : bool :=
  String.eqb (doc_number (snd r)) num
  && (org_id (snd r) =? org) && (project_id (snd r) =? proj).

(** [INSERT INTO documents]: fails on the UNIQUE key. *)
Definition insert_document (d : document) : cursor Z :=
  fun w =>
    if existsb (same_key (doc_number d) (org_id d) (project_id d)) (documents w)
    then Raise IntegrityError
    else let i := next_rowid (documents w) in
         Ok (i, set_documents (documents w ++ [(i, d)]) w).

(** [INSERT INTO document_revisions]. *)
Definition insert_revision (r : document_revision) : cursor Z :=
  fun w => let i := next_rowid (document_revisions w) in
           Ok (i, set_document_revisions (document_revisions w ++ [(i, r)]) w).

(** [INSERT INTO events]. *)
Definition insert_event (e : event) : cursor Z :=
  fun w => let i := next_rowid (events w) in
           Ok (i, set_events (events w ++ [(i, e)]) w).

(** [INSERT INTO transmittals]. *)
Definition insert_transmittal (t : transmittal) : cursor Z :=
  fun w => let i := next_rowid (transmittals w) in
           Ok (i, set_transmittals (transmittals w ++ [(i, t)]) w).

Definition link_eqb (a b : Z * Z) : bool :=
  (fst a =? fst b) && (snd a =? snd b).

(** [INSERT INTO transmittal_documents]: fails on
    [PRIMARY KEY(transmittal_id, revision_id)]. *)
Definition insert_transmittal_document (l : Z * Z) : cursor unit :=
  fun w =>
    if existsb (link_eqb l) (transmittal_documents w)
    then Raise IntegrityError
    else Ok (tt, set_transmittal_documents (transmittal_documents w ++ [l]) w).

Definition set_current (rev_id : Z) (d : document) : document :=
  {| doc_number := doc_number d; title := title d; doc_type := doc_type d;
     status := status d; org_id := org_id d; project_id := project_id d;
     current_revision_id := Some rev_id; created_at := created_at d |}.

Definition repoint (rev_id doc_id : Z) (t : table document) : table document :=
  map (fun r => if fst r =? doc_id
                then (fst r, set_current rev_id (snd r))
                else r) t.

Arguments repoint : simpl never.

(** [UPDATE documents SET current_revision_id=? WHERE id=?] *)
Definition update_current_revision (rev_id doc_id : Z) : cursor unit :=
  fun w => Ok (tt, set_documents (repoint rev_id doc_id (documents w)) w).

(** [SELECT id FROM documents WHERE doc_number=? AND org_id=? AND project_id=?] *)
Definition select_document_id (num : string) (org proj : Z) (w : db) : option Z :=
  option_map fst (find (same_key num org proj) (documents w)).

(** ** Read functions of [database.py] *)

Definition get_organization (d : db) (org : Z) : option organization :=
  select_by_id (organizations d) org.

Definition get_project (d : db) (proj : Z) : option project :=
  select_by_id (projects d) proj.

Definition get_document (d : db) (doc_id : Z) : option document :=
  select_by_id (documents d) doc_id.

Definition get_revision (d : db) (rev_id : Z) : option document_revision :=
  select_by_id (document_revisions d) rev_id.

Definition get_transmittal (d : db) (trans_id : Z) : option transmittal :=
  select_by_id (transmittals d) trans_id.

(** [ORDER BY uploaded_at DESC]: TEXT compares bytewise.  Rows with equal
    keys keep their rowid order here; SQLite leaves that order open, and no
    statement below depends on it. *)
Fixpoint insert_desc (r : Z * document_revision)
                     (l : list (Z * document_revision)) :=
  match l with
  | [] => [r]
  | x :: rest =>
      if String.leb (uploaded_at (snd x)) (uploaded_at (snd r))
      then r :: x :: rest
      else x :: insert_desc r rest
  end.

Definition order_by_uploaded_at_desc (l : list (Z * document_revision)) :=
  fold_right insert_desc [] l.

Definition get_revisions_for_document (d : db) (doc_id : Z)
  : list (Z * document_revision) :=
  order_by_uploaded_at_desc
    (filter (fun r => document_id (snd r) =? doc_id) (document_revisions d)).

(** [SELECT document_revisions.* FROM transmittal_documents JOIN
    document_revisions ... WHERE transmittal_id=?] *)
Definition get_transmittal_documents (d : db) (trans_id : Z)
  : list (Z * document_revision) :=
  flat_map (fun l => if fst l =? trans_id
                     then filter (fun r => fst r =? snd l) (document_revisions d)
                     else [])
           (transmittal_documents d).

(** The label shown for a document in [main.list_documents]:
    [rev_id = doc["current_revision_id"]; if rev_id: rev_row =
    db.get_revision(rev_id); if rev_row: ... rev_row["revision"]]. *)
Definition rev_label (d : db) (doc : document) : option string :=
  match current_revision_id doc with
  | Some rev_id =>
      if rev_id =? 0 then None
      else option_map revision (get_revision d rev_id)
  | None => None
  end.

Definition current_revision_label (d : db) (doc_id : Z) : option string :=
  match get_document d doc_id with
  | Some doc => rev_label d doc
  | None => None
  end.

(** ** Connections *)

Record conn := { committed : db; working : db }.

(** [get_conn()]: a new connection sees the committed database. *)
Definition get_conn (d : db) : conn := {| committed := d; working := d |}.

(** Statements run on the connection's cursor.  When one of them raises,
    the effects of the statements before it stay uncommitted and the
    connection is dropped by the caller, so they are not tracked further. *)
Definition execute {A} (p : cursor A) (c : conn) : conn * result A :=
  match p (working c) with
  | Ok (a, w) => ({| committed := committed c; working := w |}, Ok a)
  | Raise e => (c, Raise e)
  end.

(** [conn.commit()] *)
Definition commit (c : conn) : conn :=
  {| committed := working c; working := working c |}.

(** [conn.close()], or the connection being dropped when an exception
    leaves the function: what stays in the file is what was committed. *)
Definition close (c : conn) : db := committed c.

(** The shape shared by every writer in [database.py]:
    [conn = get_conn(); c = conn.cursor(); ...; conn.commit(); conn.close();
    return x], where an exception in [...] propagates to the caller before
    [conn.commit()] is reached. *)
Definition run {A} (p : cursor A) (d : db) : db * result A :=
  let conn := get_conn d in
  let (conn', r) := execute p conn in
  match r with
  | Ok a => (close (commit conn'), Ok a)
  | Raise e => (close conn', Raise e)
  end.

(** ** Writers of [database.py]

    [now] stands for [datetime.utcnow().isoformat()], read once at the start
    of each function. *)

Definition create_organization (name description now : string) : db -> db * result Z :=
  run (insert_organization
         {| org_name := name; org_description := description;
            org_created_at := now |}).

Definition create_project (name description : string) (org : Z) (now : string)
  : db -> db * result Z :=
  run (insert_project
         {| proj_name := name; proj_description := description;
            proj_org_id := org; proj_created_at := now |}).

Definition create_document_stmts
    (doc_number title doc_type status : string) (org_id project_id : Z)
    (revision_label file_path : string) (uploaded_by : Z) (now : string)
  : cursor Z :=
  doc_id <- insert_document
              {| doc_number := doc_number; title := title;
                 doc_type := doc_type; status := status; org_id := org_id;
                 project_id := project_id; current_revision_id := None;
                 created_at := now |} ;;
  rev_id <- insert_revision
              {| document_id := doc_id; revision := revision_label;
                 file_path := file_path; uploaded_by := uploaded_by;
                 uploaded_at := now |} ;;
  update_current_revision rev_id doc_id ;;;
  insert_event
    {| ev_document_id := doc_id; ev_revision_id := Some rev_id;
       ev_user_id := uploaded_by; event_type := "Uploaded";
       timestamp := now; notes := None |} ;;;
  ret doc_id.

Definition create_document
    (doc_number title doc_type status : string) (org_id project_id : Z)
    (revision_label file_path : string) (uploaded_by : Z) (now : string)
  : db -> db * result Z :=
  run (create_document_stmts doc_number title doc_type status org_id
         project_id revision_label file_path uploaded_by now).

Definition add_document_revision_stmts
    (document_id : Z) (revision_label file_path : string) (uploaded_by : Z)
    (now : string) : cursor Z :=
  rev_id <- insert_revision
              {| document_id := document_id; revision := revision_label;
                 file_path := file_path; uploaded_by := uploaded_by;
                 uploaded_at := now |} ;;
  update_current_revision rev_id document_id ;;;
  insert_event
    {| ev_document_id := document_id; ev_revision_id := Some rev_id;
       ev_user_id := uploaded_by; event_type := "RevisionUploaded";
       timestamp := now; notes := None |} ;;;
  ret rev_id.

Definition add_document_revision
    (document_id : Z) (revision_label file_path : string) (uploaded_by : Z)
    (now : string) : db -> db * result Z :=
  run (add_document_revision_stmts document_id revision_label file_path
         uploaded_by now).

(** [str(n)] for a Python int. *)
Definition str (n : Z) : string := NilZero.string_of_int (Z.to_int n).

(** [f"Transmittal {transmittal_number} sent to org {recipient_org_id}"] *)
Definition sent_note (transmittal_number : string) (recipient_org_id : Z) : string :=
  ("Transmittal " ++ transmittal_number ++ " sent to org "
   ++ str recipient_org_id)%string.

Arguments sent_note : simpl never.

(** One iteration of the loop of [create_transmittal]. *)
Definition send_revision
    (transmittal_number : string) (recipient_org_id created_by : Z)
    (now : string) (trans_id rev_id : Z) : cursor unit :=
  insert_transmittal_document (trans_id, rev_id) ;;;
  r <- fetchone (fun w => get_revision w rev_id) ;;
  doc_id <- subscript r document_id ;;
  insert_event
    {| ev_document_id := doc_id; ev_revision_id := Some rev_id;
       ev_user_id := created_by; event_type := "Sent"; timestamp := now;
       notes := Some (sent_note transmittal_number recipient_org_id) |} ;;;
  row <- fetchone (fun w => get_document w doc_id) ;;
  row <- unpack row ;;
  existing <- fetchone (select_document_id (doc_number row) recipient_org_id
                          (project_id row)) ;;
  match existing with
  | None =>
      new_doc_id <- insert_document
                      {| doc_number := doc_number row; title := title row;
                         doc_type := doc_type row; status := status row;
                         org_id := recipient_org_id;
                         project_id := project_id row;
                         current_revision_id := None; created_at := now |} ;;
      r1 <- fetchone (fun w => get_revision w rev_id) ;;
      new_rev_label <- subscript r1 revision ;;
      r2 <- fetchone (fun w => get_revision w rev_id) ;;
      new_file_path <- subscript r2 file_path ;;
      new_rev_id <- insert_revision
                      {| document_id := new_doc_id; revision := new_rev_label;
                         file_path := new_file_path; uploaded_by := created_by;
                         uploaded_at := now |} ;;
      update_current_revision new_rev_id new_doc_id
  | Some existing_doc_id =>
      r1 <- fetchone (fun w => get_revision w rev_id) ;;
      new_rev_label <- subscript r1 revision ;;
      r2 <- fetchone (fun w => get_revision w rev_id) ;;
      new_file_path <- subscript r2 file_path ;;
      new_rev_id <- insert_revision
                      {| document_id := existing_doc_id;
                         revision := new_rev_label;
                         file_path := new_file_path; uploaded_by := created_by;
                         uploaded_at := now |} ;;
      update_current_revision new_rev_id existing_doc_id
  end.

Definition create_transmittal_stmts
    (transmittal_number description : string)
    (sender_org_id recipient_org_id : Z) (document_revision_ids : list Z)
    (created_by : Z) (now : string) : cursor Z :=
  trans_id <- insert_transmittal
                {| transmittal_number := transmittal_number;
                   description := description;
                   sender_org_id := sender_org_id;
                   recipient_org_id := recipient_org_id;
                   created_by := created_by; tr_created_at := now |} ;;
  for_each document_revision_ids
    (send_revision transmittal_number recipient_org_id created_by now
       trans_id) ;;;
  ret trans_id.

Definition create_transmittal
    (transmittal_number description : string)
    (sender_org_id recipient_org_id : Z) (document_revision_ids : list Z)
    (created_by : Z) (now : string) : db -> db * result Z :=
  run (create_transmittal_stmts transmittal_number description sender_org_id
         recipient_org_id document_revision_ids created_by now).

(** * Vocabulary of the properties *)

(** ** Rows written by the writers *)

Definition initial_revision (doc_id : Z) (revision_label file_path : string)
    (uploaded_by : Z) (now : string) : document_revision :=
  {| document_id := doc_id; revision := revision_label;
     file_path := file_path; uploaded_by := uploaded_by;
     uploaded_at := now |}.

Definition upload_event (kind : string) (doc_id rev_id uploaded_by : Z)
    (now : string) : event :=
  {| ev_document_id := doc_id; ev_revision_id := Some rev_id;
     ev_user_id := uploaded_by; event_type := kind; timestamp := now;
     notes := None |}.

Definition sent_event (transmittal_number : string)
    (recipient_org_id created_by : Z) (now : string) (doc_id rev_id : Z) : event :=
  {| ev_document_id := doc_id; ev_revision_id := Some rev_id;
     ev_user_id := created_by; event_type := "Sent"; timestamp := now;
     notes := Some (sent_note transmittal_number recipient_org_id) |}.

Definition replica (target created_by : Z) (now : string)
    (src : document_revision) : document_revision :=
  {| document_id := target; revision := revision src;
     file_path := file_path src; uploaded_by := created_by;
     uploaded_at := now |}.

Definition recipient_copy (recipient_org_id : Z) (now : string)
    (src : document) : document :=
  {| doc_number := doc_number src; title := title src;
     doc_type := doc_type src; status := status src;
     org_id := recipient_org_id; project_id := project_id src;
     current_revision_id := None; created_at := now |}.

(** ** How a store grows

    Rows of the ledger, the event log, the link table and the transmittal
    table are only ever appended.  Rows of the register keep their id and
    every column except [current_revision_id]. *)

Definition same_identity (a b : document) : Prop :=
  doc_number a = doc_number b /\ title a = title b /\
  doc_type a = doc_type b /\ status a = status b /\
  org_id a = org_id b /\ project_id a = project_id b /\
  created_at a = created_at b.

Record extends (w w' : db) : Prop := {
  ext_organizations : organizations w' = organizations w;
  ext_projects : projects w' = projects w;
  ext_transmittals : transmittals w' = transmittals w;
  ext_links : exists l,
      transmittal_documents w' = transmittal_documents w ++ l;
  ext_events : exists l, events w' = events w ++ l;
  ext_revisions : exists l,
      document_revisions w' = document_revisions w ++ l;
  ext_docs_fwd : forall i d, In (i, d) (documents w) ->
      exists d', In (i, d') (documents w') /\ same_identity d d';
  ext_docs_bwd : forall i d', In (i, d') (documents w') ->
      max_rowid (documents w) < i \/
      exists d, In (i, d) (documents w) /\ same_identity d d';
  ext_docs_get : forall i d, get_document w i = Some d ->
      exists d', get_document w' i = Some d' /\ same_identity d d';
  ext_docs_max : max_rowid (documents w) <= max_rowid (documents w') }.

(** ** What a send delivers *)

(** Revision [r] has been sent between store [s] and store [s']: its
    link, a new "Sent" event on its document, and a new ledger row that
    copies its label and file reference under a document of the
    recipient with the number and project of its own document. *)
Definition delivered (tn : string) (ro cb : Z) (now : string) (tid : Z)
    (s s' : db) (r : Z) : Prop :=
  In (tid, r) (transmittal_documents s') /\
  exists rr src,
    get_revision s' r = Some rr /\
    get_document s' (document_id rr) = Some src /\
    (exists eid,
        max_rowid (events s) < eid /\
        In (eid, sent_event tn ro cb now (document_id rr) r) (events s')) /\
    (exists nrid target tdoc,
        max_rowid (document_revisions s) < nrid /\
        In (nrid, replica target cb now rr) (document_revisions s') /\
        In (target, tdoc) (documents s') /\
        org_id tdoc = ro /\
        doc_number tdoc = doc_number src /\
        project_id tdoc = project_id src).

(** Row [nd] copies the number and project of the document of one of the
    revisions of [revs], as found in store [w']. *)
Definition copied_from (ro : Z) (revs : list Z) (w' : db) (nd : document)
  : Prop :=
  org_id nd = ro /\
  exists r rr src,
    In r revs /\
    get_revision w' r = Some rr /\
    get_document w' (document_id rr) = Some src /\
    doc_number nd = doc_number src /\
    project_id nd = project_id src.

(** ** The current-revision pointer *)

(** The rowid of the last row of the ledger, in insertion order, that
    belongs to document [doc_id]. *)
Definition latest_revision_id (revs : table document_revision) (doc_id : Z)
  : option Z :=
  fold_left (fun acc r => if document_id (snd r) =? doc_id
                          then Some (fst r) else acc) revs None.

(** Document row [d] with id [i] points at the latest ledger row of [i]
    (at nothing when there is none), and that id resolves to a row of [i]. *)
Definition pointer_ok (revs : table document_revision) (i : Z) (d : document)
  : Prop :=
  current_revision_id d = latest_revision_id revs i /\
  forall n, current_revision_id d = Some n ->
            exists rv, select_by_id revs n = Some rv /\ document_id rv = i.

Definition current_is_latest (w : db) : Prop :=
  forall i d, In (i, d) (documents w) -> pointer_ok (document_revisions w) i d.

(** ** Stores the application can reach *)

(** The stores produced from the empty database by the writers of
    [database.py], called with any arguments, whether they return or
    raise. *)
Inductive reachable : db -> Prop :=
| reach_empty : reachable empty_db
| reach_create_organization s name descr now :
    reachable s -> reachable (fst (create_organization name descr now s))
| reach_create_project s name descr org now :
    reachable s -> reachable (fst (create_project name descr org now s))
| reach_create_document s num ttl ty st org proj lbl fp u now :
    reachable s ->
    reachable (fst (create_document num ttl ty st org proj lbl fp u now s))
| reach_add_document_revision s doc_id lbl fp u now :
    reachable s ->
    reachable (fst (add_document_revision doc_id lbl fp u now s))
| reach_create_transmittal s tn descr so ro revs cb now :
    reachable s ->
    reachable (fst (create_transmittal tn descr so ro revs cb now s)).

(** "Uploaded" events are only written by [create_document], for the
    document it has just inserted. *)
Definition uploaded_events_bounded (w : db) : Prop :=
  forall i e, In (i, e) (events w) ->
              event_type e = "Uploaded"%string ->
              ev_document_id e <= max_rowid (documents w).

(** Links only name transmittals that exist. *)
Definition links_bounded (w : db) : Prop :=
  forall t r, In (t, r) (transmittal_documents w) ->
              t <= max_rowid (transmittals w).

(** The rows of the event log of a given type on a given document. *)
Definition events_of_type (w : db) (doc_id : Z) (kind : string)
  : list (Z * event) :=
  filter (fun r => (ev_document_id (snd r) =? doc_id)
                   && String.eqb (event_type (snd r)) kind) (events w).

(** ** Listing a document's revisions *)

(** [a] is listed before [b]: [a] was uploaded no earlier than [b]. *)
Definition newest_first (a b : Z * document_revision) : Prop :=
  String.leb (uploaded_at (snd b)) (uploaded_at (snd a)) = true.

(** The arguments of one [add_document_revision] call on a fixed document. *)
Record upload := {
  up_label : string;
  up_file : string;
  up_user : Z;
  up_now : string }.

(** Successive [add_document_revision] calls on document [doc_id]. *)
Definition add_revisions (doc_id : Z) (calls : list upload) (s : db) : db :=
  fold_left
    (fun s c => fst (add_document_revision doc_id (up_label c) (up_file c)
                       (up_user c) (up_now c) s))
    calls s.

Definition ledger_row (doc_id : Z) (c : upload) : document_revision :=
  initial_revision doc_id (up_label c) (up_file c) (up_user c) (up_now c).

Definition rows_of (doc_id : Z) (revs : table document_revision) :=
  filter (fun r => document_id (snd r) =? doc_id) revs.

(** ** A worked scenario

    Organization 1 (sender) and organization 2 (recipient), project 1 owned
    by the sender, and document "DOC-001" of the sender with revisions "A"
    and then "B". *)

Definition t0 : string := "2024-03-01T08:00:00".

Definition t1 : string := "2024-03-01T09:00:00".

Definition t2 : string := "2024-03-02T10:30:00".

Definition t3 : string := "2024-03-03T16:45:00".

Definition two_orgs : db :=
  fst (create_project "P1" "Pump station" 1 t0
         (fst (create_organization "Birch" "recipient" t0
                 (fst (create_organization "Acme" "sender" t0 empty_db))))).

Definition site : db :=
  fst (create_document "DOC-001" "Pump layout" "drawing" "IFC" 1 1
         "A" "uploads/a.pdf" 10 t1 two_orgs).

Definition site_rev_b : db :=
  fst (add_document_revision 1 "B" "uploads/b.pdf" 10 t2 site).

(** The recipient already has its own "DOC-001" in project 1. *)
Definition site_with_recipient_doc : db :=
  fst (create_document "DOC-001" "Old layout" "sketch" "IFR" 2 1
         "0" "uploads/old.pdf" 20 t2 site).

(** A ledger row uploaded for document id 1 before any document exists. *)
Definition stray_ledger : db :=
  fst (add_document_revision 1 "Z" "uploads/z.pdf" 10 t0 empty_db).

(** The sender's document "DOC-001" filed under project 1, which the
    recipient owns. *)
Definition cross_site : db :=
  fst (create_document "DOC-001" "Pump layout" "drawing" "IFC" 1 1
         "A" "uploads/a.pdf" 10 t1
         (fst (create_project "Q1" "Recipient works" 2 t0
                 (fst (create_organization "Birch" "recipient" t0
                         (fst (create_organization "Acme" "sender" t0
                                 empty_db))))))).

(** * More of the register: constraints, integrity and growth *)

(** The key of [UNIQUE(doc_number, org_id, project_id)] of a row. *)
Definition doc_key (r : Z * document) : string * Z * Z :=
  (doc_number (snd r), org_id (snd r), project_id (snd r)).

(** Every PRIMARY KEY and UNIQUE constraint of the schema that bears on the
    modelled tables. *)
Record constraints_hold (s : db) : Prop := {
  pk_organizations : NoDup (map fst (organizations s));
  uq_organization_name : NoDup (map (fun r => org_name (snd r)) (organizations s));
  pk_projects : NoDup (map fst (projects s));
  pk_documents : NoDup (map fst (documents s));
  uq_document_key : NoDup (map doc_key (documents s));
  pk_document_revisions : NoDup (map fst (document_revisions s));
  pk_events : NoDup (map fst (events s));
  pk_transmittals : NoDup (map fst (transmittals s));
  pk_transmittal_documents : NoDup (transmittal_documents s) }.

(** A link names a transmittal and a revision that exist. *)
Definition link_resolves (s : db) (l : Z * Z) : Prop :=
  (exists t, get_transmittal s (fst l) = Some t) /\
  (exists rr, get_revision s (snd l) = Some rr).

(** An event names a ledger row of its own document; the document itself
    is in the register when the event is an "Uploaded" or a "Sent" one. *)
Definition event_resolves (s : db) (e : event) : Prop :=
  (event_type e = "Uploaded" \/ event_type e = "RevisionUploaded"
   \/ event_type e = "Sent")%string /\
  (exists r rr,
      ev_revision_id e = Some r /\ get_revision s r = Some rr /\
      document_id rr = ev_document_id e) /\
  (event_type e <> "RevisionUploaded"%string ->
   exists d, get_document s (ev_document_id e) = Some d).

(** Store [s'] is [s] with rows appended: nothing is deleted, and the only
    column of an existing row that may differ is [current_revision_id]. *)
Record append_only (s s' : db) : Prop := {
  ao_organizations : exists l, organizations s' = organizations s ++ l;
  ao_projects : exists l, projects s' = projects s ++ l;
  ao_transmittals : exists l, transmittals s' = transmittals s ++ l;
  ao_links : exists l,
      transmittal_documents s' = transmittal_documents s ++ l;
  ao_events : exists l, events s' = events s ++ l;
  ao_revisions : exists l,
      document_revisions s' = document_revisions s ++ l;
  ao_document_ids : exists l,
      map fst (documents s') = map fst (documents s) ++ l;
  ao_documents : forall i d, In (i, d) (documents s) ->
      exists d', In (i, d') (documents s') /\ same_identity d d';
  ao_get_document : forall i d, get_document s i = Some d ->
      exists d', get_document s' i = Some d' /\ same_identity d d' }.

(** No link and no event of the store dangles. *)
Definition references_resolve (s : db) : Prop :=
  (forall l, In l (transmittal_documents s) -> link_resolves s l) /\
  (forall i e, In (i, e) (events s) -> event_resolves s e).

(** Every document row points at a revision row with a positive rowid. *)
Definition documents_pointed (t : table document) : Prop :=
  forall i d, In (i, d) t -> exists n, current_revision_id d = Some n /\ 0 < n.

(** The store after the first transmittal of the scenario. *)
Definition site_sent : db :=
  fst (create_transmittal "TR-1" "first issue" 1 2 [1] 10 t3 site).

(** * Readers and callers

    The remaining read functions of [database.py] and the parts of the
    request handlers of [main.py] that decide what is stored or shown. *)

(** [ORDER BY doc_number]: ascending, TEXT compared bytewise; rows with
    equal numbers keep their rowid order. *)
Fixpoint insert_by_doc_number (r : Z * document) (l : list (Z * document)) :=
  match l with
  | [] => [r]
  | x :: rest =>
      if String.leb (doc_number (snd r)) (doc_number (snd x))
      then r :: x :: rest
      else x :: insert_by_doc_number r rest
  end.

Definition order_by_doc_number (l : list (Z * document)) :=
  fold_right insert_by_doc_number [] l.

(** [SELECT * FROM documents WHERE org_id=? AND project_id=? ORDER BY
    doc_number] *)
Definition get_documents_by_org_and_project (d : db) (org proj : Z)
  : list (Z * document) :=
  order_by_doc_number
    (filter (fun r => (org_id (snd r) =? org) && (project_id (snd r) =? proj))
       (documents d)).

(** The end of [main.upload_document_action], once the form is decoded and
    the file is saved under [file_path]: look for a document of the
    organization and project with the uploaded number; add a revision to it
    when there is one, create the document otherwise.  The handler does not
    catch what the database functions raise. *)
Definition store_upload
    (number title doc_type status_field : string) (org_id project_id : Z)
    (revision file_path : string) (user_id : Z) (now : string) (d : db)
  : db * result Z :=
  let existing_docs := get_documents_by_org_and_project d org_id project_id in
  match find (fun r => String.eqb (doc_number (snd r)) number)
             existing_docs with
  | Some existing_doc =>
      add_document_revision (fst existing_doc) revision file_path user_id now d
  | None =>
      create_document number title doc_type status_field org_id
        project_id revision file_path user_id now d
  end.

(** Every ledger row belongs to a document of the register. *)
Definition ledger_resolves (s : db) : Prop :=
  forall i rv, In (i, rv) (document_revisions s) ->
               exists d, get_document s (document_id rv) = Some d.

(** [a] is listed before [b] by [ORDER BY doc_number]. *)
Definition by_doc_number (a b : Z * document) : Prop :=
  String.leb (doc_number (snd a)) (doc_number (snd b)) = true.

(** [a] is listed strictly before [b]: its number is smaller. *)
Definition strictly_by_doc_number (a b : Z * document) : Prop :=
  String.ltb (doc_number (snd a)) (doc_number (snd b)) = true.

(** ** Users and what the handlers answer *)

(** A row of [users] as the handlers read it from [get_current_user];
    [org_id] is a nullable column. *)
Record user := {
  user_email : string;
  user_password_hash : string;
  user_name : string;
  role : string;
  user_org_id : option Z;
  user_created_at : string }.

(** [user["org_id"] == org] for an integer [org]: [None] equals no id. *)
Definition in_org (u : user) (org : Z) : bool :=
  match user_org_id u with
  | Some o => o =? org
  | None => false
  end.

(** [x in xs] on strings. *)
Definition str_in (x : string) (xs : list string) : bool :=
  existsb (String.eqb x) xs.

(** What a handler answers. *)
Inductive reply :=
| Forbidden                       (* HTTPException(status_code=403) *)
| NotFound                        (* HTTPException(status_code=404) *)
| FormError (error : string)      (* the form again, with an error *)
| Redirect (url : string)
| FileResponse (path : string)
| TransmittalPage (trans : transmittal) (docs : list (Z * document_revision)).

(** A stable sort for [ORDER BY]: [before a b] tells that [a] may stand
    before [b]. *)
Fixpoint insert_by {R} (before : R -> R -> bool) (r : R) (l : list R) :=
  match l with
  | [] => [r]
  | x :: rest =>
      if before r x then r :: x :: rest else x :: insert_by before r rest
  end.

Definition order_by {R} (before : R -> R -> bool) (l : list R) : list R :=
  fold_right (insert_by before) [] l.

(** [SELECT * FROM transmittals WHERE sender_org_id=? OR recipient_org_id=?
    ORDER BY created_at DESC] *)
Definition get_transmittals_for_org (d : db) (org : Z)
  : list (Z * transmittal) :=
  order_by
    (fun a b => String.leb (tr_created_at (snd b)) (tr_created_at (snd a)))
    (filter (fun r => (sender_org_id (snd r) =? org)
                      || (recipient_org_id (snd r) =? org))
       (transmittals d)).

(** [main.list_transmittals]: the transmittals of the user's organization.
    With a null [org_id] both comparisons of the WHERE clause are false. *)
Definition list_transmittals (d : db) (u : Z * user) : list (Z * transmittal) :=
  match user_org_id (snd u) with
  | Some org => get_transmittals_for_org d org
  | None => []
  end.

(** [main.transmittal_detail] *)
Definition transmittal_detail (d : db) (trans_id : Z) (u : Z * user) : reply :=
  match get_transmittal d trans_id with
  | None => NotFound
  | Some trans =>
      if negb (String.eqb (role (snd u)) "superadmin")
         && negb (in_org (snd u) (sender_org_id trans)
                  || in_org (snd u) (recipient_org_id trans))
      then Forbidden
      else TransmittalPage trans (get_transmittal_documents d trans_id)
  end.

(** [main.download_file].  [document["org_id"]] is only evaluated for a
    user who is not superadmin; it raises [TypeError] when the revision's
    document is missing. *)
Definition download_file (d : db) (revision_id : Z) (u : Z * user)
  : result reply :=
  match get_revision d revision_id with
  | None => Ok NotFound
  | Some revision =>
      let document := get_document d (document_id revision) in
      if negb (String.eqb (role (snd u)) "superadmin")
      then match document with
           | None => Raise TypeError
           | Some doc =>
               if negb (in_org (snd u) (org_id doc)) then Ok Forbidden
               else Ok (FileResponse (file_path revision))
           end
      else Ok (FileResponse (file_path revision))
  end.

(** [main.create_transmittal_action] from the point where the form fields
    are decoded into [trans_number], [description], [recipient_org_id] and
    [revision_ids].  Every exception of [db.create_transmittal] is caught
    and answered with the form; with a null [org_id] of the user the first
    INSERT violates NOT NULL on [sender_org_id], which is such an
    exception. *)
Definition create_transmittal_action (u : Z * user)
    (trans_number description : string) (recipient_org_id : Z)
    (revision_ids : list Z) (now : string) (d : db) : db * reply :=
  if negb (str_in (role (snd u)) ["superadmin"; "org_admin"]%string)
  then (d, Forbidden)
  else if String.eqb trans_number "" || (recipient_org_id =? 0)
          || match revision_ids with [] => true | _ => false end
  then (d, FormError
             "Complete todos los campos y seleccione al menos un documento.")
  else
    match user_org_id (snd u) with
    | None => (d, FormError "No se pudo crear el transmittal. Revise los datos.")
    | Some org =>
        match create_transmittal trans_number description org
                recipient_org_id revision_ids (fst u) now d with
        | (d', Ok _) => (d', Redirect "/transmittals")
        | (d', Raise _) =>
            (d', FormError "No se pudo crear el transmittal. Revise los datos.")
        end
    end.

(** [a] is listed before [b] by [ORDER BY created_at DESC]. *)
Definition latest_first (a b : Z * transmittal) : Prop :=
  String.leb (tr_created_at (snd b)) (tr_created_at (snd a)) = true.

(** Users of the scenario: user 10 administers the sender, user 20 is a
    member of the recipient. *)
Definition sender_admin : Z * user :=
  (10, {| user_email := "ana@acme.example"; user_password_hash := "";
          user_name := "Ana"; role := "org_admin"; user_org_id := Some 1;
          user_created_at := t0 |}).

Definition recipient_member : Z * user :=
  (20, {| user_email := "ben@birch.example"; user_password_hash := "";
          user_name := "Ben"; role := "user"; user_org_id := Some 2;
          user_created_at := t0 |}).

(** ** The form of a new transmittal *)

(** [SELECT * FROM organizations ORDER BY name] *)
Definition get_organizations (d : db) : list (Z * organization) :=
  order_by (fun a b => String.leb (org_name (snd a)) (org_name (snd b)))
    (organizations d).

(** [SELECT * FROM projects WHERE org_id=? ORDER BY name]; no row has a
    null [org_id], so the list is empty for a user without organization. *)
Definition get_projects_by_org (d : db) (org : option Z)
  : list (Z * project) :=
  match org with
  | Some org =>
      order_by (fun a b => String.leb (proj_name (snd a)) (proj_name (snd b)))
        (filter (fun r => proj_org_id (snd r) =? org) (projects d))
  | None => []
  end.

(** An entry of [doc_options]. *)
Record doc_option := {
  opt_id : Z;
  opt_doc_number : string;
  opt_title : string;
  opt_current_revision : option Z }.

(** [main.new_transmittal_form]: the lists [orgs] and [doc_options] handed
    to the template, or 403. *)
Definition new_transmittal_form (d : db) (u : Z * user)
  : reply + list (Z * organization) * list doc_option :=
  if negb (str_in (role (snd u)) ["superadmin"; "org_admin"]%string)
  then inl Forbidden
  else
    let all_orgs := get_organizations d in
    let orgs := filter (fun o => negb (in_org (snd u) (fst o))) all_orgs in
    let projects := get_projects_by_org d (user_org_id (snd u)) in
    let docs :=
      flat_map
        (fun p => match user_org_id (snd u) with
                  | Some org => get_documents_by_org_and_project d org (fst p)
                  | None => []
                  end)
        projects in
    let doc_options :=
      map (fun r => {| opt_id := fst r;
                       opt_doc_number := doc_number (snd r);
                       opt_title := title (snd r);
                       opt_current_revision := current_revision_id (snd r) |})
        docs in
    inr (orgs, doc_options).

(** Revision [r] is in the ledger of [s] and its document is in the
    register. *)
Definition sendable (s : db) (r : Z) : Prop :=
  exists rr src,
    get_revision s r = Some rr /\ get_document s (document_id rr) = Some src.

(** ** Users, passwords and sessions

    The tables [users] and [sessions] of the same database file.  None of
    the functions above reads or writes them, so they are kept in a record
    of their own. *)

Record session := {
  session_user_id : Z;
  expires_at : string }.

Record accounts := {
  users : table user;
  sessions : list (string * session) }.

Definition empty_accounts : accounts := {| users := []; sessions := [] |}.

(** The character [":"]. *)
Definition colon : Ascii.ascii :=
  Ascii.Ascii false true false true true true false false.

(** [s.split(":", 1)] when it yields two parts; [None] when [s] has no
    colon and the unpacking raises [ValueError]. *)
Fixpoint split_colon (s : string) : option (string * string) :=
  match s with
  | EmptyString => None
  | String c rest =>
      if Ascii.eqb c colon then Some (EmptyString, rest)
      else match split_colon rest with
           | Some (salt, hashed) => Some (String c salt, hashed)
           | None => None
           end
  end.

(** [":" not in s] *)
Fixpoint no_colon (s : string) : bool :=
  match s with
  | EmptyString => true
  | String c rest => negb (Ascii.eqb c colon) && no_colon rest
  end.

Section Passwords.
(** [sha256 s] stands for [hashlib.sha256(s.encode("utf-8")).hexdigest()],
    and [salt] for the value of [uuid.uuid4().hex]. *)
Variable sha256 : string -> string.

Definition hash_password (salt password : string) : string :=
  salt ++ ":" ++ sha256 (salt ++ password).

Definition verify_password (stored_hash password : string) : bool :=
  match split_colon stored_hash with
  | Some (salt, hashed) => String.eqb (sha256 (salt ++ password)) hashed
  | None => false
  end.

(** [INSERT INTO users]: [email] is UNIQUE. *)
Definition insert_user (u : user) (a : accounts) : result (Z * accounts) :=
  if existsb (fun r => String.eqb (user_email (snd r)) (user_email u))
       (users a)
  then Raise IntegrityError
  else let i := next_rowid (users a) in
       Ok (i, {| users := users a ++ [(i, u)]; sessions := sessions a |}).

(** [database.create_user]; nothing is committed when the INSERT raises. *)
Definition create_user (email password name role_ : string) (org_id : Z)
    (salt now : string) (a : accounts) : accounts * result Z :=
  let password_hash := hash_password salt password in
  match insert_user {| user_email := email;
                       user_password_hash := password_hash;
                       user_name := name; role := role_;
                       user_org_id := Some org_id;
                       user_created_at := now |} a with
  | Ok (user_id, a') => (a', Ok user_id)
  | Raise e => (a, Raise e)
  end.

(** [SELECT * FROM users WHERE email=?] followed by [fetchone()]. *)
Definition get_user_by_email (a : accounts) (email : string)
  : option (Z * user) :=
  find (fun r => String.eqb (user_email (snd r)) email) (users a).

(** [SELECT * FROM users WHERE id=?] followed by [fetchone()]. *)
Definition get_user_by_id (a : accounts) (user_id : Z) : option (Z * user) :=
  find (fun r => fst r =? user_id) (users a).

(** [database.create_session]: [session_id] stands for [uuid.uuid4().hex]
    and [expires] for the expiry time in ISO format; [id] is the PRIMARY
    KEY of [sessions]. *)
Definition create_session (user_id : Z) (session_id expires : string)
    (a : accounts) : accounts * result string :=
  if existsb (fun r => String.eqb (fst r) session_id) (sessions a)
  then (a, Raise IntegrityError)
  else ({| users := users a;
           sessions := sessions a ++
                         [(session_id,
                           {| session_user_id := user_id;
                              expires_at := expires |})] |},
        Ok session_id).

(** [SELECT * FROM sessions WHERE id=?] followed by [fetchone()]. *)
Definition get_session (a : accounts) (session_id : string)
  : option (string * session) :=
  find (fun r => String.eqb (fst r) session_id) (sessions a).

(** [DELETE FROM sessions WHERE id=?] *)
Definition delete_session (session_id : string) (a : accounts) : accounts :=
  {| users := users a;
     sessions := filter (fun r => negb (String.eqb (fst r) session_id))
                   (sessions a) |}.

(** [DELETE FROM sessions WHERE expires_at < ?]: TEXT compares bytewise. *)
Definition cleanup_sessions (now : string) (a : accounts) : accounts :=
  {| users := users a;
     sessions := filter (fun r => negb (String.ltb (expires_at (snd r)) now))
                   (sessions a) |}.

(** [main.login_action] from the decoded fields on: the answer and the
    value of the [session_id] cookie set on it.  What [create_session]
    raises is not caught. *)
Definition login_action (email password session_id expires : string)
    (a : accounts) : accounts * result (reply * option string) :=
  match get_user_by_email a email with
  | None => (a, Ok (FormError "Credenciales inválidas", None))
  | Some user =>
      if negb (verify_password (user_password_hash (snd user)) password)
      then (a, Ok (FormError "Credenciales inválidas", None))
      else match create_session (fst user) session_id expires a with
           | (a', Ok sid) => (a', Ok (Redirect "/dashboard", Some sid))
           | (a', Raise e) => (a', Raise e)
           end
  end.

(** [main.logout]: [cookie] is the [session_id] cookie of the request. *)
Definition logout (cookie : option string) (a : accounts) : accounts * reply :=
  (match cookie with
   | Some session_id =>
       if String.eqb session_id "" then a else delete_session session_id a
   | None => a
   end,
   Redirect "/login").

(** [main.create_user_action] from the decoded fields on. *)
Definition create_user_action (u : Z * user) (org_id : Z)
    (email name_field password role_field salt now : string) (a : accounts)
  : accounts * reply :=
  if String.eqb (role (snd u)) "superadmin"
     || (String.eqb (role (snd u)) "org_admin" && in_org (snd u) org_id)
  then
    if String.eqb (role (snd u)) "org_admin"
       && String.eqb role_field "org_admin"
    then (a, Forbidden)
    else
      let role_field :=
        if negb (str_in role_field ["org_admin"; "user"]%string)
        then "user"%string else role_field in
      match create_user email password name_field role_field org_id
              salt now a with
      | (a', Ok _) =>
          (a', Redirect ("/organizations/" ++ str org_id ++ "/users"))
      | (a', Raise _) =>
          (a', FormError
                 "No se pudo crear el usuario. Puede que el email ya exista.")
      end
  else (a, Forbidden).

(** [database.create_default_superadmin], on the two parts of the
    database.  Nothing is committed when a statement raises. *)
Definition create_default_superadmin (salt now : string) (d : db)
    (a : accounts) : (db * accounts) * result unit :=
  let count := Z.of_nat (List.length (users a)) in
  if count =? 0 then
    match insert_organization
            {| org_name := "Global";
               org_description := "Default global organization";
               org_created_at := now |} d with
    | Ok (org_id, d') =>
        let password := "admin"%string in
        let password_hash := hash_password salt password in
        match insert_user {| user_email := "admin@example.com";
                             user_password_hash := password_hash;
                             user_name := "Super Admin";
                             role := "superadmin";
                             user_org_id := Some org_id;
                             user_created_at := now |} a with
        | Ok (_, a') => ((d', a'), Ok tt)
        | Raise e => ((d, a), Raise e)
        end
    | Raise e => ((d, a), Raise e)
    end
  else ((d, a), Ok tt).
End Passwords.

(** The PRIMARY KEY and UNIQUE constraints of [users] and [sessions]. *)
Record accounts_keys (a : accounts) : Prop := {
  pk_users : NoDup (map fst (users a));
  uq_user_email : NoDup (map (fun r => user_email (snd r)) (users a));
  pk_sessions : NoDup (map fst (sessions a)) }.

(** A stand-in for the digest in the worked examples, and the user table
    after the administrator of the sender has been created. *)
Definition demo_digest (s : string) : string := (s ++ "#")%string.

Definition staff : accounts :=
  fst (create_user demo_digest "ana@acme.example" "secret" "Ana" "org_admin" 1
         "5f3a9c" t0 empty_accounts).

(** ** Pages of the register *)

(** [main.list_documents]: the project, the documents and the
    [rev_labels] mapping handed to the template, or 403 or 404. *)
Definition list_documents (d : db) (org proj : Z) (u : Z * user)
  : reply + project * list (Z * document) * list (Z * string) :=
  if negb (String.eqb (role (snd u)) "superadmin") && negb (in_org (snd u) org)
  then inl Forbidden
  else
    match get_project d proj with
    | None => inl NotFound
    | Some project =>
        if negb (proj_org_id project =? org) then inl NotFound
        else
          let documents := get_documents_by_org_and_project d org proj in
          let rev_labels :=
            flat_map (fun doc => match rev_label d (snd doc) with
                                 | Some l => [(fst doc, l)]
                                 | None => []
                                 end) documents in
          inr (project, documents, rev_labels)
    end.

(** [SELECT events.*, users.name AS user_name FROM events JOIN users ON
    events.user_id = users.id WHERE events.document_id=? ORDER BY
    events.timestamp DESC]: an event whose user is not in [users] is not
    listed. *)
Definition get_events_for_document (d : db) (a : accounts) (doc_id : Z)
  : list (Z * event * string) :=
  order_by
    (fun x y => String.leb (timestamp (snd (fst y))) (timestamp (snd (fst x))))
    (flat_map
       (fun e =>
          if ev_document_id (snd e) =? doc_id
          then map (fun w => (e, user_name (snd w)))
                 (filter (fun w => fst w =? ev_user_id (snd e)) (users a))
          else [])
       (events d)).

(** [main.document_detail]: the document, its revisions and its events
    handed to the template, or 403 or 404. *)
Definition document_detail (d : db) (a : accounts) (org proj doc_id : Z)
    (u : Z * user)
  : reply + document * list (Z * document_revision)
            * list (Z * event * string) :=
  if negb (String.eqb (role (snd u)) "superadmin") && negb (in_org (snd u) org)
  then inl Forbidden
  else
    match get_document d doc_id with
    | None => inl NotFound
    | Some doc =>
        if negb (org_id doc =? org) || negb (project_id doc =? proj)
        then inl NotFound
        else inr (doc, get_revisions_for_document d doc_id,
                  get_events_for_document d a doc_id)
    end.

(** [main.list_projects]: the organization and its projects, or 403 or
    404. *)
Definition list_projects (d : db) (org : Z) (u : Z * user)
  : reply + organization * list (Z * project) :=
  if negb (String.eqb (role (snd u)) "superadmin") && negb (in_org (snd u) org)
  then inl Forbidden
  else
    match get_organization d org with
    | None => inl NotFound
    | Some o => inr (o, get_projects_by_org d (Some org))
    end.

(** [main.create_project_action] from the decoded fields on. *)
Definition create_project_action (u : Z * user) (org : Z)
    (name_field description_field now : string) (d : db) : db * reply :=
  if negb (str_in (role (snd u)) ["superadmin"; "org_admin"]%string)
  then (d, Forbidden)
  else if String.eqb (role (snd u)) "org_admin" && negb (in_org (snd u) org)
  then (d, Forbidden)
  else if String.eqb name_field ""
  then (d, FormError "El nombre es obligatorio.")
  else
    match create_project name_field description_field org now d with
    | (d', Ok _) =>
        (d', Redirect ("/organizations/" ++ str org ++ "/projects"))
    | (d', Raise _) =>
        (d', FormError "No se pudo crear el proyecto. Verifique los datos.")
    end.

(** [main.create_organization_action] from the decoded fields on; only
    [sqlite3.IntegrityError] is caught. *)
Definition create_organization_action (u : Z * user)
    (name description now : string) (d : db) : db * result reply :=
  if negb (str_in (role (snd u)) ["superadmin"]%string)
  then (d, Ok Forbidden)
  else if String.eqb name ""
  then (d, Ok (FormError "Debe ingresar un nombre"))
  else
    match create_organization name description now d with
    | (d', Ok _) => (d', Ok (Redirect "/organizations"))
    | (d', Raise IntegrityError) =>
        (d', Ok (FormError "Nombre de organización ya existe"))
    | (d', Raise e) => (d', Raise e)
    end.

(** [a] is listed before [b] by [ORDER BY events.timestamp DESC]. *)
Definition latest_event_first (x y : Z * event * string) : Prop :=
  String.leb (timestamp (snd (fst y))) (timestamp (snd (fst x))) = true.

(** [a] is listed strictly before [b] by [ORDER BY name]. *)
Definition strictly_by_name (a b : Z * organization) : Prop :=
  String.ltb (org_name (snd a)) (org_name (snd b)) = true.

(** The two users of the scenario as rows of [users]. *)
Definition site_staff : accounts :=
  {| users := [sender_admin; recipient_member]; sessions := [] |}.

(** * Properties *)

(** ** Rowids and lookups *)

Lemma max_rowid_app {R} (t u : table R) :
  max_rowid (t ++ u) = Z.max (max_rowid t) (max_rowid u).
Proof.
  unfold max_rowid. induction t as [|x t IH]; simpl.
  - fold (max_rowid u). assert (0 <= max_rowid u).
    { unfold max_rowid. induction u; simpl; lia. }
    unfold max_rowid in *. lia.
  - rewrite IH. lia.
Qed.

Lemma max_rowid_nonneg {R} (t : table R) : 0 <= max_rowid t.
Proof. unfold max_rowid. induction t; simpl; lia. Qed.

Lemma max_rowid_snoc {R} (t : table R) (r : R) :
  max_rowid (t ++ [(next_rowid t, r)]) = next_rowid t.
Proof.
  rewrite max_rowid_app. unfold next_rowid. simpl.
  pose proof (max_rowid_nonneg t). lia.
Qed.

Lemma In_max_rowid {R} (t : table R) i r : In (i, r) t -> i <= max_rowid t.
Proof.
  unfold max_rowid. induction t as [|x t IH]; simpl; [tauto|].
  intros [->|H]; simpl; [lia|]. apply IH in H. lia.
Qed.

Lemma select_by_id_In {R} (t : table R) i r :
  select_by_id t i = Some r -> In (i, r) t.
Proof.
  unfold select_by_id. destruct (find _ t) as [[j x]|] eqn:E; [|discriminate].
  simpl. intros [= ->]. apply find_some in E. simpl in E.
  destruct E as [E1 E2]. apply Z.eqb_eq in E2. now subst.
Qed.

Lemma select_by_id_above {R} (t : table R) i :
  max_rowid t < i -> select_by_id t i = None.
Proof.
  intros H. destruct (select_by_id t i) eqn:E; [|reflexivity].
  apply select_by_id_In, In_max_rowid in E. lia.
Qed.

Lemma select_by_id_app_some {R} (t u : table R) i r :
  select_by_id t i = Some r -> select_by_id (t ++ u) i = Some r.
Proof.
  unfold select_by_id. induction t as [|x t IH]; simpl; [discriminate|].
  destruct (fst x =? i); auto.
Qed.

Lemma select_by_id_app_none {R} (t u : table R) i :
  select_by_id t i = None -> select_by_id (t ++ u) i = select_by_id u i.
Proof.
  unfold select_by_id. induction t as [|x t IH]; simpl; [reflexivity|].
  destruct (fst x =? i); [discriminate|auto].
Qed.

Lemma select_by_id_snoc_new {R} (t : table R) r :
  select_by_id (t ++ [(next_rowid t, r)]) (next_rowid t) = Some r.
Proof.
  rewrite select_by_id_app_none.
  - unfold select_by_id. simpl. now rewrite Z.eqb_refl.
  - apply select_by_id_above. unfold next_rowid. lia.
Qed.

Lemma select_by_id_snoc_other {R} (t : table R) j r i :
  i <> j -> select_by_id (t ++ [(j, r)]) i = select_by_id t i.
Proof.
  intros N. destruct (select_by_id t i) eqn:E.
  - now apply select_by_id_app_some.
  - rewrite select_by_id_app_none by assumption. unfold select_by_id. simpl.
    destruct (Z.eqb_spec j i); [congruence|reflexivity].
Qed.

Arguments max_rowid : simpl never.
Arguments next_rowid : simpl never.

(** ** The commit discipline *)

Lemma run_ok {A} (p : cursor A) d d' a :
  run p d = (d', Ok a) <-> p d = Ok (a, d').
Proof.
  unfold run, execute, get_conn, commit, close. simpl.
  destruct (p d) as [[a0 w]|e]; simpl; split; intros H; inversion H; auto.
Qed.

Lemma run_raise {A} (p : cursor A) d d' e :
  run p d = (d', Raise e) <-> d' = d /\ p d = Raise e.
Proof.
  unfold run, execute, get_conn, commit, close. simpl.
  destruct (p d) as [[a0 w]|e0]; simpl; split; intros H.
  - inversion H.
  - destruct H as [_ H]. inversion H.
  - inversion H. auto.
  - destruct H as [-> H]. inversion H. auto.
Qed.

(** ** One iteration of the send loop *)

Lemma send_revision_inv tn ro cb now tid r w w' :
  send_revision tn ro cb now tid r w = Ok (tt, w') ->
  exists rr src target,
    get_revision w r = Some rr /\
    get_document w (document_id rr) = Some src /\
    existsb (link_eqb (tid, r)) (transmittal_documents w) = false /\
    organizations w' = organizations w /\
    projects w' = projects w /\
    transmittals w' = transmittals w /\
    transmittal_documents w' = transmittal_documents w ++ [(tid, r)] /\
    events w' = events w ++
      [(next_rowid (events w), sent_event tn ro cb now (document_id rr) r)] /\
    document_revisions w' = document_revisions w ++
      [(next_rowid (document_revisions w), replica target cb now rr)] /\
    ((select_document_id (doc_number src) ro (project_id src) w = None /\
      target = next_rowid (documents w) /\
      documents w' =
        repoint (next_rowid (document_revisions w)) target
          (documents w ++ [(target, recipient_copy ro now src)]))
     \/
     (select_document_id (doc_number src) ro (project_id src) w = Some target /\
      documents w' =
        repoint (next_rowid (document_revisions w)) target (documents w))).
Proof.
  unfold send_revision, bind, fetchone, insert_transmittal_document,
    get_revision, get_document, select_document_id, insert_event,
    insert_document, insert_revision, update_current_revision.
  destruct (existsb (link_eqb (tid, r)) (transmittal_documents w)) eqn:EL;
    [discriminate|].
  cbn.
  destruct (select_by_id (document_revisions w) r) as [rr|] eqn:ER; cbn;
    [|discriminate].
  destruct (select_by_id (documents w) (document_id rr)) as [src|] eqn:ED; cbn;
    [|discriminate].
  destruct (option_map fst (find (same_key (doc_number src) ro (project_id src))
                              (documents w))) as [target|] eqn:ES; cbn.
  - repeat (rewrite ER; cbn).
    intros [= E]. subst w'. exists rr, src, target. cbn. repeat split; auto.
  - destruct (existsb _ (documents w)); [discriminate|].
    cbn. repeat (rewrite ER; cbn).
    intros [= E]. subst w'. exists rr, src, (next_rowid (documents w)). cbn.
    repeat split; auto.
Qed.

(** ** Growth of the store during a send *)

Lemma same_identity_refl d : same_identity d d.
Proof. unfold same_identity. tauto. Qed.

Lemma same_identity_trans a b c :
  same_identity a b -> same_identity b c -> same_identity a c.
Proof. unfold same_identity. intuition congruence. Qed.

Lemma same_identity_set_current n d : same_identity d (set_current n d).
Proof. unfold same_identity. cbn. tauto. Qed.

Lemma repoint_fst n x t : map fst (repoint n x t) = map fst t.
Proof.
  unfold repoint. induction t as [|[i d] t IH]; cbn; [reflexivity|].
  rewrite IH. now destruct (i =? x).
Qed.

Lemma max_rowid_fst {R S} (t : table R) (u : table S) :
  map fst t = map fst u -> max_rowid t = max_rowid u.
Proof.
  unfold max_rowid. revert u.
  induction t as [|a t IH]; intros [|b u]; cbn; try discriminate; auto.
  intros [= E1 E2]. rewrite E1. f_equal. now apply IH.
Qed.

Lemma repoint_max n x t : max_rowid (repoint n x t) = max_rowid t.
Proof. apply max_rowid_fst, repoint_fst. Qed.

Lemma repoint_In n x t i d :
  In (i, d) t ->
  In (i, if i =? x then set_current n d else d) (repoint n x t).
Proof.
  intros H. unfold repoint.
  apply (in_map (fun r => if fst r =? x
                          then (fst r, set_current n (snd r)) else r)) in H.
  cbn in H. destruct (i =? x); exact H.
Qed.

Lemma repoint_In_inv n x t i d' :
  In (i, d') (repoint n x t) ->
  exists d, In (i, d) t /\ d' = (if i =? x then set_current n d else d).
Proof.
  unfold repoint. rewrite in_map_iff. intros [[j d] [E H]]. cbn in E.
  exists d. destruct (j =? x) eqn:EJ; injection E as <- <-;
    rewrite EJ; auto.
Qed.

Lemma repoint_select n x t i :
  select_by_id (repoint n x t) i =
  option_map (fun d => if i =? x then set_current n d else d)
             (select_by_id t i).
Proof.
  unfold select_by_id, repoint. induction t as [|[j d] t IH]; cbn; auto.
  destruct (Z.eqb_spec j x) as [->|N]; cbn.
  - destruct (Z.eqb_spec x i) as [->|N']; cbn; [now rewrite Z.eqb_refl|auto].
  - destruct (Z.eqb_spec j i) as [->|N']; cbn; auto.
    destruct (Z.eqb_spec i x); [congruence|reflexivity].
Qed.

Lemma repoint_same_identity n x i (d : document) :
  same_identity d (if i =? x then set_current n d else d).
Proof.
  destruct (i =? x); [apply same_identity_set_current|apply same_identity_refl].
Qed.

Lemma extends_refl w : extends w w.
Proof.
  split; auto; try (exists []; now rewrite app_nil_r); try lia.
  - intros i d H. exists d. split; [assumption|apply same_identity_refl].
  - intros i d H. right. exists d. split; [assumption|apply same_identity_refl].
  - intros i d H. exists d. split; [assumption|apply same_identity_refl].
Qed.

Lemma extends_trans a b c : extends a b -> extends b c -> extends a c.
Proof.
  intros [O1 P1 T1 [l1 L1] [e1 E1] [r1 R1] F1 B1 G1 M1]
         [O2 P2 T2 [l2 L2] [e2 E2] [r2 R2] F2 B2 G2 M2].
  split; try congruence.
  - exists (l1 ++ l2). now rewrite L2, L1, app_assoc.
  - exists (e1 ++ e2). now rewrite E2, E1, app_assoc.
  - exists (r1 ++ r2). now rewrite R2, R1, app_assoc.
  - intros i d H. destruct (F1 _ _ H) as [d1 [H1 S1]].
    destruct (F2 _ _ H1) as [d2 [H2 S2]]. exists d2.
    split; [assumption|eapply same_identity_trans; eauto].
  - intros i d H. destruct (B2 _ _ H) as [Hlt|[d1 [H1 S1]]]; [left; lia|].
    destruct (B1 _ _ H1) as [Hlt|[d0 [H0 S0]]]; [left; lia|].
    right. exists d0. split; [assumption|eapply same_identity_trans; eauto].
  - intros i d H. destruct (G1 _ _ H) as [d1 [H1 S1]].
    destruct (G2 _ _ H1) as [d2 [H2 S2]]. exists d2.
    split; [assumption|eapply same_identity_trans; eauto].
  - lia.
Qed.

Lemma extends_get_revision w w' r rr :
  extends w w' -> get_revision w r = Some rr -> get_revision w' r = Some rr.
Proof.
  intros [_ _ _ _ _ [l E] _ _ _ _] H. unfold get_revision in *. rewrite E.
  now apply select_by_id_app_some.
Qed.

Lemma send_revision_extends tn ro cb now tid r w w' :
  send_revision tn ro cb now tid r w = Ok (tt, w') -> extends w w'.
Proof.
  intros H. apply send_revision_inv in H.
  destruct H as (rr & src & target & _ & _ & _ & HO & HP & HT & HL & HE & HR & HD).
  assert (HD' : exists extra,
             documents w' =
             repoint (next_rowid (document_revisions w)) target
               (documents w ++ extra) /\
             Forall (fun x => max_rowid (documents w) < fst x) extra).
  { destruct HD as [(_ & Ht & HD)|(_ & HD)].
    - eexists. split; [exact HD|]. constructor; [|constructor].
      cbn. subst target. unfold next_rowid. lia.
    - exists []. rewrite app_nil_r. split; [exact HD|constructor]. }
  clear HD. destruct HD' as (extra & HD & HX).
  split; eauto.
  - intros i d Hin. eexists. split.
    + rewrite HD. apply repoint_In. apply in_or_app. left. exact Hin.
    + apply repoint_same_identity.
  - intros i d' Hin. rewrite HD in Hin. apply repoint_In_inv in Hin.
    destruct Hin as (d & Hin & ->). apply in_app_or in Hin.
    destruct Hin as [Hin|Hin].
    + right. exists d. split; [assumption|apply repoint_same_identity].
    + left. rewrite Forall_forall in HX. apply (HX _ Hin).
  - intros i d Hg. unfold get_document in *. rewrite HD, repoint_select.
    rewrite (select_by_id_app_some _ _ _ _ Hg). cbn. eexists.
    split; [reflexivity|apply repoint_same_identity].
  - rewrite HD, repoint_max, max_rowid_app. lia.
Qed.

Section SendLoop.
Variables (tn : string) (ro cb : Z) (now : string) (tid : Z).

Lemma for_each_cons r rest w w' :
  for_each (r :: rest) (send_revision tn ro cb now tid) w = Ok (tt, w') ->
  exists w1, (send_revision tn ro cb now tid) r w = Ok (tt, w1) /\ for_each rest (send_revision tn ro cb now tid) w1 = Ok (tt, w').
Proof.
  cbn. unfold bind. destruct ((send_revision tn ro cb now tid) r w) as [[[] w1]|e]; [|discriminate].
  intros H. exists w1. auto.
Qed.

Lemma send_loop_extends revs : forall w w',
  for_each revs (send_revision tn ro cb now tid) w = Ok (tt, w') -> extends w w'.
Proof.
  induction revs as [|r rest IH]; intros w w' H.
  - cbn in H. inversion H. apply extends_refl.
  - apply for_each_cons in H. destruct H as (w1 & H1 & H2).
    eapply extends_trans; [eapply send_revision_extends; exact H1|eauto].
Qed.
End SendLoop.

(** ** What one successful send persists *)

Lemma select_document_id_some num org proj w i :
  select_document_id num org proj w = Some i ->
  exists d, In (i, d) (documents w) /\
            doc_number d = num /\ org_id d = org /\ project_id d = proj.
Proof.
  unfold select_document_id.
  destruct (find _ (documents w)) as [[j d]|] eqn:E; [|discriminate].
  cbn. intros [= ->]. apply find_some in E. destruct E as [E1 E2].
  unfold same_key in E2. cbn in E2.
  apply andb_true_iff in E2. destruct E2 as [E2 E3].
  apply andb_true_iff in E2. destruct E2 as [E2 E4].
  apply String.eqb_eq in E2. apply Z.eqb_eq in E3, E4. eauto.
Qed.

Section Delivered.
Variables (tn : string) (ro cb : Z) (now : string) (tid : Z).

Lemma delivered_step r w w1 :
  send_revision tn ro cb now tid r w = Ok (tt, w1) -> delivered tn ro cb now tid w w1 r.
Proof.
  intros H. pose proof (send_revision_extends _ _ _ _ _ _ _ _ H) as X.
  apply send_revision_inv in H.
  destruct H as (rr & src & target & HR & HG & _ & _ & _ & _ & HL & HE & HV & HD).
  split; [rewrite HL; apply in_or_app; right; now left|].
  destruct (ext_docs_get _ _ X _ _ HG) as (src' & HG' & SI).
  exists rr, src'. split; [eapply extends_get_revision; eauto|].
  split; [assumption|]. split.
  - exists (next_rowid (events w)). split; [unfold next_rowid; lia|].
    rewrite HE. apply in_or_app. right. now left.
  - destruct SI as (S1 & _ & _ & _ & _ & S6 & _).
    assert (HT : exists tdoc, In (target, tdoc) (documents w1) /\
                   org_id tdoc = ro /\ doc_number tdoc = doc_number src /\
                   project_id tdoc = project_id src).
    { destruct HD as [(_ & Ht & HD)|(HS & HD)]; rewrite HD.
      - eexists. split.
        + apply repoint_In. apply in_or_app. right. left. reflexivity.
        + destruct (target =? target); cbn; auto.
      - apply select_document_id_some in HS.
        destruct HS as (d & Hin & E1 & E2 & E3). eexists. split.
        + apply repoint_In. exact Hin.
        + destruct (target =? target); cbn; auto. }
    destruct HT as (tdoc & T1 & T2 & T3 & T4).
    exists (next_rowid (document_revisions w)), target, tdoc.
    split; [unfold next_rowid; lia|]. split.
    + rewrite HV. apply in_or_app. right. now left.
    + repeat split; auto; congruence.
Qed.

Lemma delivered_earlier s0 s s' r :
  extends s0 s -> delivered tn ro cb now tid s s' r -> delivered tn ro cb now tid s0 s' r.
Proof.
  intros X (HL & rr & src & HR & HG & (eid & E1 & E2) & (n & t & d & V1 & V2)).
  destruct X as [_ _ _ _ [le Ee] [lr Er] _ _ _ _].
  split; [assumption|]. exists rr, src. repeat split; auto.
  - exists eid. split; [|assumption].
    rewrite Ee, max_rowid_app in E1. lia.
  - exists n, t, d. split; [|assumption].
    rewrite Er, max_rowid_app in V1. lia.
Qed.

Lemma delivered_later s s1 s' r :
  delivered tn ro cb now tid s s1 r -> extends s1 s' -> delivered tn ro cb now tid s s' r.
Proof.
  intros (HL & rr & src & HR & HG & (eid & E1 & E2)
          & (n & t & d & V1 & V2 & V3 & V4 & V5 & V6)) X.
  destruct (ext_docs_get _ _ X _ _ HG) as (src' & HG' & SI).
  destruct (ext_docs_fwd _ _ X _ _ V3) as (d' & V3' & SD).
  pose proof (extends_get_revision _ _ _ _ X HR) as HR'.
  destruct X as [_ _ _ [ll El] [le Ee] [lr Er] _ _ _ _].
  destruct SI as (S1 & _ & _ & _ & _ & S6 & _).
  destruct SD as (D1 & _ & _ & _ & D5 & D6 & _).
  split; [rewrite El; apply in_or_app; now left|].
  exists rr, src'. repeat split; auto.
  - exists eid. split; [assumption|]. rewrite Ee. apply in_or_app. now left.
  - exists n, t, d'. split; [assumption|]. split.
    + rewrite Er. apply in_or_app. now left.
    + repeat split; auto; congruence.
Qed.

Lemma send_loop_delivered revs : forall w w',
  for_each revs (send_revision tn ro cb now tid) w = Ok (tt, w') ->
  forall r, In r revs -> delivered tn ro cb now tid w w' r.
Proof.
  induction revs as [|x rest IH]; intros w w' H r Hin; [destruct Hin|].
  apply for_each_cons in H. destruct H as (w1 & H1 & H2).
  destruct Hin as [->|Hin].
  - eapply delivered_later; [apply delivered_step; exact H1|].
    eapply send_loop_extends; exact H2.
  - eapply delivered_earlier;
      [eapply send_revision_extends; exact H1|eapply IH; eauto].
Qed.
End Delivered.

Lemma create_transmittal_stmts_inv tn desc so ro revs cb now s s' tid :
  create_transmittal_stmts tn desc so ro revs cb now s = Ok (tid, s') ->
  tid = next_rowid (transmittals s) /\
  for_each revs (send_revision tn ro cb now tid)
    (set_transmittals
       (transmittals s ++
          [(tid, {| transmittal_number := tn; description := desc;
                    sender_org_id := so; recipient_org_id := ro;
                    created_by := cb; tr_created_at := now |})]) s)
  = Ok (tt, s').
Proof.
  unfold create_transmittal_stmts, bind, insert_transmittal, ret.
  destruct (for_each revs _ _) as [[[] w]|e] eqn:E; [|discriminate].
  intros [= <- <-]. split; [reflexivity|exact E].
Qed.

(** C1.  A send is all or nothing: when [create_transmittal] returns, the
    new transmittal record is in the store and every revision id of the
    list has its link, its "Sent" event and its replica under a document of
    the recipient; when it raises, the store is exactly what it was. *)
Theorem create_transmittal_all_or_nothing tn desc so ro revs cb now s :
  (forall s' tid,
      create_transmittal tn desc so ro revs cb now s = (s', Ok tid) ->
      get_transmittal s tid = None /\
      get_transmittal s' tid =
        Some {| transmittal_number := tn; description := desc;
                sender_org_id := so; recipient_org_id := ro;
                created_by := cb; tr_created_at := now |} /\
      forall r, In r revs -> delivered tn ro cb now tid s s' r) /\
  (forall s' e,
      create_transmittal tn desc so ro revs cb now s = (s', Raise e) ->
      s' = s).
Proof.
  split.
  - intros s' tid H. apply run_ok, create_transmittal_stmts_inv in H.
    destruct H as [-> H].
    pose proof (send_loop_extends _ _ _ _ _ _ _ _ H) as X.
    split; [|split].
    + apply select_by_id_above. unfold next_rowid. lia.
    + unfold get_transmittal. rewrite (ext_transmittals _ _ X). cbn.
      apply select_by_id_snoc_new.
    + intros r Hin.
      exact (send_loop_delivered _ _ _ _ _ _ _ _ H r Hin).
  - intros s' e H. apply run_raise in H. tauto.
Qed.

(** ** Sends that raise *)

Lemma link_exists_iff l links :
  existsb (link_eqb l) links = true <-> In l links.
Proof.
  rewrite existsb_exists. split.
  - intros [[a b] [H E]]. unfold link_eqb in E. cbn in E.
    apply andb_true_iff in E. destruct E as [E1 E2].
    apply Z.eqb_eq in E1, E2. destruct l; cbn in *. now subst.
  - intros H. exists l. split; [assumption|].
    unfold link_eqb. now rewrite !Z.eqb_refl.
Qed.

Lemma insert_transmittal_document_duplicate l w :
  In l (transmittal_documents w) ->
  insert_transmittal_document l w = Raise IntegrityError.
Proof.
  intros H. unfold insert_transmittal_document.
  apply link_exists_iff in H. now rewrite H.
Qed.

Lemma run_raises {A} (p : cursor A) d e :
  p d = Raise e -> run p d = (d, Raise e).
Proof. intros H. apply run_raise. auto. Qed.

Section SendFailures.
Variables (tn : string) (ro cb : Z) (now : string) (tid : Z).

Lemma for_each_raise_here r rest w e :
  (send_revision tn ro cb now tid) r w = Raise e -> for_each (r :: rest) (send_revision tn ro cb now tid) w = Raise e.
Proof. intros H. cbn. unfold bind. now rewrite H. Qed.

Lemma for_each_step r rest w w1 :
  (send_revision tn ro cb now tid) r w = Ok (tt, w1) ->
  for_each (r :: rest) (send_revision tn ro cb now tid) w = for_each rest (send_revision tn ro cb now tid) w1.
Proof. intros H. cbn. unfold bind. now rewrite H. Qed.

Lemma send_loop_raises_on_linked revs : forall w r,
  In r revs -> In (tid, r) (transmittal_documents w) ->
  exists e, for_each revs (send_revision tn ro cb now tid) w = Raise e.
Proof.
  induction revs as [|x rest IH]; intros w r Hin Hl; [destruct Hin|].
  destruct ((send_revision tn ro cb now tid) x w) as [[[] w1]|e] eqn:E.
  - rewrite (for_each_step _ _ _ _ E).
    pose proof (send_revision_inv _ _ _ _ _ _ _ _ E) as
      (rr & src & t & _ & _ & HN & _ & _ & _ & HL & _).
    destruct Hin as [->|Hin].
    + apply link_exists_iff in Hl. congruence.
    + apply (IH w1 r Hin). rewrite HL. apply in_or_app. now left.
  - exists e. now apply for_each_raise_here.
Qed.

Lemma send_loop_raises_on_duplicate revs : forall w,
  ~ NoDup revs -> exists e, for_each revs (send_revision tn ro cb now tid) w = Raise e.
Proof.
  induction revs as [|x rest IH]; intros w ND.
  - destruct ND. constructor.
  - destruct ((send_revision tn ro cb now tid) x w) as [[[] w1]|e] eqn:E.
    + rewrite (for_each_step _ _ _ _ E).
      destruct (in_dec Z.eq_dec x rest) as [Hin|Hout].
      * apply (send_loop_raises_on_linked rest w1 x Hin).
        pose proof (send_revision_inv _ _ _ _ _ _ _ _ E) as
          (rr & src & t & _ & _ & _ & _ & _ & _ & HL & _).
        rewrite HL. apply in_or_app. right. now left.
      * apply IH. intros H. apply ND. now constructor.
    + exists e. now apply for_each_raise_here.
Qed.

(** A revision id that is not in the ledger stays unresolved unless it
    is one of the rowids handed out to the replicas made before the loop
    reaches it. *)
Lemma send_loop_raises_on_missing pre r post : forall w,
  get_revision w r = None ->
  ~ (max_rowid (document_revisions w) < r
     <= max_rowid (document_revisions w) + Z.of_nat (List.length pre)) ->
  exists e, for_each (pre ++ r :: post) (send_revision tn ro cb now tid) w = Raise e.
Proof.
  induction pre as [|x pre IH]; intros w HN HR.
  - cbn [app]. destruct ((send_revision tn ro cb now tid) r w) as [[[] w1]|e] eqn:E.
    + apply send_revision_inv in E.
      destruct E as (rr & _ & _ & E & _). congruence.
    + exists e. now apply for_each_raise_here.
  - cbn [app]. destruct ((send_revision tn ro cb now tid) x w) as [[[] w1]|e] eqn:E.
    + rewrite (for_each_step _ _ _ _ E).
      pose proof (send_revision_inv _ _ _ _ _ _ _ _ E) as
        (rr & src & t & _ & _ & _ & _ & _ & _ & _ & _ & HV & _).
      cbn [List.length] in HR. rewrite Nat2Z.inj_succ in HR.
      apply IH.
      * unfold get_revision in *. rewrite HV.
        rewrite select_by_id_snoc_other; [assumption|].
        unfold next_rowid. lia.
      * rewrite HV, max_rowid_snoc. unfold next_rowid. lia.
    + exists e. now apply for_each_raise_here.
Qed.
End SendFailures.

Lemma create_transmittal_loop_raises tn desc so ro revs cb now s :
  (forall tid w,
      document_revisions w = document_revisions s ->
      exists e, for_each revs (send_revision tn ro cb now tid) w = Raise e) ->
  exists e, create_transmittal tn desc so ro revs cb now s = (s, Raise e).
Proof.
  intros H.
  destruct (H (next_rowid (transmittals s))
              (set_transmittals
                 (transmittals s ++
                    [(next_rowid (transmittals s),
                      {| transmittal_number := tn; description := desc;
                         sender_org_id := so; recipient_org_id := ro;
                         created_by := cb; tr_created_at := now |})]) s)
              eq_refl) as [e E].
  exists e. apply run_raises.
  unfold create_transmittal_stmts, bind, insert_transmittal. now rewrite E.
Qed.

(** C9.  A link that is already in the table makes the insertion raise
    [IntegrityError]; so a revision-id list that contains an id twice makes
    the whole call raise, and nothing of it is persisted. *)
Theorem create_transmittal_duplicate_revision tn desc so ro revs cb now s :
  (forall tid r w,
      In (tid, r) (transmittal_documents w) ->
      insert_transmittal_document (tid, r) w = Raise IntegrityError) /\
  (~ NoDup revs ->
   exists e, create_transmittal tn desc so ro revs cb now s = (s, Raise e)).
Proof.
  split.
  - intros tid r w. apply insert_transmittal_document_duplicate.
  - intros ND. apply create_transmittal_loop_raises. intros tid w _.
    now apply send_loop_raises_on_duplicate.
Qed.

(** C6, as the code has it.  A send raises, and persists nothing, when a
    revision id of the list is not in the ledger and is not one of the
    rowids the call itself gives to the replicas of the ids before it.  An
    empty list is not rejected: for sender, recipient and creator ids that
    SQLite can bind, the call returns the id of a transmittal record that
    it has added, with no link, event or replica. *)
Theorem create_transmittal_error_contract tn desc so ro cb now s :
  (forall pre r post,
      get_revision s r = None ->
      ~ (max_rowid (document_revisions s) < r
         <= max_rowid (document_revisions s) + Z.of_nat (List.length pre)) ->
      exists e,
        create_transmittal tn desc so ro (pre ++ r :: post) cb now s
        = (s, Raise e)) /\
  (int64 so = true -> int64 ro = true -> int64 cb = true ->
   create_transmittal tn desc so ro [] cb now s =
     (set_transmittals
        (transmittals s ++
           [(next_rowid (transmittals s),
             {| transmittal_number := tn; description := desc;
                sender_org_id := so; recipient_org_id := ro;
                created_by := cb; tr_created_at := now |})]) s,
      Ok (next_rowid (transmittals s)))).
Proof.
  split.
  - intros pre r post HN HR. apply create_transmittal_loop_raises.
    intros tid w HW. apply send_loop_raises_on_missing.
    + unfold get_revision in *. now rewrite HW.
    + now rewrite HW.
  - reflexivity.
Qed.

(** ** Uploads, in closed form *)

Lemma add_document_revision_eq doc_id lbl fp u now s :
  add_document_revision doc_id lbl fp u now s =
  ({| organizations := organizations s;
      projects := projects s;
      documents :=
        repoint (next_rowid (document_revisions s)) doc_id (documents s);
      document_revisions :=
        document_revisions s ++
          [(next_rowid (document_revisions s),
            initial_revision doc_id lbl fp u now)];
      events :=
        events s ++
          [(next_rowid (events s),
            upload_event "RevisionUploaded" doc_id
              (next_rowid (document_revisions s)) u now)];
      transmittals := transmittals s;
      transmittal_documents := transmittal_documents s |},
   Ok (next_rowid (document_revisions s))).
Proof. reflexivity. Qed.

Lemma create_document_inv num ttl ty st org proj lbl fp u now s s' doc_id :
  create_document num ttl ty st org proj lbl fp u now s = (s', Ok doc_id) ->
  existsb (same_key num org proj) (documents s) = false /\
  doc_id = next_rowid (documents s) /\
  s' =
  {| organizations := organizations s;
     projects := projects s;
     documents :=
       repoint (next_rowid (document_revisions s)) doc_id
         (documents s ++
            [(doc_id,
              {| doc_number := num; title := ttl; doc_type := ty;
                 status := st; org_id := org; project_id := proj;
                 current_revision_id := None; created_at := now |})]);
     document_revisions :=
       document_revisions s ++
         [(next_rowid (document_revisions s),
           initial_revision doc_id lbl fp u now)];
     events :=
       events s ++
         [(next_rowid (events s),
           upload_event "Uploaded" doc_id
             (next_rowid (document_revisions s)) u now)];
     transmittals := transmittals s;
     transmittal_documents := transmittal_documents s |}.
Proof.
  intros H. apply run_ok in H. revert H.
  unfold create_document_stmts, bind, insert_document. cbn.
  destruct (existsb (same_key num org proj) (documents s)); [discriminate|].
  cbn. intros [= <- <-]. auto.
Qed.

Lemma create_document_returns num ttl ty st org proj lbl fp u now s :
  existsb (same_key num org proj) (documents s) = false ->
  exists s',
    create_document num ttl ty st org proj lbl fp u now s
    = (s', Ok (next_rowid (documents s))).
Proof.
  intros H. eexists. apply run_ok.
  unfold create_document_stmts, bind, insert_document. cbn. rewrite H.
  reflexivity.
Qed.

(** A second document with the same (doc_number, org_id, project_id) is
    refused by the UNIQUE constraint. *)
Lemma create_document_conflict num ttl ty st org proj lbl fp u now s :
  existsb (same_key num org proj) (documents s) = true ->
  create_document num ttl ty st org proj lbl fp u now s
  = (s, Raise IntegrityError).
Proof.
  intros H. apply run_raises.
  unfold create_document_stmts, bind, insert_document. cbn. now rewrite H.
Qed.

(** ** The pointer invariant *)

Lemma latest_revision_id_snoc revs n rv doc_id :
  latest_revision_id (revs ++ [(n, rv)]) doc_id =
  if document_id rv =? doc_id then Some n
  else latest_revision_id revs doc_id.
Proof. unfold latest_revision_id. now rewrite fold_left_app. Qed.

Lemma pointer_ok_other revs rv i d :
  document_id rv <> i ->
  pointer_ok revs i d ->
  pointer_ok (revs ++ [(next_rowid revs, rv)]) i d.
Proof.
  intros N [H1 H2]. split.
  - rewrite latest_revision_id_snoc.
    destruct (Z.eqb_spec (document_id rv) i); [contradiction|assumption].
  - intros n Hn. destruct (H2 n Hn) as (rv' & E & D). exists rv'.
    split; [now apply select_by_id_app_some|assumption].
Qed.

Lemma pointer_ok_target revs rv d :
  pointer_ok (revs ++ [(next_rowid revs, rv)]) (document_id rv)
    (set_current (next_rowid revs) d).
Proof.
  split; cbn.
  - rewrite latest_revision_id_snoc. now rewrite Z.eqb_refl.
  - intros n [= <-]. exists rv. split; [apply select_by_id_snoc_new|reflexivity].
Qed.

Lemma pointer_ok_repoint revs rv t :
  (forall i d, In (i, d) t -> i <> document_id rv -> pointer_ok revs i d) ->
  forall i d,
    In (i, d) (repoint (next_rowid revs) (document_id rv) t) ->
    pointer_ok (revs ++ [(next_rowid revs, rv)]) i d.
Proof.
  intros H i d Hin. apply repoint_In_inv in Hin.
  destruct Hin as (d0 & Hin & ->).
  destruct (Z.eqb_spec i (document_id rv)) as [->|N].
  - apply pointer_ok_target.
  - apply pointer_ok_other; [congruence|]. now apply H.
Qed.

Lemma pointer_ok_new_document (w : db) nd :
  current_is_latest w ->
  forall i d,
    In (i, d) (documents w ++ [(next_rowid (documents w), nd)]) ->
    i <> next_rowid (documents w) ->
    pointer_ok (document_revisions w) i d.
Proof.
  intros H i d Hin N. apply in_app_or in Hin. destruct Hin as [Hin|[E|[]]].
  - now apply H.
  - inversion E. congruence.
Qed.

Lemma send_revision_pointer tn ro cb now tid r w w' :
  send_revision tn ro cb now tid r w = Ok (tt, w') ->
  current_is_latest w -> current_is_latest w'.
Proof.
  intros H I. apply send_revision_inv in H.
  destruct H as (rr & src & target & _ & _ & _ & _ & _ & _ & _ & _ & HV & HD).
  intros i d Hin. rewrite HV.
  change target with (document_id (replica target cb now rr)) in HD.
  destruct HD as [(_ & Ht & HD)|(_ & HD)]; rewrite HD in Hin;
    revert i d Hin; apply pointer_ok_repoint.
  - cbn in Ht |- *. rewrite Ht. apply pointer_ok_new_document. exact I.
  - intros i d Hin _. now apply I.
Qed.

Lemma send_loop_pointer tn ro cb now tid revs : forall w w',
  for_each revs (send_revision tn ro cb now tid) w = Ok (tt, w') ->
  current_is_latest w -> current_is_latest w'.
Proof.
  induction revs as [|r rest IH]; intros w w' H I.
  - cbn in H. now inversion H; subst.
  - apply for_each_cons in H. destruct H as (w1 & H1 & H2).
    eapply IH; [exact H2|]. eapply send_revision_pointer; eauto.
Qed.

(** ** Invariants of reachable stores *)

Lemma uploaded_events_bounded_append w w' n e :
  uploaded_events_bounded w ->
  max_rowid (documents w) <= max_rowid (documents w') ->
  events w' = events w ++ [(n, e)] ->
  (event_type e = "Uploaded"%string ->
   ev_document_id e <= max_rowid (documents w')) ->
  uploaded_events_bounded w'.
Proof.
  intros B M E N i e' Hin Ht. rewrite E in Hin. apply in_app_or in Hin.
  destruct Hin as [Hin|[[= <- <-]|[]]].
  - specialize (B _ _ Hin Ht). lia.
  - auto.
Qed.

Lemma send_loop_uploaded_bounded tn ro cb now tid revs : forall w w',
  for_each revs (send_revision tn ro cb now tid) w = Ok (tt, w') ->
  uploaded_events_bounded w -> uploaded_events_bounded w'.
Proof.
  induction revs as [|r rest IH]; intros w w' H B.
  - cbn in H. now inversion H; subst.
  - apply for_each_cons in H. destruct H as (w1 & H1 & H2).
    eapply IH; [exact H2|].
    pose proof (send_revision_extends _ _ _ _ _ _ _ _ H1) as X.
    apply send_revision_inv in H1.
    destruct H1 as (rr & src & t & _ & _ & _ & _ & _ & _ & _ & HE & _).
    eapply uploaded_events_bounded_append;
      [exact B|apply (ext_docs_max _ _ X)|exact HE|].
    cbn. discriminate.
Qed.

Lemma reachable_uploaded_events_bounded s :
  reachable s -> uploaded_events_bounded s.
Proof.
  induction 1 as [|s name descr now R IH|s name descr org now R IH
                  |s num ttl ty st org proj lbl fp u now R IH
                  |s doc_id lbl fp u now R IH
                  |s tn descr so ro revs cb now R IH].
  - intros i e [].
  - unfold create_organization, run, execute, insert_organization. cbn.
    destruct (existsb _ (organizations s)); exact IH.
  - exact IH.
  - destruct (create_document num ttl ty st org proj lbl fp u now s)
      as [s' [doc_id|e]] eqn:E; cbn.
    + apply create_document_inv in E. destruct E as (_ & Hd & ->).
      eapply uploaded_events_bounded_append; [exact IH| |reflexivity|]; cbn.
      * rewrite repoint_max, max_rowid_app. lia.
      * intros _. rewrite repoint_max, Hd, max_rowid_snoc. lia.
    + apply run_raise in E. destruct E as [-> _]. exact IH.
  - rewrite add_document_revision_eq. cbn.
    eapply uploaded_events_bounded_append; [exact IH| |reflexivity|]; cbn.
    + rewrite repoint_max. lia.
    + discriminate.
  - destruct (create_transmittal tn descr so ro revs cb now s)
      as [s' [tid|e]] eqn:E; cbn.
    + apply run_ok, create_transmittal_stmts_inv in E. destruct E as [_ E].
      eapply send_loop_uploaded_bounded; [exact E|exact IH].
    + apply run_raise in E. destruct E as [-> _]. exact IH.
Qed.

Lemma create_document_pointer num ttl ty st org proj lbl fp u now s :
  current_is_latest s ->
  current_is_latest
    (fst (create_document num ttl ty st org proj lbl fp u now s)).
Proof.
  intros I.
  destruct (create_document num ttl ty st org proj lbl fp u now s)
    as [s' [doc_id|e]] eqn:E; cbn.
  - apply create_document_inv in E. destruct E as (_ & Hd & ->).
    intros i d Hin. cbn in Hin |- *.
    change doc_id with
      (document_id (initial_revision doc_id lbl fp u now)) in Hin.
    revert i d Hin. apply pointer_ok_repoint. cbn. rewrite Hd.
    now apply pointer_ok_new_document.
  - apply run_raise in E. destruct E as [-> _]. exact I.
Qed.

Lemma add_document_revision_pointer doc_id lbl fp u now s :
  current_is_latest s ->
  current_is_latest (fst (add_document_revision doc_id lbl fp u now s)).
Proof.
  intros I. rewrite add_document_revision_eq. cbn.
  intros i d Hin. cbn in Hin |- *.
  change doc_id with
    (document_id (initial_revision doc_id lbl fp u now)) in Hin.
  revert i d Hin. apply pointer_ok_repoint. intros i d Hin _. now apply I.
Qed.

Lemma create_transmittal_pointer tn desc so ro revs cb now s :
  current_is_latest s ->
  current_is_latest (fst (create_transmittal tn desc so ro revs cb now s)).
Proof.
  intros I.
  destruct (create_transmittal tn desc so ro revs cb now s)
    as [s' [tid|e]] eqn:E; cbn.
  - apply run_ok, create_transmittal_stmts_inv in E. destruct E as [_ E].
    eapply send_loop_pointer; [exact E|]. exact I.
  - apply run_raise in E. destruct E as [-> _]. exact I.
Qed.

(** The invariant holds in every store the application can reach. *)
Lemma reachable_current_is_latest s : reachable s -> current_is_latest s.
Proof.
  induction 1 as [|s name descr now R IH|s name descr org now R IH
                  |s num ttl ty st org proj lbl fp u now R IH
                  |s doc_id lbl fp u now R IH
                  |s tn descr so ro revs cb now R IH].
  - intros i d [].
  - unfold create_organization, run, execute, insert_organization. cbn.
    destruct (existsb _ (organizations s)); exact IH.
  - exact IH.
  - now apply create_document_pointer.
  - now apply add_document_revision_pointer.
  - now apply create_transmittal_pointer.
Qed.

(** C4.  Every mutation keeps the pointer invariant: in the store left by
    [create_document], [add_document_revision] and [create_transmittal],
    each document's [current_revision_id] is the id of the ledger row most
    recently appended for that document, and is null only when the
    document has no ledger row. *)
Theorem current_revision_invariant s :
  current_is_latest s ->
  (forall num ttl ty st org proj lbl fp u now,
      current_is_latest
        (fst (create_document num ttl ty st org proj lbl fp u now s))) /\
  (forall doc_id lbl fp u now,
      current_is_latest (fst (add_document_revision doc_id lbl fp u now s))) /\
  (forall tn desc so ro revs cb now,
      current_is_latest
        (fst (create_transmittal tn desc so ro revs cb now s))).
Proof.
  intros I. split; [|split]; intros.
  - now apply create_document_pointer.
  - now apply add_document_revision_pointer.
  - now apply create_transmittal_pointer.
Qed.

Lemma filter_none {A} (f : A -> bool) l :
  (forall x, In x l -> f x = false) -> filter f l = [].
Proof.
  induction l as [|a l IH]; cbn; intros H; [reflexivity|].
  rewrite (H a (or_introl eq_refl)). apply IH. intros x Hx. apply H. now right.
Qed.

Lemma next_rowid_nonzero {R} (t : table R) : (next_rowid t =? 0) = false.
Proof.
  apply Z.eqb_neq. unfold next_rowid. pose proof (max_rowid_nonneg t). lia.
Qed.

(** What the lookups return right after [create_document]. *)
Lemma create_document_lookup num ttl ty st org proj lbl fp u now s s' doc_id :
  create_document num ttl ty st org proj lbl fp u now s = (s', Ok doc_id) ->
  exists doc,
    get_document s' doc_id = Some doc /\
    current_revision_id doc = Some (next_rowid (document_revisions s)) /\
    get_revision s' (next_rowid (document_revisions s)) =
      Some (initial_revision doc_id lbl fp u now) /\
    current_revision_label s' doc_id = Some lbl.
Proof.
  intros H. apply create_document_inv in H. destruct H as (_ & Hd & ->).
  assert (HR : forall l,
             select_by_id (document_revisions s ++
                             [(next_rowid (document_revisions s), l)])
               (next_rowid (document_revisions s)) = Some l)
    by (intros; apply select_by_id_snoc_new).
  eexists. split; [|split; [|split]].
  - unfold get_document. cbn [documents]. rewrite repoint_select, Hd.
    rewrite select_by_id_snoc_new. cbn. rewrite Z.eqb_refl. reflexivity.
  - reflexivity.
  - unfold get_revision. cbn [document_revisions]. apply HR.
  - unfold current_revision_label, get_document. cbn [documents].
    rewrite repoint_select, Hd, select_by_id_snoc_new. cbn.
    rewrite Z.eqb_refl. unfold rev_label. cbn.
    rewrite next_rowid_nonzero. unfold get_revision. cbn [document_revisions].
    rewrite HR. reflexivity.
Qed.

(** C3.  In any store the application can reach, when [create_document]
    returns the new document's current revision label is the label that was
    passed, and the event log holds exactly one "Uploaded" event for the
    document; that event names the initial revision, which is the
    document's current one. *)
Theorem create_document_initial_state
    num ttl ty st org proj lbl fp u now s s' doc_id :
  reachable s ->
  create_document num ttl ty st org proj lbl fp u now s = (s', Ok doc_id) ->
  current_revision_label s' doc_id = Some lbl /\
  exists eid rev_id doc,
    events_of_type s' doc_id "Uploaded" =
      [(eid, upload_event "Uploaded" doc_id rev_id u now)] /\
    get_document s' doc_id = Some doc /\
    current_revision_id doc = Some rev_id /\
    get_revision s' rev_id = Some (initial_revision doc_id lbl fp u now).
Proof.
  intros R H. apply reachable_uploaded_events_bounded in R.
  destruct (create_document_lookup _ _ _ _ _ _ _ _ _ _ _ _ _ H)
    as (doc & HG & HC & HV & HL).
  split; [exact HL|].
  apply create_document_inv in H. destruct H as (_ & Hd & ->).
  eexists _, _, doc. split; [|split; [exact HG|split; [exact HC|exact HV]]].
  unfold events_of_type. cbn [events]. rewrite filter_app, filter_none.
  - cbn. rewrite Z.eqb_refl. reflexivity.
  - intros [i e] Hin. cbn.
    destruct (String.eqb_spec (event_type e) "Uploaded") as [Ht|Ht];
      [|apply andb_false_r].
    specialize (R _ _ Hin Ht). rewrite andb_true_r. apply Z.eqb_neq.
    rewrite Hd. unfold next_rowid. lia.
Qed.

(** ** Order and content of the revision list *)

Lemma ascii_compare_N a b :
  Ascii.compare a b = N.compare (Ascii.N_of_ascii a) (Ascii.N_of_ascii b).
Proof. reflexivity. Qed.

Lemma string_compare_le_trans : forall s1 s2 s3,
  String.compare s1 s2 <> Gt -> String.compare s2 s3 <> Gt ->
  String.compare s1 s3 <> Gt.
Proof.
  induction s1 as [|c1 s1 IH]; intros [|c2 s2] [|c3 s3]; cbn;
    try congruence.
  rewrite !ascii_compare_N.
  destruct (N.compare_spec (Ascii.N_of_ascii c1) (Ascii.N_of_ascii c2));
    destruct (N.compare_spec (Ascii.N_of_ascii c2) (Ascii.N_of_ascii c3));
    destruct (N.compare_spec (Ascii.N_of_ascii c1) (Ascii.N_of_ascii c3));
    try congruence; try lia; eauto.
Qed.

Lemma string_leb_trans a b c :
  String.leb a b = true -> String.leb b c = true -> String.leb a c = true.
Proof.
  unfold String.leb. intros H1 H2.
  pose proof (string_compare_le_trans a b c) as T.
  destruct (String.compare a b), (String.compare b c),
    (String.compare a c); try discriminate; try reflexivity;
    exfalso; apply T; congruence.
Qed.

Lemma insert_desc_perm r l : Permutation (insert_desc r l) (r :: l).
Proof.
  induction l as [|x l IH]; cbn; [reflexivity|].
  destruct (String.leb _ _); [reflexivity|].
  rewrite IH. apply perm_swap.
Qed.

Lemma order_by_uploaded_at_desc_perm l :
  Permutation (order_by_uploaded_at_desc l) l.
Proof.
  induction l as [|x l IH]; cbn; [constructor|].
  rewrite insert_desc_perm. now constructor.
Qed.

Lemma insert_desc_sorted r l :
  StronglySorted newest_first l -> StronglySorted newest_first (insert_desc r l).
Proof.
  induction 1 as [|x l S IH F]; cbn.
  - repeat constructor.
  - destruct (String.leb (uploaded_at (snd x)) (uploaded_at (snd r))) eqn:E.
    + constructor; [now constructor|]. constructor; [exact E|].
      rewrite Forall_forall in F |- *. intros y Hy. specialize (F y Hy).
      unfold newest_first in *. eapply string_leb_trans; eauto.
    + constructor; [assumption|].
      rewrite Forall_forall in F |- *. intros y Hy.
      apply (Permutation_in _ (insert_desc_perm r l)) in Hy.
      destruct Hy as [<-|Hy]; [|now apply F].
      unfold newest_first.
      destruct (String.leb_total (uploaded_at (snd x)) (uploaded_at (snd r)));
        congruence.
Qed.

Lemma order_by_uploaded_at_desc_sorted l :
  StronglySorted newest_first (order_by_uploaded_at_desc l).
Proof.
  induction l as [|x l IH]; cbn; [constructor|now apply insert_desc_sorted].
Qed.

Lemma add_revisions_rows doc_id calls : forall s,
  map snd (rows_of doc_id (document_revisions (add_revisions doc_id calls s)))
  = map snd (rows_of doc_id (document_revisions s))
    ++ map (ledger_row doc_id) calls.
Proof.
  induction calls as [|c calls IH]; intros s.
  - cbn. now rewrite app_nil_r.
  - change (add_revisions doc_id (c :: calls) s) with
      (add_revisions doc_id calls
         (fst (add_document_revision doc_id (up_label c) (up_file c)
                 (up_user c) (up_now c) s))).
    rewrite IH, add_document_revision_eq.
    cbn [fst document_revisions]. unfold rows_of at 1.
    rewrite filter_app, map_app. cbn. rewrite Z.eqb_refl. cbn.
    now rewrite <- app_assoc.
Qed.

Lemma add_document_revision_label doc_id lbl fp u now s doc :
  get_document s doc_id = Some doc ->
  (exists doc',
      get_document (fst (add_document_revision doc_id lbl fp u now s)) doc_id
      = Some doc') /\
  current_revision_label (fst (add_document_revision doc_id lbl fp u now s))
    doc_id = Some lbl.
Proof.
  intros H. rewrite add_document_revision_eq. cbn [fst].
  unfold current_revision_label, get_document in *. cbn [documents].
  rewrite repoint_select, H. cbn. rewrite Z.eqb_refl. split; [eauto|].
  unfold rev_label. cbn. rewrite next_rowid_nonzero.
  unfold get_revision. cbn [document_revisions].
  now rewrite select_by_id_snoc_new.
Qed.

Lemma last_cons {A} (a : A) l d : last (a :: l) d = last l a.
Proof.
  revert a d. induction l as [|b l IH]; intros a d; [reflexivity|].
  change (last (a :: b :: l) d) with (last (b :: l) d). now rewrite !IH.
Qed.

Lemma add_revisions_label doc_id calls : forall s doc l0,
  get_document s doc_id = Some doc ->
  current_revision_label s doc_id = Some l0 ->
  current_revision_label (add_revisions doc_id calls s) doc_id
  = Some (last (map up_label calls) l0).
Proof.
  induction calls as [|c calls IH]; intros s doc l0 HG HL; [exact HL|].
  change (add_revisions doc_id (c :: calls) s) with
    (add_revisions doc_id calls
       (fst (add_document_revision doc_id (up_label c) (up_file c)
               (up_user c) (up_now c) s))).
  cbn [map]. rewrite last_cons.
  destruct (add_document_revision_label doc_id (up_label c) (up_file c)
              (up_user c) (up_now c) s doc HG) as [[doc' HG'] HL'].
  eapply IH; eauto.
Qed.

(** The list of a new document after N uploads, when no ledger row
    carried its id before it was created. *)
Lemma uploads_listing
    num ttl ty st org proj lbl fp u now s s1 doc_id calls :
  create_document num ttl ty st org proj lbl fp u now s = (s1, Ok doc_id) ->
  rows_of doc_id (document_revisions s) = [] ->
  let listed :=
    get_revisions_for_document (add_revisions doc_id calls s1) doc_id in
  List.length listed = S (List.length calls) /\
  Permutation (map snd listed)
    (initial_revision doc_id lbl fp u now :: map (ledger_row doc_id) calls) /\
  StronglySorted newest_first listed /\
  current_revision_label (add_revisions doc_id calls s1) doc_id
  = Some (last (map up_label calls) lbl).
Proof.
  intros H HN listed.
  assert (P : Permutation (map snd listed)
                (initial_revision doc_id lbl fp u now
                   :: map (ledger_row doc_id) calls)).
  { unfold listed, get_revisions_for_document.
    rewrite order_by_uploaded_at_desc_perm.
    fold (rows_of doc_id
            (document_revisions (add_revisions doc_id calls s1))).
    rewrite add_revisions_rows.
    pose proof (create_document_inv _ _ _ _ _ _ _ _ _ _ _ _ _ H)
      as (_ & _ & ->).
    cbn [document_revisions]. unfold rows_of at 1.
    rewrite filter_app. fold (rows_of doc_id (document_revisions s)).
    rewrite HN. cbn. rewrite Z.eqb_refl. reflexivity. }
  split; [|split; [exact P|split]].
  - apply Permutation_length in P. rewrite !length_map in P.
    cbn in P. now rewrite length_map in P.
  - apply order_by_uploaded_at_desc_sorted.
  - destruct (create_document_lookup _ _ _ _ _ _ _ _ _ _ _ _ _ H)
      as (doc & HG & _ & _ & HL).
    eapply add_revisions_label; eauto.
Qed.

Lemma fresh_id_has_no_rows s :
  ledger_resolves s ->
  rows_of (next_rowid (documents s)) (document_revisions s) = [].
Proof.
  intros L. unfold rows_of. apply filter_none. intros [i rv] Hin. cbn.
  destruct (L _ _ Hin) as [d Hd]. apply Z.eqb_neq. intros E.
  unfold get_document in Hd. rewrite E in Hd.
  rewrite select_by_id_above in Hd; [discriminate|].
  unfold next_rowid. lia.
Qed.

(** X28.  The revision list where the ledger is attached.  In a store
    whose ledger rows all belong to documents of the register, take a document just created
    by [create_document] and apply N [add_document_revision] calls to it,
    with uploader ids that SQLite can bind.
    [get_revisions_for_document] then lists N+1 rows, namely the initial
    revision and one row per call, ordered by [uploaded_at] from newest to
    oldest, and the current revision label is the label of the last call,
    whatever the labels are. *)
Theorem revisions_after_uploads
    num ttl ty st org proj lbl fp u now s s1 doc_id calls :
  ledger_resolves s ->
  create_document num ttl ty st org proj lbl fp u now s = (s1, Ok doc_id) ->
  Forall (fun c => int64 (up_user c) = true) calls ->
  let listed :=
    get_revisions_for_document (add_revisions doc_id calls s1) doc_id in
  List.length listed = S (List.length calls) /\
  Permutation (map snd listed)
    (initial_revision doc_id lbl fp u now :: map (ledger_row doc_id) calls) /\
  StronglySorted newest_first listed /\
  current_revision_label (add_revisions doc_id calls s1) doc_id
  = Some (last (map up_label calls) lbl).
Proof.
  intros L H _.
  apply (uploads_listing num ttl ty st org proj lbl fp u now s s1 doc_id calls
           H).
  pose proof (create_document_inv _ _ _ _ _ _ _ _ _ _ _ _ _ H) as (_ & -> & _).
  now apply fresh_id_has_no_rows.
Qed.

(** ** Sends that return *)

Lemma find_none_existsb {A} (f : A -> bool) l :
  find f l = None -> existsb f l = false.
Proof.
  induction l as [|a l IH]; cbn; [reflexivity|].
  destruct (f a); [discriminate|exact IH].
Qed.

Lemma send_revision_returns tn ro cb now tid r w rr src :
  ~ In (tid, r) (transmittal_documents w) ->
  get_revision w r = Some rr ->
  get_document w (document_id rr) = Some src ->
  exists w', send_revision tn ro cb now tid r w = Ok (tt, w').
Proof.
  intros HL HR HG.
  assert (EL : existsb (link_eqb (tid, r)) (transmittal_documents w) = false).
  { destruct (existsb _ _) eqn:E; [|reflexivity].
    apply link_exists_iff in E. contradiction. }
  unfold send_revision, bind, fetchone, insert_transmittal_document,
    get_revision, get_document, select_document_id, insert_event,
    insert_document, insert_revision, update_current_revision in *.
  rewrite EL. cbn. rewrite HR. cbn. rewrite HG. cbn.
  destruct (find (same_key (doc_number src) ro (project_id src)) (documents w))
    as [[i d]|] eqn:ES; cbn.
  - repeat (rewrite HR; cbn). eauto.
  - rewrite (find_none_existsb _ _ ES). cbn. repeat (rewrite HR; cbn). eauto.
Qed.

Lemma send_loop_links_bounded tn ro cb now tid revs : forall w w',
  for_each revs (send_revision tn ro cb now tid) w = Ok (tt, w') ->
  tid <= max_rowid (transmittals w) ->
  links_bounded w -> links_bounded w'.
Proof.
  induction revs as [|r rest IH]; intros w w' H Ht B.
  - cbn in H. now inversion H; subst.
  - apply for_each_cons in H. destruct H as (w1 & H1 & H2).
    apply send_revision_inv in H1.
    destruct H1 as (rr & src & t & _ & _ & _ & _ & _ & HT & HL & _).
    eapply IH; [exact H2|now rewrite HT|].
    intros t' r' Hin. rewrite HT. rewrite HL in Hin.
    apply in_app_or in Hin. destruct Hin as [Hin|[[= <- <-]|[]]];
      [exact (B _ _ Hin)|exact Ht].
Qed.

Lemma reachable_links_bounded s : reachable s -> links_bounded s.
Proof.
  induction 1 as [|s name descr now R IH|s name descr org now R IH
                  |s num ttl ty st org proj lbl fp u now R IH
                  |s doc_id lbl fp u now R IH
                  |s tn descr so ro revs cb now R IH].
  - intros t r [].
  - unfold create_organization, run, execute, insert_organization. cbn.
    destruct (existsb _ (organizations s)); exact IH.
  - exact IH.
  - destruct (create_document num ttl ty st org proj lbl fp u now s)
      as [s' [doc_id|e]] eqn:E; cbn.
    + apply create_document_inv in E. destruct E as (_ & _ & ->). exact IH.
    + apply run_raise in E. destruct E as [-> _]. exact IH.
  - rewrite add_document_revision_eq. exact IH.
  - destruct (create_transmittal tn descr so ro revs cb now s)
      as [s' [tid|e]] eqn:E; cbn.
    + apply run_ok, create_transmittal_stmts_inv in E. destruct E as [-> E].
      eapply send_loop_links_bounded; [exact E| |]; cbn.
      * rewrite max_rowid_snoc. lia.
      * intros t r Hin. cbn in Hin |- *. rewrite max_rowid_snoc.
        specialize (IH _ _ Hin). unfold next_rowid. lia.
    + apply run_raise in E. destruct E as [-> _]. exact IH.
Qed.

Lemma create_transmittal_returns tn desc so ro revs cb now s w' :
  for_each revs
    (send_revision tn ro cb now (next_rowid (transmittals s)))
    (set_transmittals
       (transmittals s ++
          [(next_rowid (transmittals s),
            {| transmittal_number := tn; description := desc;
               sender_org_id := so; recipient_org_id := ro;
               created_by := cb; tr_created_at := now |})]) s)
  = Ok (tt, w') ->
  create_transmittal tn desc so ro revs cb now s
  = (w', Ok (next_rowid (transmittals s))).
Proof.
  intros H. apply run_ok.
  unfold create_transmittal_stmts, bind, insert_transmittal. now rewrite H.
Qed.

Lemma fresh_link s r :
  links_bounded s ->
  ~ In (next_rowid (transmittals s), r) (transmittal_documents s).
Proof.
  intros B Hin. specialize (B _ _ Hin). unfold next_rowid in B. lia.
Qed.

Lemma send_single_returns tn desc so ro cb now s r rr d :
  reachable s ->
  get_revision s r = Some rr ->
  get_document s (document_id rr) = Some d ->
  exists s' tid, create_transmittal tn desc so ro [r] cb now s = (s', Ok tid).
Proof.
  intros R HR HG. apply reachable_links_bounded in R.
  destruct (send_revision_returns tn ro cb now (next_rowid (transmittals s)) r
              (set_transmittals
                 (transmittals s ++
                    [(next_rowid (transmittals s),
                      {| transmittal_number := tn; description := desc;
                         sender_org_id := so; recipient_org_id := ro;
                         created_by := cb; tr_created_at := now |})]) s)
              rr d (fresh_link s r R) HR HG) as [w' H].
  exists w', (next_rowid (transmittals s)). apply create_transmittal_returns.
  cbn [for_each]. unfold bind. now rewrite H.
Qed.

Lemma send_pair_returns tn desc so ro cb now s r1 r2 rr1 rr2 d1 d2 :
  reachable s ->
  r1 <> r2 ->
  get_revision s r1 = Some rr1 ->
  get_document s (document_id rr1) = Some d1 ->
  get_revision s r2 = Some rr2 ->
  get_document s (document_id rr2) = Some d2 ->
  exists s' tid,
    create_transmittal tn desc so ro [r1; r2] cb now s = (s', Ok tid).
Proof.
  intros R N HR1 HG1 HR2 HG2. apply reachable_links_bounded in R.
  set (tid := next_rowid (transmittals s)).
  set (w0 := set_transmittals
               (transmittals s ++
                  [(tid, {| transmittal_number := tn; description := desc;
                            sender_org_id := so; recipient_org_id := ro;
                            created_by := cb; tr_created_at := now |})]) s).
  destruct (send_revision_returns tn ro cb now tid r1 w0 rr1 d1
              (fresh_link s r1 R) HR1 HG1) as [w1 H1].
  pose proof (send_revision_extends _ _ _ _ _ _ _ _ H1) as X.
  destruct (ext_docs_get _ _ X _ _ HG2) as (d2' & HG2' & _).
  assert (HL : ~ In (tid, r2) (transmittal_documents w1)).
  { pose proof (send_revision_inv _ _ _ _ _ _ _ _ H1) as
      (a & b & c & _ & _ & _ & _ & _ & _ & HL & _).
    rewrite HL. intros Hin. apply in_app_or in Hin.
    destruct Hin as [Hin|[[= E]|[]]]; [|congruence].
    now apply (fresh_link s r2 R). }
  destruct (send_revision_returns tn ro cb now tid r2 w1 rr2 d2' HL
              (extends_get_revision _ _ _ _ X HR2) HG2') as [w2 H2].
  exists w2, tid. apply create_transmittal_returns. fold tid w0.
  cbn [for_each]. unfold bind. rewrite H1, H2. reflexivity.
Qed.

(** ** Replication into the recipient's register *)

Lemma select_by_id_none_iff {R} (t : table R) x :
  select_by_id t x = None <-> forall i r, In (i, r) t -> i <> x.
Proof.
  unfold select_by_id. split.
  - intros H i r Hin ->. destruct (find _ t) eqn:E; [discriminate|].
    apply (find_none _ _ E) in Hin. cbn in Hin. now rewrite Z.eqb_refl in Hin.
  - intros H. destruct (find _ t) as [[j r]|] eqn:E; [|reflexivity].
    apply find_some in E. destruct E as [E1 E2]. cbn in E2.
    apply Z.eqb_eq in E2. now destruct (H _ _ E1).
Qed.

Lemma repoint_absent n x t : select_by_id t x = None -> repoint n x t = t.
Proof.
  rewrite select_by_id_none_iff. intros H. unfold repoint.
  rewrite <- (map_id t) at 2. apply map_ext_in. intros [i d] Hin. cbn.
  destruct (Z.eqb_spec i x) as [->|N]; [|reflexivity].
  now destruct (H _ _ Hin).
Qed.

Lemma repoint_app n x t u :
  repoint n x (t ++ u) = repoint n x t ++ repoint n x u.
Proof. unfold repoint. apply map_app. Qed.

Lemma repoint_new_row n (t : table document) d :
  repoint n (next_rowid t) (t ++ [(next_rowid t, d)])
  = t ++ [(next_rowid t, set_current n d)].
Proof.
  rewrite repoint_app, repoint_absent.
  - unfold repoint. cbn. now rewrite Z.eqb_refl.
  - apply select_by_id_above. unfold next_rowid. lia.
Qed.

Lemma next_rowid_snoc {R} (t : table R) r :
  next_rowid (t ++ [(next_rowid t, r)]) = next_rowid t + 1.
Proof. unfold next_rowid at 1. now rewrite max_rowid_snoc. Qed.

Lemma find_snoc {A} (f : A -> bool) l x :
  find f l = None -> f x = true -> find f (l ++ [x]) = Some x.
Proof.
  intros H Hx. induction l as [|a l IH]; cbn in *.
  - now rewrite Hx.
  - destruct (f a); [discriminate|auto].
Qed.

Lemma select_document_id_snoc num org proj w t i d :
  select_document_id num org proj w = None ->
  documents t = documents w ++ [(i, d)] ->
  doc_number d = num -> org_id d = org -> project_id d = proj ->
  select_document_id num org proj t = Some i.
Proof.
  unfold select_document_id. intros H E E1 E2 E3. rewrite E.
  destruct (find _ (documents w)) eqn:F; [discriminate|].
  rewrite (find_snoc _ _ (i, d) F); [reflexivity|].
  unfold same_key. cbn. rewrite E1, E2, E3, String.eqb_refl, !Z.eqb_refl.
  reflexivity.
Qed.

Lemma send_single_inv tn desc so ro cb now s s' tid r :
  create_transmittal tn desc so ro [r] cb now s = (s', Ok tid) ->
  exists w0,
    document_revisions w0 = document_revisions s /\
    documents w0 = documents s /\
    send_revision tn ro cb now tid r w0 = Ok (tt, s').
Proof.
  intros H. apply run_ok, create_transmittal_stmts_inv in H.
  destruct H as [_ H]. apply for_each_cons in H.
  destruct H as (w1 & H1 & H2). cbn in H2. injection H2 as <-.
  eexists. split; [|split; [|exact H1]]; reflexivity.
Qed.

(** C2, as the code has it.  Take a single revision [r] of document [d].
    In a store the application can reach the send returns, for sender,
    recipient and creator ids that SQLite can bind.  Whenever it returns,
    the recipient's register holds a document with the doc_number and
    project_id of [d] whose current revision carries the label and file
    reference of [r] and is attributed to the creator of the transmittal.
    When the recipient had no document with that number in that project
    before the send, title, doc_type and status are those of [d].  When it
    had one, that very row receives the revision and keeps the title,
    doc_type and status it had. *)
Theorem send_single_revision_replica tn desc so ro cb now s r rr d :
  get_revision s r = Some rr ->
  get_document s (document_id rr) = Some d ->
  (reachable s ->
   int64 so = true -> int64 ro = true -> int64 cb = true ->
   exists s' tid,
     create_transmittal tn desc so ro [r] cb now s = (s', Ok tid)) /\
  forall s' tid,
    create_transmittal tn desc so ro [r] cb now s = (s', Ok tid) ->
    exists i doc cur,
      In (i, doc) (documents s') /\
      org_id doc = ro /\
      doc_number doc = doc_number d /\
      project_id doc = project_id d /\
      current_revision_id doc = Some cur /\
      get_revision s' cur = Some (replica i cb now rr) /\
      rev_label s' doc = Some (revision rr) /\
      (select_document_id (doc_number d) ro (project_id d) s = None ->
       title doc = title d /\ doc_type doc = doc_type d /\
       status doc = status d) /\
      (forall existing,
          select_document_id (doc_number d) ro (project_id d) s
          = Some existing ->
          i = existing /\
          exists old,
            In (existing, old) (documents s) /\
            org_id old = ro /\ doc_number old = doc_number d /\
            project_id old = project_id d /\
            title doc = title old /\ doc_type doc = doc_type old /\
            status doc = status old).
Proof.
  intros HR HG. split; [intros R _ _ _; eapply send_single_returns; eauto|].
  intros s' tid H. apply send_single_inv in H.
  destruct H as (w0 & EV & ED & H). apply send_revision_inv in H.
  destruct H as (rr0 & src & target & HR0 & HG0 & _ & _ & _ & _ & _ & _
                 & HV & HD).
  unfold get_revision, get_document, select_document_id in *.
  rewrite EV in *. rewrite ED in *.
  assert (rr0 = rr) by congruence. subst rr0.
  assert (src = d) by congruence. subst src.
  set (nr := next_rowid (document_revisions s)) in *.
  assert (HC : select_by_id (document_revisions s') nr
               = Some (replica target cb now rr)).
  { rewrite HV. apply select_by_id_snoc_new. }
  assert (HT : exists doc0,
             In (target, doc0) (documents s') /\
             current_revision_id doc0 = Some nr /\
             org_id doc0 = ro /\ doc_number doc0 = doc_number d /\
             project_id doc0 = project_id d /\
             (option_map fst
                (find (same_key (doc_number d) ro (project_id d))
                   (documents s)) = None ->
              title doc0 = title d /\ doc_type doc0 = doc_type d /\
              status doc0 = status d) /\
             (forall existing,
                 option_map fst
                   (find (same_key (doc_number d) ro (project_id d))
                      (documents s)) = Some existing ->
                 target = existing /\
                 exists old,
                   In (existing, old) (documents s) /\
                   org_id old = ro /\ doc_number old = doc_number d /\
                   project_id old = project_id d /\
                   title doc0 = title old /\ doc_type doc0 = doc_type old /\
                   status doc0 = status old)).
  { destruct HD as [(HS & Ht & HD)|(HS & HD)]; rewrite HD.
    - eexists. split.
      + apply repoint_In, in_or_app. right. left. reflexivity.
      + rewrite Z.eqb_refl. cbn.
        do 4 (split; [solve [auto]|]). split; [auto|].
        intros existing X. congruence.
    - pose proof (select_document_id_some _ _ _ (set_documents (documents s) s)
                    _ HS) as (d0 & Hin & E1 & E2 & E3).
      eexists. split.
      + apply repoint_In. exact Hin.
      + rewrite Z.eqb_refl. cbn.
        do 4 (split; [solve [auto]|]). split; [intros X; congruence|].
        intros existing X. assert (target = existing) by congruence.
        subst existing. split; [reflexivity|]. exists d0. auto 10. }
  destruct HT as (doc0 & T1 & T2 & T3 & T4 & T5 & T6 & T7).
  exists target, doc0, nr.
  do 6 (split; [assumption|]). split; [|split; [exact T6|exact T7]].
  unfold rev_label. rewrite T2. unfold nr at 1. rewrite next_rowid_nonzero.
  unfold get_revision. now rewrite HC.
Qed.
Lemma send_pair_inv tn desc so ro cb now s s' tid r1 r2 :
  create_transmittal tn desc so ro [r1; r2] cb now s = (s', Ok tid) ->
  exists w0 w1,
    document_revisions w0 = document_revisions s /\
    documents w0 = documents s /\
    send_revision tn ro cb now tid r1 w0 = Ok (tt, w1) /\
    send_revision tn ro cb now tid r2 w1 = Ok (tt, s').
Proof.
  intros H. apply run_ok, create_transmittal_stmts_inv in H.
  destruct H as [_ H]. apply for_each_cons in H.
  destruct H as (w1 & H1 & H2). apply for_each_cons in H2.
  destruct H2 as (w2 & H2 & H3). cbn in H3. injection H3 as <-.
  eexists _, w1. split; [|split; [|split; [exact H1|exact H2]]]; reflexivity.
Qed.

(** C5.  Reconciliation is by document identity.  Take two revisions
    whose documents have the same doc_number and project_id, and a
    recipient with no document of that number in that project.  In a store
    the application can reach, the send of the two (distinct) revision ids
    returns, for sender, recipient and creator ids that SQLite can bind.
    Whenever it returns, it has added exactly one document to the
    register, left every other row of it as it was, and attached both
    replicas to the new document: the second one is appended to the
    document created for the first. *)
Theorem send_two_revisions_one_document
    tn desc so ro cb now s r1 r2 rr1 rr2 d1 d2 :
  get_revision s r1 = Some rr1 ->
  get_document s (document_id rr1) = Some d1 ->
  get_revision s r2 = Some rr2 ->
  get_document s (document_id rr2) = Some d2 ->
  doc_number d1 = doc_number d2 ->
  project_id d1 = project_id d2 ->
  select_document_id (doc_number d1) ro (project_id d1) s = None ->
  (reachable s -> r1 <> r2 ->
   int64 so = true -> int64 ro = true -> int64 cb = true ->
   exists s' tid,
     create_transmittal tn desc so ro [r1; r2] cb now s = (s', Ok tid)) /\
  forall s' tid,
    create_transmittal tn desc so ro [r1; r2] cb now s = (s', Ok tid) ->
    let new_id := next_rowid (documents s) in
    let n1 := next_rowid (document_revisions s) in
    documents s' =
      documents s ++
        [(new_id, set_current (n1 + 1) (recipient_copy ro now d1))] /\
    document_revisions s' =
      document_revisions s ++
        [(n1, replica new_id cb now rr1);
         (n1 + 1, replica new_id cb now rr2)].
Proof.
  intros HR1 HG1 HR2 HG2 EN EP HS.
  split; [intros R N _ _ _; eapply send_pair_returns; eauto|].
  intros s' tid H new_id n1. subst new_id n1.
  apply send_pair_inv in H. destruct H as (w0 & w1 & EV & ED & H1 & H2).
  apply send_revision_inv in H1.
  destruct H1 as (a1 & src1 & t1 & A1 & B1 & _ & _ & _ & _ & _ & _ & V1 & D1).
  unfold get_revision, get_document, select_document_id in *.
  rewrite EV, ED in *.
  assert (a1 = rr1) by congruence. subst a1.
  assert (src1 = d1) by congruence. subst src1.
  destruct D1 as [(_ & T1 & D1)|(C & _)]; [|congruence].
  subst t1. rewrite repoint_new_row in D1.
  apply send_revision_inv in H2.
  destruct H2 as (a2 & src2 & t2 & A2 & B2 & _ & _ & _ & _ & _ & _ & V2 & D2).
  unfold get_revision, get_document, select_document_id in *.
  rewrite V1, D1 in *.
  rewrite (select_by_id_app_some _ _ _ _ HR2) in A2.
  assert (a2 = rr2) by congruence. subst a2.
  rewrite (select_by_id_app_some _ _ _ _ HG2) in B2.
  assert (src2 = d2) by congruence. subst src2.
  assert (F : option_map fst
                (find (same_key (doc_number d2) ro (project_id d2))
                   (documents s ++
                      [(next_rowid (documents s),
                        set_current (next_rowid (document_revisions s))
                          (recipient_copy ro now d1))]))
              = Some (next_rowid (documents s))).
  { destruct (find (same_key (doc_number d1) ro (project_id d1)) (documents s))
      eqn:E; [discriminate|].
    rewrite <- EN, <- EP. rewrite (find_snoc _ _ _ E); [reflexivity|].
    unfold same_key. cbn. now rewrite String.eqb_refl, !Z.eqb_refl. }
  destruct D2 as [(C & _)|(C & D2)]; [congruence|].
  assert (t2 = next_rowid (documents s)) by congruence. subst t2.
  rewrite next_rowid_snoc in V2, D2.
  split.
  - rewrite D2, repoint_app, repoint_absent.
    + unfold repoint. cbn. rewrite Z.eqb_refl. reflexivity.
    + apply select_by_id_above. unfold next_rowid. lia.
  - rewrite V2, <- app_assoc. reflexivity.
Qed.

Section NewDocuments.
Variables (tn : string) (ro cb : Z) (now : string) (tid : Z).

Lemma copied_from_later revs w w' nd nd' :
  copied_from ro revs w nd -> extends w w' -> same_identity nd nd' ->
  copied_from ro revs w' nd'.
Proof.
  intros (HO & r & rr & src & Hin & HR & HG & E1 & E2) X
         (S1 & _ & _ & _ & S5 & S6 & _).
  destruct (ext_docs_get _ _ X _ _ HG) as (src' & HG' & (T1 & _ & _ & _ & _ & T6 & _)).
  split; [congruence|]. exists r, rr, src'.
  repeat split; auto; try congruence.
  eapply extends_get_revision; eauto.
Qed.

Lemma copied_from_more x revs w nd :
  copied_from ro revs w nd -> copied_from ro (x :: revs) w nd.
Proof.
  intros (HO & r & rr & src & Hin & H). split; [assumption|].
  exists r, rr, src. split; [now right|assumption].
Qed.

Lemma send_revision_new_document r w w1 i d1 :
  send_revision tn ro cb now tid r w = Ok (tt, w1) ->
  In (i, d1) (documents w1) -> max_rowid (documents w) < i ->
  copied_from ro [r] w1 d1.
Proof.
  intros H Hin Hi.
  pose proof (send_revision_extends _ _ _ _ _ _ _ _ H) as X.
  apply send_revision_inv in H.
  destruct H as (rr & src & target & HR & HG & _ & _ & _ & _ & _ & _ & _ & HD).
  assert (Hnew : exists d0, d1 = (if i =? target
                                  then set_current
                                         (next_rowid (document_revisions w)) d0
                                  else d0) /\
                            d0 = recipient_copy ro now src).
  { destruct HD as [(_ & _ & HD)|(_ & HD)]; rewrite HD in Hin;
      apply repoint_In_inv in Hin; destruct Hin as (d0 & Hin & E).
    - apply in_app_or in Hin. destruct Hin as [Hin|[Hin|[]]].
      + apply In_max_rowid in Hin. lia.
      + injection Hin as _ <-. eauto.
    - apply In_max_rowid in Hin. lia. }
  destruct Hnew as (d0 & -> & ->).
  eapply (copied_from_later [r] w); [|exact X|apply repoint_same_identity].
  split; [reflexivity|]. exists r, rr, src. cbn. auto 10.
Qed.

Lemma send_loop_new_documents revs : forall w w',
  for_each revs (send_revision tn ro cb now tid) w = Ok (tt, w') ->
  forall i nd, In (i, nd) (documents w') ->
               max_rowid (documents w) < i ->
               copied_from ro revs w' nd.
Proof.
  induction revs as [|x rest IH]; intros w w' H i nd Hin Hi.
  - cbn in H. injection H as <-. apply In_max_rowid in Hin. lia.
  - apply for_each_cons in H. destruct H as (w1 & H1 & H2).
    pose proof (send_loop_extends _ _ _ _ _ _ _ _ H2) as X.
    destruct (ext_docs_bwd _ _ X _ _ Hin) as [Hlt|(d1 & Hin1 & SI)].
    + apply copied_from_more. eapply IH; eauto.
    + pose proof (send_revision_new_document _ _ _ _ _ H1 Hin1 Hi) as C.
      apply (copied_from_later _ _ _ _ _ C X) in SI.
      destruct SI as (HO & r & rr & src & [<-|[]] & K).
      split; [assumption|]. exists x, rr, src. split; [now left|assumption].
Qed.
End NewDocuments.

(** C10, as the code has it.  A send never touches the project table.
    Every document row it adds to the register belongs to the recipient
    and carries the doc_number and the project_id of the document of one
    of the revisions sent, so the replica references the very project row
    the source document references; and such a row is added for every
    revision sent whose document had no counterpart in the recipient's
    register.  Nothing in the send relates that project to the sender: the
    project of the replica is owned by the sender, and not by the
    recipient, when the project of the source document is owned by the
    sender and the sender is not the recipient. *)
Theorem replica_keeps_source_project tn desc so ro revs cb now s s' tid :
  create_transmittal tn desc so ro revs cb now s = (s', Ok tid) ->
  projects s' = projects s /\
  (forall i nd,
      In (i, nd) (documents s') -> max_rowid (documents s) < i ->
      org_id nd = ro /\
      exists r rr src,
        In r revs /\
        get_revision s' r = Some rr /\
        get_document s' (document_id rr) = Some src /\
        doc_number nd = doc_number src /\
        project_id nd = project_id src /\
        get_project s' (project_id nd) = get_project s (project_id src) /\
        forall p,
          get_project s (project_id src) = Some p ->
          proj_org_id p = so -> so <> ro ->
          get_project s' (project_id nd) = Some p /\
          proj_org_id p = so /\ proj_org_id p <> org_id nd) /\
  (forall r rr src,
      In r revs ->
      get_revision s r = Some rr ->
      get_document s (document_id rr) = Some src ->
      select_document_id (doc_number src) ro (project_id src) s = None ->
      exists i nd,
        In (i, nd) (documents s') /\ max_rowid (documents s) < i /\
        org_id nd = ro /\ doc_number nd = doc_number src /\
        project_id nd = project_id src).
Proof.
  intros H. apply run_ok, create_transmittal_stmts_inv in H.
  destruct H as [_ H].
  pose proof (send_loop_extends _ _ _ _ _ _ _ _ H) as X.
  pose proof (ext_projects _ _ X) as HP. cbn in HP.
  split; [exact HP|]. split.
  - intros i nd Hin Hi.
    destruct (send_loop_new_documents _ _ _ _ _ _ _ _ H i nd Hin Hi)
      as (HO & r & rr & src & Hr & HR & HG & E1 & E2).
    split; [assumption|]. exists r, rr, src.
    assert (EP : get_project s' (project_id nd) = get_project s (project_id src))
      by (unfold get_project; now rewrite HP, E2).
    do 5 (split; [assumption|]). split; [exact EP|].
    intros p Hp Ho Hne. rewrite EP, HO, Ho. auto.
  - intros r rr src Hin Hr Hs HN.
    destruct (send_loop_delivered _ _ _ _ _ _ _ _ H r Hin)
      as (_ & rr' & src' & Hr' & Hs' & _
          & (nrid & target & tdoc & _ & _ & T1 & T2 & T3 & T4)).
    pose proof (extends_get_revision _ _ _ _ X Hr) as Hr2.
    assert (rr' = rr) by congruence. subst rr'.
    destruct (ext_docs_get _ _ X _ _ Hs) as (src2 & Hs2 & SI).
    assert (src2 = src') by congruence. subst src2.
    destruct SI as (S1 & _ & _ & _ & _ & S6 & _).
    exists target, tdoc. split; [exact T1|].
    split; [|split; [exact T2|split; congruence]].
    destruct (ext_docs_bwd _ _ X _ _ T1) as [Hlt|(d0 & Hin0 & SD)];
      [exact Hlt|exfalso].
    destruct SD as (D1 & _ & _ & _ & D5 & D6 & _).
    unfold select_document_id in HN.
    destruct (find (same_key (doc_number src) ro (project_id src))
                (documents s)) eqn:EF; [discriminate|].
    apply find_none_existsb in EF.
    assert (ET : existsb (same_key (doc_number src) ro (project_id src))
                   (documents s) = true); [|congruence].
    apply existsb_exists. exists (target, d0). split; [exact Hin0|].
    unfold same_key. cbn.
    rewrite (proj2 (String.eqb_eq _ _)) by congruence.
    rewrite !(proj2 (Z.eqb_eq _ _)) by congruence. reflexivity.
Qed.

(** ** Uploading a revision for a document that does not exist *)

Lemma add_document_revision_unchecked doc_id lbl fp u now s :
  get_document s doc_id = None ->
  exists s',
    add_document_revision doc_id lbl fp u now s
    = (s', Ok (next_rowid (document_revisions s))) /\
    documents s' = documents s /\
    document_revisions s' =
      document_revisions s ++
        [(next_rowid (document_revisions s),
          initial_revision doc_id lbl fp u now)] /\
    events s' =
      events s ++
        [(next_rowid (events s),
          upload_event "RevisionUploaded" doc_id
            (next_rowid (document_revisions s)) u now)].
Proof.
  intros H. rewrite add_document_revision_eq. eexists. split; [reflexivity|].
  cbn. rewrite repoint_absent by exact H. auto.
Qed.

(** ** The worked scenario *)

Lemma two_orgs_reachable : reachable two_orgs.
Proof. unfold two_orgs. repeat constructor. Qed.

Lemma site_reachable : reachable site.
Proof. unfold site. constructor. apply two_orgs_reachable. Qed.

Lemma site_rev_b_reachable : reachable site_rev_b.
Proof. unfold site_rev_b. constructor. apply site_reachable. Qed.

Lemma stray_ledger_reachable : reachable stray_ledger.
Proof. unfold stray_ledger. repeat constructor. Qed.

Example site_current_label : current_revision_label site 1 = Some "A"%string.
Proof. vm_compute. reflexivity. Qed.

Example site_rev_b_current_label :
  current_revision_label site_rev_b 1 = Some "B"%string.
Proof. vm_compute. reflexivity. Qed.

(** The end-to-end scenario: after the send, the recipient has "DOC-001"
    with current revision "A" and the same file reference, and the sender's
    document has one "Sent" event that names "TR-1". *)
Example send_end_to_end :
  let s' := fst (create_transmittal "TR-1" "first issue" 1 2 [1] 10 t3 site) in
  select_document_id "DOC-001" 2 1 s' = Some 2 /\
  current_revision_label s' 2 = Some "A"%string /\
  option_map file_path (get_revision s' 2) = Some "uploads/a.pdf"%string /\
  map (fun r => notes (snd r)) (events_of_type s' 1 "Sent")
  = [Some "Transmittal TR-1 sent to org 2"%string].
Proof. vm_compute. repeat split. Qed.

(** Two sends of two revisions of one document: the recipient's document
    ends with two ledger rows and "B" as current. *)
Example send_twice :
  let s1 := fst (create_transmittal "TR-1" "" 1 2 [1] 10 t3 site_rev_b) in
  let s2 := fst (create_transmittal "TR-2" "" 1 2 [2] 10 t3 s1) in
  map (fun r => revision (snd r)) (rows_of 2 (document_revisions s2))
  = ["A"%string; "B"%string] /\
  current_revision_label s2 2 = Some "B"%string.
Proof. vm_compute. repeat split. Qed.

(** A recipient organization that does not exist is not rejected either:
    no row of [organizations] has id 99, and the send goes through. *)
Example send_to_unknown_organization :
  get_organization site 99 = None /\
  snd (create_transmittal "TR-1" "" 1 99 [1] 10 t3 site) = Ok 1.
Proof. vm_compute. repeat split. Qed.

(** Revision id 2 is not in the ledger of [site], yet this send returns:
    the replica made for revision 1 receives rowid 2 before the loop
    reaches the second element. *)
Example send_resolves_its_own_replica :
  get_revision site 2 = None /\
  snd (create_transmittal "TR-1" "" 1 2 [1; 2] 10 t3 site) = Ok 1.
Proof. vm_compute. repeat split. Qed.

(** ** Instances and counterexamples *)

Lemma create_transmittal_all_or_nothing_witness :
  delivered "TR-1" 2 10 t3 1 site
    (fst (create_transmittal "TR-1" "first issue" 1 2 [1] 10 t3 site)) 1.
Proof.
  apply (proj1 (create_transmittal_all_or_nothing
                  "TR-1" "first issue" 1 2 [1] 10 t3 site)
           (fst (create_transmittal "TR-1" "first issue" 1 2 [1] 10 t3 site))
           1).
  - vm_compute. reflexivity.
  - left. reflexivity.
Defined.

(** C2 as stated fails when the recipient already has the document: its
    register then holds no document with the number, title, type and status
    of the source. *)
Lemma send_single_revision_counterexample :
  exists s' rr d,
    get_revision site_with_recipient_doc 1 = Some rr /\
    get_document site_with_recipient_doc (document_id rr) = Some d /\
    create_transmittal "TR-1" "" 1 2 [1] 10 t3 site_with_recipient_doc
    = (s', Ok 1) /\
    ~ exists i doc,
        In (i, doc) (documents s') /\ org_id doc = 2 /\
        doc_number doc = doc_number d /\ title doc = title d /\
        doc_type doc = doc_type d /\ status doc = status d /\
        project_id doc = project_id d.
Proof.
  eexists _, _, _. split; [vm_compute; reflexivity|].
  split; [vm_compute; reflexivity|]. split; [vm_compute; reflexivity|].
  intros (i & doc & Hin & HO & _ & HT & _).
  cbn in Hin. destruct Hin as [E|[E|[]]]; injection E as <- <-;
    cbn in HO, HT; discriminate.
Qed.

Lemma send_single_revision_replica_witness :
  (exists s' tid,
      create_transmittal "TR-1" "" 1 2 [1] 10 t3 site = (s', Ok tid)) /\
  exists i doc cur,
    In (i, doc)
      (documents
         (fst (create_transmittal "TR-1" "" 1 2 [1] 10 t3
                 site_with_recipient_doc))) /\
    org_id doc = 2 /\
    doc_number doc = "DOC-001"%string /\
    project_id doc = 1 /\
    current_revision_id doc = Some cur /\
    get_revision
      (fst (create_transmittal "TR-1" "" 1 2 [1] 10 t3
              site_with_recipient_doc)) cur
    = Some (replica i 10 t3 (initial_revision 1 "A" "uploads/a.pdf" 10 t1)) /\
    rev_label
      (fst (create_transmittal "TR-1" "" 1 2 [1] 10 t3
              site_with_recipient_doc)) doc
    = Some "A"%string /\
    (select_document_id "DOC-001" 2 1 site_with_recipient_doc = None ->
     title doc = "Pump layout"%string /\ doc_type doc = "drawing"%string /\
     status doc = "IFC"%string) /\
    (forall existing,
        select_document_id "DOC-001" 2 1 site_with_recipient_doc
        = Some existing ->
        i = existing /\
        exists old,
          In (existing, old) (documents site_with_recipient_doc) /\
          org_id old = 2 /\ doc_number old = "DOC-001"%string /\
          project_id old = 1 /\
          title doc = title old /\ doc_type doc = doc_type old /\
          status doc = status old).
Proof.
  split.
  - refine (proj1 (send_single_revision_replica "TR-1" "" 1 2 10 t3 site 1
                     (initial_revision 1 "A" "uploads/a.pdf" 10 t1)
                     {| doc_number := "DOC-001"; title := "Pump layout";
                        doc_type := "drawing"; status := "IFC"; org_id := 1;
                        project_id := 1; current_revision_id := Some 1;
                        created_at := t1 |} _ _)
              site_reachable _ _ _);
      vm_compute; reflexivity.
  - refine (proj2 (send_single_revision_replica "TR-1" "" 1 2 10 t3
                     site_with_recipient_doc 1
                     (initial_revision 1 "A" "uploads/a.pdf" 10 t1)
                     {| doc_number := "DOC-001"; title := "Pump layout";
                        doc_type := "drawing"; status := "IFC"; org_id := 1;
                        project_id := 1; current_revision_id := Some 1;
                        created_at := t1 |} _ _)
              (fst (create_transmittal "TR-1" "" 1 2 [1] 10 t3
                      site_with_recipient_doc)) 1 _);
      vm_compute; reflexivity.
Defined.

Lemma create_document_initial_state_witness :
  current_revision_label site 1 = Some "A"%string /\
  exists eid rev_id doc,
    events_of_type site 1 "Uploaded" =
      [(eid, upload_event "Uploaded" 1 rev_id 10 t1)] /\
    get_document site 1 = Some doc /\
    current_revision_id doc = Some rev_id /\
    get_revision site rev_id =
      Some (initial_revision 1 "A" "uploads/a.pdf" 10 t1).
Proof.
  apply (create_document_initial_state "DOC-001" "Pump layout" "drawing"
           "IFC" 1 1 "A" "uploads/a.pdf" 10 t1 two_orgs site 1).
  - apply two_orgs_reachable.
  - vm_compute. reflexivity.
Defined.

Lemma current_revision_invariant_witness :
  current_is_latest
    (fst (create_transmittal "TR-1" "" 1 2 [1; 2] 10 t3 site_rev_b)).
Proof.
  apply (proj2 (proj2 (current_revision_invariant site_rev_b
                         (reachable_current_is_latest site_rev_b
                            site_rev_b_reachable)))).
Defined.

Lemma send_two_revisions_one_document_witness :
  documents (fst (create_transmittal "TR-1" "" 1 2 [1; 2] 10 t3 site_rev_b))
  = documents site_rev_b ++
      [(2, set_current 4
             (recipient_copy 2 t3
                {| doc_number := "DOC-001"; title := "Pump layout";
                   doc_type := "drawing"; status := "IFC"; org_id := 1;
                   project_id := 1; current_revision_id := Some 2;
                   created_at := t1 |}))] /\
  document_revisions
    (fst (create_transmittal "TR-1" "" 1 2 [1; 2] 10 t3 site_rev_b))
  = document_revisions site_rev_b ++
      [(3, replica 2 10 t3 (initial_revision 1 "A" "uploads/a.pdf" 10 t1));
       (4, replica 2 10 t3 (initial_revision 1 "B" "uploads/b.pdf" 10 t2))].
Proof.
  refine (proj2 (send_two_revisions_one_document "TR-1" "" 1 2 10 t3
                   site_rev_b 1 2
                   (initial_revision 1 "A" "uploads/a.pdf" 10 t1)
                   (initial_revision 1 "B" "uploads/b.pdf" 10 t2)
                   {| doc_number := "DOC-001"; title := "Pump layout";
                      doc_type := "drawing"; status := "IFC"; org_id := 1;
                      project_id := 1; current_revision_id := Some 2;
                      created_at := t1 |}
                   {| doc_number := "DOC-001"; title := "Pump layout";
                      doc_type := "drawing"; status := "IFC"; org_id := 1;
                      project_id := 1; current_revision_id := Some 2;
                      created_at := t1 |} _ _ _ _ _ _ _)
            (fst (create_transmittal "TR-1" "" 1 2 [1; 2] 10 t3 site_rev_b))
            1 _);
    vm_compute; reflexivity.
Defined.

(** C6 as stated fails on the empty list: the call returns and a
    transmittal record is created. *)
Lemma create_transmittal_error_contract_counterexample :
  snd (create_transmittal "TR-1" "" 1 2 [] 10 t3 site) = Ok 1 /\
  get_transmittal site 1 = None /\
  get_transmittal (fst (create_transmittal "TR-1" "" 1 2 [] 10 t3 site)) 1
  = Some {| transmittal_number := "TR-1"; description := "";
            sender_org_id := 1; recipient_org_id := 2; created_by := 10;
            tr_created_at := t3 |}.
Proof. vm_compute. repeat split. Qed.

Lemma create_transmittal_error_contract_witness :
  (exists e,
      create_transmittal "TR-1" "" 1 2 ([1] ++ 7 :: [1]) 10 t3 site
      = (site, Raise e)) /\
  snd (create_transmittal "TR-1" "" 1 2 [] 10 t3 site)
  = Ok (next_rowid (transmittals site)).
Proof.
  split.
  - apply (proj1 (create_transmittal_error_contract "TR-1" "" 1 2 10 t3 site)
             [1] 7 [1]).
    + vm_compute. reflexivity.
    + vm_compute. intros [H1 H2]. apply H2. reflexivity.
  - rewrite (proj2 (create_transmittal_error_contract "TR-1" "" 1 2 10 t3 site)
               eq_refl eq_refl eq_refl).
    reflexivity.
Defined.

(** C7.  [add_document_revision] does not fail for a document id that is
    not in the register.  Uploading revision "B" for document id 42, which
    [site] does not have:
    the call returns the new revision id, and the ledger and the event log
    each gain a row that points at document 42. *)
Theorem add_document_revision_unknown_document :
  get_document site 42 = None /\
  add_document_revision 42 "B" "uploads/b.pdf" 10 t2 site
  = (set_events
       (events site ++
          [(2, upload_event "RevisionUploaded" 42 2 10 t2)])
       (set_document_revisions
          (document_revisions site ++
             [(2, initial_revision 42 "B" "uploads/b.pdf" 10 t2)]) site),
     Ok 2).
Proof. vm_compute. repeat split. Qed.

(** C8.  The code at the failing input.  A revision is uploaded for
    document id 1 while the register is empty, which the unenforced
    foreign key lets through (C7); the document created next receives id
    1, and with no upload at all its revision list has two rows, the
    stray one included. *)
Theorem revisions_after_uploads_orphan_row :
  get_document empty_db 1 = None /\
  add_document_revision 1 "Z" "uploads/z.pdf" 10 t0 empty_db
  = (stray_ledger, Ok 1) /\
  exists s1,
    create_document "DOC-001" "Pump layout" "drawing" "IFC" 1 1
      "A" "uploads/a.pdf" 10 t1 stray_ledger = (s1, Ok 1) /\
    map (fun r => revision (snd r))
      (get_revisions_for_document (add_revisions 1 [] s1) 1)
    = ["A"; "Z"]%string.
Proof.
  split; [reflexivity|]. split; [vm_compute; reflexivity|].
  eexists. split; vm_compute; reflexivity.
Qed.

Lemma two_orgs_ledger_resolves : ledger_resolves two_orgs.
Proof. intros i rv Hin. vm_compute in Hin. destruct Hin. Qed.

Lemma revisions_after_uploads_witness :
  let calls :=
    [ {| up_label := "C"; up_file := "uploads/c.pdf"; up_user := 10;
         up_now := t2 |};
      {| up_label := "B"; up_file := "uploads/b.pdf"; up_user := 11;
         up_now := t3 |} ] in
  let listed := get_revisions_for_document (add_revisions 1 calls site) 1 in
  List.length listed = 3%nat /\
  Permutation (map snd listed)
    (initial_revision 1 "A" "uploads/a.pdf" 10 t1
       :: map (ledger_row 1) calls) /\
  StronglySorted newest_first listed /\
  current_revision_label (add_revisions 1 calls site) 1 = Some "B"%string.
Proof.
  apply (revisions_after_uploads "DOC-001" "Pump layout" "drawing" "IFC" 1 1
           "A" "uploads/a.pdf" 10 t1 two_orgs site 1).
  - apply two_orgs_ledger_resolves.
  - vm_compute. reflexivity.
  - repeat constructor.
Defined.

Lemma create_transmittal_duplicate_revision_witness :
  exists e,
    create_transmittal "TR-1" "" 1 2 [1; 1] 10 t3 site = (site, Raise e).
Proof.
  apply (proj2 (create_transmittal_duplicate_revision
                  "TR-1" "" 1 2 [1; 1] 10 t3 site)).
  intros H. inversion H as [|x l Hn _]. apply Hn. left. reflexivity.
Defined.

Lemma cross_site_reachable : reachable cross_site.
Proof.
  unfold cross_site. apply reach_create_document, reach_create_project,
    reach_create_organization, reach_create_organization, reach_empty.
Qed.

(** C10 as stated fails in a store the application can reach: the source
    document is filed under a project of the recipient, and the project of
    the document the send creates is then owned by the recipient, not by
    the sender. *)
Lemma replica_keeps_source_project_counterexample :
  reachable cross_site /\
  exists s' nd p,
    create_transmittal "TR-1" "" 1 2 [1] 10 t3 cross_site = (s', Ok 1) /\
    get_document cross_site 2 = None /\
    get_document s' 2 = Some nd /\
    org_id nd = 2 /\
    get_project s' (project_id nd) = Some p /\
    proj_org_id p = 2 /\
    proj_org_id p <> 1.
Proof.
  split; [apply cross_site_reachable|].
  eexists _, _, _. split; [vm_compute; reflexivity|].
  do 5 (split; [vm_compute; reflexivity|]). vm_compute. discriminate.
Qed.

Lemma replica_keeps_source_project_witness :
  projects (fst (create_transmittal "TR-1" "" 1 2 [1] 10 t3 site))
  = projects site /\
  exists i nd,
    In (i, nd)
      (documents (fst (create_transmittal "TR-1" "" 1 2 [1] 10 t3 site))) /\
    max_rowid (documents site) < i /\
    org_id nd = 2 /\ doc_number nd = "DOC-001"%string /\ project_id nd = 1.
Proof.
  assert (H : create_transmittal "TR-1" "" 1 2 [1] 10 t3 site
              = (fst (create_transmittal "TR-1" "" 1 2 [1] 10 t3 site), Ok 1))
    by (vm_compute; reflexivity).
  pose proof (replica_keeps_source_project _ _ _ _ _ _ _ _ _ _ H)
    as (P & _ & M).
  split; [exact P|].
  apply (M 1 (initial_revision 1 "A" "uploads/a.pdf" 10 t1)
           {| doc_number := "DOC-001"; title := "Pump layout";
              doc_type := "drawing"; status := "IFC"; org_id := 1;
              project_id := 1; current_revision_id := Some 1;
              created_at := t1 |});
    [left; reflexivity|vm_compute; reflexivity..].
Defined.

(** * Constraints, integrity and growth *)

(** ** An induction principle for reachable stores *)

Lemma create_organization_eq name descr now s :
  create_organization name descr now s =
  if existsb (fun r => String.eqb (org_name (snd r)) name) (organizations s)
  then (s, Raise IntegrityError)
  else (set_organizations
          (organizations s ++
             [(next_rowid (organizations s),
               {| org_name := name; org_description := descr;
                  org_created_at := now |})]) s,
        Ok (next_rowid (organizations s))).
Proof.
  unfold create_organization, run, execute, insert_organization. cbn.
  now destruct (existsb _ (organizations s)).
Qed.

Lemma create_project_eq name descr org now s :
  create_project name descr org now s =
  (set_projects
     (projects s ++
        [(next_rowid (projects s),
          {| proj_name := name; proj_description := descr;
             proj_org_id := org; proj_created_at := now |})]) s,
   Ok (next_rowid (projects s))).
Proof. reflexivity. Qed.

Lemma send_loop_invariant (P : db -> Prop) tn ro cb now tid :
  (forall r w w1,
      P w -> (exists t, get_transmittal w tid = Some t) ->
      send_revision tn ro cb now tid r w = Ok (tt, w1) -> P w1) ->
  forall revs w w',
    for_each revs (send_revision tn ro cb now tid) w = Ok (tt, w') ->
    (exists t, get_transmittal w tid = Some t) -> P w -> P w'.
Proof.
  intros Hstep. induction revs as [|r rest IH]; intros w w' H Ht HP.
  - cbn in H. now inversion H; subst.
  - apply for_each_cons in H. destruct H as (w1 & H1 & H2).
    eapply IH; [exact H2| |eapply Hstep; eauto].
    apply send_revision_inv in H1.
    destruct H1 as (rr & src & t & _ & _ & _ & _ & _ & HT & _).
    unfold get_transmittal in *. now rewrite HT.
Qed.

Lemma reachable_invariant (P : db -> Prop) :
  P empty_db ->
  (forall s o,
      P s ->
      existsb (fun r => String.eqb (org_name (snd r)) (org_name o))
        (organizations s) = false ->
      P (set_organizations
           (organizations s ++ [(next_rowid (organizations s), o)]) s)) ->
  (forall s p,
      P s -> P (set_projects (projects s ++ [(next_rowid (projects s), p)]) s)) ->
  (forall s num ttl ty st org proj lbl fp u now s' d,
      P s ->
      create_document num ttl ty st org proj lbl fp u now s = (s', Ok d) ->
      P s') ->
  (forall s doc_id lbl fp u now,
      P s -> P (fst (add_document_revision doc_id lbl fp u now s))) ->
  (forall s t,
      P s ->
      P (set_transmittals
           (transmittals s ++ [(next_rowid (transmittals s), t)]) s)) ->
  (forall tn ro cb now tid r w w1,
      P w -> (exists t, get_transmittal w tid = Some t) ->
      send_revision tn ro cb now tid r w = Ok (tt, w1) -> P w1) ->
  forall s, reachable s -> P s.
Proof.
  intros H0 Ho Hp Hd Hr Ht Hs s R.
  induction R as [|s name descr now R IH|s name descr org now R IH
                  |s num ttl ty st org proj lbl fp u now R IH
                  |s doc_id lbl fp u now R IH
                  |s tn descr so ro revs cb now R IH].
  - exact H0.
  - rewrite create_organization_eq.
    destruct (existsb _ (organizations s)) eqn:E; cbn; [exact IH|].
    now apply (Ho s {| org_name := name; org_description := descr;
                       org_created_at := now |}).
  - rewrite create_project_eq. cbn. now apply Hp.
  - destruct (create_document num ttl ty st org proj lbl fp u now s)
      as [s' [d|e]] eqn:E; cbn.
    + eapply Hd; eauto.
    + apply run_raise in E. destruct E as [-> _]. exact IH.
  - now apply Hr.
  - destruct (create_transmittal tn descr so ro revs cb now s)
      as [s' [tid|e]] eqn:E; cbn.
    + apply run_ok, create_transmittal_stmts_inv in E. destruct E as [-> E].
      eapply (send_loop_invariant P); [apply Hs|exact E| |apply Ht; exact IH].
      eexists. unfold get_transmittal. cbn. apply select_by_id_snoc_new.
    + apply run_raise in E. destruct E as [-> _]. exact IH.
Qed.

(** ** Declared keys *)

Lemma NoDup_snoc {A} (l : list A) a : NoDup l -> ~ In a l -> NoDup (l ++ [a]).
Proof.
  intros H N. apply NoDup_app; [assumption|repeat constructor; auto|].
  intros x Hx [<-|[]]. contradiction.
Qed.

Lemma rowid_snoc_NoDup {R} (t : table R) r :
  NoDup (map fst t) -> NoDup (map fst (t ++ [(next_rowid t, r)])).
Proof.
  intros H. rewrite map_app. cbn. apply NoDup_snoc; [assumption|].
  rewrite in_map_iff. intros [[i x] [E Hin]]. cbn in E. subst i.
  apply In_max_rowid in Hin. unfold next_rowid in Hin. lia.
Qed.

Lemma repoint_key n x t : map doc_key (repoint n x t) = map doc_key t.
Proof.
  unfold repoint. rewrite map_map. apply map_ext. intros [i d]. cbn.
  now destruct (i =? x).
Qed.

Lemma same_key_doc_key num org proj r :
  same_key num org proj r = true <-> doc_key r = (num, org, proj).
Proof.
  unfold same_key, doc_key. rewrite !andb_true_iff, String.eqb_eq, !Z.eqb_eq.
  split; [intros [[-> ->] ->]; reflexivity|intros [= -> -> ->]; auto].
Qed.

Lemma key_absent num org proj (t : table document) :
  existsb (same_key num org proj) t = false ->
  ~ In (num, org, proj) (map doc_key t).
Proof.
  intros H. rewrite in_map_iff. intros [r [E Hin]].
  apply same_key_doc_key in E.
  assert (existsb (same_key num org proj) t = true)
    by (apply existsb_exists; eauto).
  congruence.
Qed.

Lemma key_present num org proj (t : table document) :
  existsb (same_key num org proj) t = true <->
  exists i d, In (i, d) t /\ doc_number d = num /\ org_id d = org /\
              project_id d = proj.
Proof.
  rewrite existsb_exists. split.
  - intros [[i d] [Hin E]]. apply same_key_doc_key in E.
    injection E as E1 E2 E3. cbn in *. eauto 7.
  - intros (i & d & Hin & E1 & E2 & E3). exists (i, d).
    split; [assumption|]. apply same_key_doc_key. unfold doc_key. cbn.
    congruence.
Qed.

Lemma select_document_id_none num org proj w :
  select_document_id num org proj w = None ->
  existsb (same_key num org proj) (documents w) = false.
Proof.
  unfold select_document_id.
  destruct (find _ (documents w)) eqn:E; [discriminate|].
  intros _. now apply find_none_existsb.
Qed.

Lemma reachable_constraints_hold :
  forall s, reachable s -> constraints_hold s.
Proof.
  apply reachable_invariant.
  - split; cbn; constructor.
  - intros s o [] E. split; cbn; auto.
    + now apply rowid_snoc_NoDup.
    + rewrite map_app. cbn. apply NoDup_snoc; [assumption|].
      rewrite in_map_iff. intros [r [En Hin]].
      assert (existsb (fun r => String.eqb (org_name (snd r)) (org_name o))
                (organizations s) = true).
      { apply existsb_exists. exists r. split; [assumption|].
        now apply String.eqb_eq. }
      congruence.
  - intros s p []. split; cbn; auto. now apply rowid_snoc_NoDup.
  - intros s num ttl ty st org proj lbl fp u now s' d [] E.
    apply create_document_inv in E. destruct E as (EK & -> & ->).
    split; cbn; auto.
    + rewrite repoint_fst. now apply rowid_snoc_NoDup.
    + rewrite repoint_key, map_app. cbn. apply NoDup_snoc; [assumption|].
      now apply key_absent.
    + now apply rowid_snoc_NoDup.
    + now apply rowid_snoc_NoDup.
  - intros s doc_id lbl fp u now []. rewrite add_document_revision_eq.
    split; cbn; auto.
    + now rewrite repoint_fst.
    + now rewrite repoint_key.
    + now apply rowid_snoc_NoDup.
    + now apply rowid_snoc_NoDup.
  - intros s t []. split; cbn; auto. now apply rowid_snoc_NoDup.
  - intros tn ro cb now tid r w w1 [] _ H. apply send_revision_inv in H.
    destruct H as (rr & src & target & _ & _ & HN & HO & HP & HT & HL & HE
                   & HV & HD).
    split; rewrite ?HO, ?HP, ?HT, ?HL, ?HE, ?HV; auto.
    + destruct HD as [(_ & -> & ->)|(_ & ->)]; rewrite repoint_fst;
        [now apply rowid_snoc_NoDup|assumption].
    + destruct HD as [(HS & -> & ->)|(_ & ->)]; rewrite repoint_key;
        [|assumption].
      rewrite map_app. cbn. apply NoDup_snoc; [assumption|].
      apply key_absent. now apply select_document_id_none.
    + now apply rowid_snoc_NoDup.
    + now apply rowid_snoc_NoDup.
    + apply NoDup_snoc; [assumption|]. intros Hin.
      apply link_exists_iff in Hin. congruence.
Qed.

(** ** Writers only append *)

Lemma append_only_refl s : append_only s s.
Proof.
  split; try (exists []; now rewrite app_nil_r);
    intros i d H; exists d; (split; [assumption|apply same_identity_refl]).
Qed.

Lemma append_only_trans a b c :
  append_only a b -> append_only b c -> append_only a c.
Proof.
  intros [[o1 O1] [p1 P1] [t1 T1] [l1 L1] [e1 E1] [r1 R1] [i1 I1] D1 G1]
         [[o2 O2] [p2 P2] [t2 T2] [l2 L2] [e2 E2] [r2 R2] [i2 I2] D2 G2].
  split.
  - exists (o1 ++ o2). now rewrite O2, O1, app_assoc.
  - exists (p1 ++ p2). now rewrite P2, P1, app_assoc.
  - exists (t1 ++ t2). now rewrite T2, T1, app_assoc.
  - exists (l1 ++ l2). now rewrite L2, L1, app_assoc.
  - exists (e1 ++ e2). now rewrite E2, E1, app_assoc.
  - exists (r1 ++ r2). now rewrite R2, R1, app_assoc.
  - exists (i1 ++ i2). now rewrite I2, I1, app_assoc.
  - intros i d H. destruct (D1 _ _ H) as (d1 & H1 & S1).
    destruct (D2 _ _ H1) as (d2 & H2 & S2). exists d2.
    split; [assumption|eapply same_identity_trans; eauto].
  - intros i d H. destruct (G1 _ _ H) as (d1 & H1 & S1).
    destruct (G2 _ _ H1) as (d2 & H2 & S2). exists d2.
    split; [assumption|eapply same_identity_trans; eauto].
Qed.

Lemma append_only_intro s s' n x extra :
  (exists l, organizations s' = organizations s ++ l) ->
  (exists l, projects s' = projects s ++ l) ->
  (exists l, transmittals s' = transmittals s ++ l) ->
  (exists l, transmittal_documents s' = transmittal_documents s ++ l) ->
  (exists l, events s' = events s ++ l) ->
  (exists l, document_revisions s' = document_revisions s ++ l) ->
  documents s' = repoint n x (documents s ++ extra) ->
  append_only s s'.
Proof.
  intros O P T L E R D. split; auto.
  - exists (map fst extra). now rewrite D, repoint_fst, map_app.
  - intros i d H. eexists. split.
    + rewrite D. apply repoint_In, in_or_app. left. exact H.
    + apply repoint_same_identity.
  - intros i d H. unfold get_document in *. rewrite D, repoint_select.
    rewrite (select_by_id_app_some _ _ _ _ H). cbn. eexists.
    split; [reflexivity|apply repoint_same_identity].
Qed.

Lemma repoint_nowhere (t : table document) :
  repoint 0 (next_rowid t) t = t.
Proof.
  apply repoint_absent, select_by_id_above. unfold next_rowid. lia.
Qed.

Lemma append_only_tables s s' :
  (exists l, organizations s' = organizations s ++ l) ->
  (exists l, projects s' = projects s ++ l) ->
  (exists l, transmittals s' = transmittals s ++ l) ->
  (exists l, transmittal_documents s' = transmittal_documents s ++ l) ->
  (exists l, events s' = events s ++ l) ->
  (exists l, document_revisions s' = document_revisions s ++ l) ->
  documents s' = documents s ->
  append_only s s'.
Proof.
  intros O P T L E R D.
  apply (append_only_intro s s' 0 (next_rowid (documents s)) []); auto.
  now rewrite app_nil_r, repoint_nowhere.
Qed.

Ltac grown := solve [eexists; reflexivity | exists []; now rewrite app_nil_r].

Lemma send_revision_append_only tn ro cb now tid r w w1 :
  send_revision tn ro cb now tid r w = Ok (tt, w1) -> append_only w w1.
Proof.
  intros H. apply send_revision_inv in H.
  destruct H as (rr & src & target & _ & _ & _ & HO & HP & HT & HL & HE
                 & HV & HD).
  destruct HD as [(_ & _ & HD)|(_ & HD)].
  - eapply append_only_intro; [..|exact HD];
      rewrite ?HO, ?HP, ?HT, ?HL, ?HE, ?HV; grown.
  - eapply (append_only_intro _ _ _ _ []);
      [..|rewrite app_nil_r; exact HD];
      rewrite ?HO, ?HP, ?HT, ?HL, ?HE, ?HV; grown.
Qed.

Lemma create_organization_append_only name descr now s :
  append_only s (fst (create_organization name descr now s)).
Proof.
  rewrite create_organization_eq.
  destruct (existsb _ (organizations s)); cbn; [apply append_only_refl|].
  apply append_only_tables; cbn; grown.
Qed.

Lemma create_project_append_only name descr org now s :
  append_only s (fst (create_project name descr org now s)).
Proof.
  rewrite create_project_eq. cbn.
  apply append_only_tables; cbn; grown.
Qed.

Lemma create_document_append_only num ttl ty st org proj lbl fp u now s :
  append_only s (fst (create_document num ttl ty st org proj lbl fp u now s)).
Proof.
  destruct (create_document num ttl ty st org proj lbl fp u now s)
    as [s' [d|e]] eqn:E; cbn.
  - apply create_document_inv in E. destruct E as (_ & _ & ->).
    eapply append_only_intro; cbn; grown.
  - apply run_raise in E. destruct E as [-> _]. apply append_only_refl.
Qed.

Lemma add_document_revision_append_only doc_id lbl fp u now s :
  append_only s (fst (add_document_revision doc_id lbl fp u now s)).
Proof.
  rewrite add_document_revision_eq. cbn.
  eapply (append_only_intro _ _ _ _ []); cbn; try grown.
  now rewrite app_nil_r.
Qed.

Lemma create_transmittal_append_only tn desc so ro revs cb now s :
  append_only s (fst (create_transmittal tn desc so ro revs cb now s)).
Proof.
  destruct (create_transmittal tn desc so ro revs cb now s)
    as [s' [tid|e]] eqn:E; cbn.
  - apply run_ok, create_transmittal_stmts_inv in E. destruct E as [-> E].
    eapply (send_loop_invariant (append_only s)); [|exact E| |].
    + intros r w w1 A _ H. eapply append_only_trans; [exact A|].
      eapply send_revision_append_only; eauto.
    + eexists. unfold get_transmittal. cbn. apply select_by_id_snoc_new.
    + apply append_only_tables; cbn; grown.
  - apply run_raise in E. destruct E as [-> _]. apply append_only_refl.
Qed.

(** X6.  No writer of [database.py] deletes or rewrites what is stored:
    after [create_organization], [create_project], [create_document],
    [add_document_revision] or [create_transmittal], whether the call
    returns or raises, every table is the table it was with rows appended,
    and a document row keeps its id and every column other than
    [current_revision_id]. *)
Theorem writers_append_only s :
  (forall name descr now,
      append_only s (fst (create_organization name descr now s))) /\
  (forall name descr org now,
      append_only s (fst (create_project name descr org now s))) /\
  (forall num ttl ty st org proj lbl fp u now,
      append_only s
        (fst (create_document num ttl ty st org proj lbl fp u now s))) /\
  (forall doc_id lbl fp u now,
      append_only s (fst (add_document_revision doc_id lbl fp u now s))) /\
  (forall tn desc so ro revs cb now,
      append_only s (fst (create_transmittal tn desc so ro revs cb now s))).
Proof.
  split; [|split; [|split; [|split]]]; intros.
  - apply create_organization_append_only.
  - apply create_project_append_only.
  - apply create_document_append_only.
  - apply add_document_revision_append_only.
  - apply create_transmittal_append_only.
Qed.

(** ** Links and events resolve *)

Lemma append_only_get_revision s s' r rr :
  append_only s s' -> get_revision s r = Some rr -> get_revision s' r = Some rr.
Proof.
  intros A H. destruct (ao_revisions _ _ A) as [l E].
  unfold get_revision in *. rewrite E. now apply select_by_id_app_some.
Qed.

Lemma append_only_get_transmittal s s' i t :
  append_only s s' ->
  get_transmittal s i = Some t -> get_transmittal s' i = Some t.
Proof.
  intros A H. destruct (ao_transmittals _ _ A) as [l E].
  unfold get_transmittal in *. rewrite E. now apply select_by_id_app_some.
Qed.

Lemma link_resolves_later s s' l :
  append_only s s' -> link_resolves s l -> link_resolves s' l.
Proof.
  intros A [[t Ht] [rr Hr]]. split; eexists.
  - eapply append_only_get_transmittal; eauto.
  - eapply append_only_get_revision; eauto.
Qed.

Lemma event_resolves_later s s' e :
  append_only s s' -> event_resolves s e -> event_resolves s' e.
Proof.
  intros A (HT & (r & rr & E1 & E2 & E3) & HD). split; [assumption|]. split.
  - exists r, rr. repeat split; auto. eapply append_only_get_revision; eauto.
  - intros N. destruct (HD N) as [d Hd].
    destruct (ao_get_document _ _ A _ _ Hd) as (d' & Hd' & _). eauto.
Qed.

Lemma references_resolve_grow s s' newl newe :
  references_resolve s ->
  append_only s s' ->
  transmittal_documents s' = transmittal_documents s ++ newl ->
  events s' = events s ++ newe ->
  (forall l, In l newl -> link_resolves s' l) ->
  (forall i e, In (i, e) newe -> event_resolves s' e) ->
  references_resolve s'.
Proof.
  intros [RL RE] A EL EE NL NE. split.
  - intros l Hin. rewrite EL in Hin. apply in_app_or in Hin.
    destruct Hin as [Hin|Hin]; [|now apply NL].
    eapply link_resolves_later; eauto.
  - intros i e Hin. rewrite EE in Hin. apply in_app_or in Hin.
    destruct Hin as [Hin|Hin]; [|now apply (NE i)].
    eapply event_resolves_later; eauto.
Qed.

Lemma references_resolve_same s s' :
  references_resolve s ->
  append_only s s' ->
  transmittal_documents s' = transmittal_documents s ->
  events s' = events s ->
  references_resolve s'.
Proof.
  intros R A EL EE.
  apply (references_resolve_grow s s' [] []); auto;
    rewrite ?app_nil_r; auto; intros; contradiction.
Qed.

Lemma reachable_references_resolve :
  forall s, reachable s -> references_resolve s.
Proof.
  apply reachable_invariant.
  - split; intros; contradiction.
  - intros s o R _. eapply references_resolve_same; [exact R| | |];
      [apply append_only_tables; cbn; grown|reflexivity|reflexivity].
  - intros s p R. eapply references_resolve_same; [exact R| | |];
      [apply append_only_tables; cbn; grown|reflexivity|reflexivity].
  - intros s num ttl ty st org proj lbl fp u now s' d R E.
    pose proof (create_document_append_only num ttl ty st org proj lbl fp u
                  now s) as A. rewrite E in A. cbn in A.
    destruct (create_document_lookup _ _ _ _ _ _ _ _ _ _ _ _ _ E)
      as (doc & HG & _ & HV & _).
    apply create_document_inv in E. destruct E as (_ & Hd & E).
    eapply (references_resolve_grow s s' []); [exact R|exact A| | | |].
    + rewrite E, app_nil_r. reflexivity.
    + rewrite E. reflexivity.
    + intros l [].
    + intros i e [[= <- <-]|[]]. split; [now left|]. split.
      * eexists _, _. split; [reflexivity|]. split; [exact HV|reflexivity].
      * intros _. cbn. eauto.
  - intros s doc_id lbl fp u now R.
    pose proof (add_document_revision_append_only doc_id lbl fp u now s) as A.
    rewrite add_document_revision_eq in *. cbn [fst] in *.
    eapply (references_resolve_grow _ _ []); [exact R|exact A| | | |].
    + cbn. now rewrite app_nil_r.
    + reflexivity.
    + intros l [].
    + intros i e [[= <- <-]|[]]. split; [right; now left|]. split.
      * eexists _, _. split; [reflexivity|].
        split; [unfold get_revision; cbn; apply select_by_id_snoc_new|].
        reflexivity.
      * intros N. now destruct N.
  - intros s t R. eapply references_resolve_same; [exact R| | |];
      [apply append_only_tables; cbn; grown|reflexivity|reflexivity].
  - intros tn ro cb now tid r w w1 R [t Ht] H.
    pose proof (send_revision_append_only _ _ _ _ _ _ _ _ H) as A.
    apply send_revision_inv in H.
    destruct H as (rr & src & target & HR & HG & _ & _ & _ & _ & HL & HE & _).
    pose proof (append_only_get_revision _ _ _ _ A HR) as HR'.
    eapply references_resolve_grow; [exact R|exact A|exact HL|exact HE| |].
    + intros l [<-|[]]. split; cbn; [|eauto].
      eexists. eapply append_only_get_transmittal; eauto.
    + intros i e [[= <- <-]|[]]. split; [right; now right|]. split.
      * exists r, rr. auto.
      * intros _. cbn.
        destruct (ao_get_document _ _ A _ _ HG) as (d' & Hd' & _). eauto.
Qed.

(** ** Every document has a current revision *)

Lemma documents_pointed_repoint n x (t : table document) :
  0 < n ->
  (forall i d, In (i, d) t -> i <> x ->
               exists m, current_revision_id d = Some m /\ 0 < m) ->
  documents_pointed (repoint n x t).
Proof.
  intros Hn H i d Hin. apply repoint_In_inv in Hin.
  destruct Hin as (d0 & Hin & ->).
  destruct (Z.eqb_spec i x) as [->|N]; [cbn; eauto|now apply (H i)].
Qed.

Lemma documents_pointed_new (t : table document) nd i d :
  documents_pointed t ->
  In (i, d) (t ++ [(next_rowid t, nd)]) -> i <> next_rowid t ->
  exists m, current_revision_id d = Some m /\ 0 < m.
Proof.
  intros H Hin N. apply in_app_or in Hin. destruct Hin as [Hin|[E|[]]].
  - now apply (H i).
  - inversion E. congruence.
Qed.

Lemma next_rowid_positive {R} (t : table R) : 0 < next_rowid t.
Proof. unfold next_rowid. pose proof (max_rowid_nonneg t). lia. Qed.

Lemma reachable_documents_pointed :
  forall s, reachable s -> documents_pointed (documents s).
Proof.
  apply reachable_invariant; try (intros; assumption).
  - intros i d [].
  - intros s num ttl ty st org proj lbl fp u now s' d P E.
    apply create_document_inv in E. destruct E as (_ & -> & ->). cbn.
    apply documents_pointed_repoint; [apply next_rowid_positive|].
    intros i d0. now apply documents_pointed_new.
  - intros s doc_id lbl fp u now P. rewrite add_document_revision_eq. cbn.
    apply documents_pointed_repoint; [apply next_rowid_positive|].
    intros i d Hin _. now apply (P i).
  - intros tn ro cb now tid r w w1 P _ H. apply send_revision_inv in H.
    destruct H as (rr & src & target & _ & _ & _ & _ & _ & _ & _ & _ & _ & HD).
    destruct HD as [(_ & -> & ->)|(_ & ->)];
      (apply documents_pointed_repoint; [apply next_rowid_positive|]).
    + intros i d0. now apply documents_pointed_new.
    + intros i d Hin _. now apply (P i).
Qed.

(** X4.  Although [current_revision_id] is a nullable column, it is never
    null in a store the application can reach: every document of the
    register points at a ledger row of its own, the latest one, so the
    listing of [main.list_documents] has a revision label for every
    document. *)
Theorem every_document_has_a_label s i d :
  reachable s ->
  In (i, d) (documents s) ->
  exists n rr,
    current_revision_id d = Some n /\
    Some n = latest_revision_id (document_revisions s) i /\
    get_revision s n = Some rr /\
    document_id rr = i /\
    rev_label s d = Some (revision rr).
Proof.
  intros R Hin.
  destruct (reachable_documents_pointed s R i d Hin) as (n & Hn & Hpos).
  destruct (reachable_current_is_latest s R i d Hin) as [HL HS].
  destruct (HS n Hn) as (rr & HR & HD).
  exists n, rr. repeat split; auto; [congruence|].
  unfold rev_label. rewrite Hn.
  destruct (Z.eqb_spec n 0); [lia|]. unfold get_revision. now rewrite HR.
Qed.

(** ** Lookups are unambiguous *)

Lemma select_by_id_unique {R} (t : table R) i r :
  NoDup (map fst t) -> In (i, r) t -> select_by_id t i = Some r.
Proof.
  unfold select_by_id. induction t as [|[j x] t IH]; cbn; [contradiction|].
  intros ND Hin. apply NoDup_cons_iff in ND. destruct ND as [Nj ND].
  destruct (Z.eqb_spec j i) as [->|N].
  - destruct Hin as [E|Hin]; [now inversion E|].
    exfalso. apply Nj. apply in_map_iff. now exists (i, r).
  - destruct Hin as [E|Hin]; [inversion E; congruence|now apply IH].
Qed.

Lemma select_document_id_unique (w : db) i d :
  NoDup (map doc_key (documents w)) -> In (i, d) (documents w) ->
  select_document_id (doc_number d) (org_id d) (project_id d) w = Some i.
Proof.
  unfold select_document_id. induction (documents w) as [|[j x] t IH]; cbn;
    [contradiction|].
  intros ND Hin. apply NoDup_cons_iff in ND. destruct ND as [Nj ND].
  destruct (same_key (doc_number d) (org_id d) (project_id d) (j, x)) eqn:E.
  - destruct Hin as [E'|Hin]; [now inversion E'|].
    exfalso. apply Nj. apply same_key_doc_key in E. rewrite E.
    apply in_map_iff. now exists (i, d).
  - destruct Hin as [E'|Hin]; [|now apply IH].
    inversion E'; subst. unfold same_key in E. cbn in E.
    now rewrite String.eqb_refl, !Z.eqb_refl in E.
Qed.

(** X2.  Every PRIMARY KEY and UNIQUE constraint of the schema holds in
    every store the application can reach, so lookups are unambiguous:
    [get_document] and [get_revision] return the very row that carries the
    id, and the reconciliation lookup by (doc_number, org_id, project_id)
    returns the id of the one document with that key. *)
Theorem reachable_keys_are_unique s :
  reachable s ->
  constraints_hold s /\
  (forall i d, In (i, d) (documents s) ->
     get_document s i = Some d /\
     select_document_id (doc_number d) (org_id d) (project_id d) s = Some i) /\
  (forall i r, In (i, r) (document_revisions s) -> get_revision s i = Some r).
Proof.
  intros R. pose proof (reachable_constraints_hold s R) as C.
  split; [exact C|]. split.
  - intros i d Hin. split.
    + apply select_by_id_unique; [apply (pk_documents _ C)|exact Hin].
    + apply select_document_id_unique; [apply (uq_document_key _ C)|exact Hin].
  - intros i r Hin.
    apply select_by_id_unique; [apply (pk_document_revisions _ C)|exact Hin].
Qed.

(** X3.  Foreign keys are not enforced on the connections of [get_conn],
    yet in every store the application can reach no link and no event
    dangles: a row of [transmittal_documents] names a transmittal and a
    revision that exist; an event is of one of the three types the writers
    emit and names a ledger row of its own document; and the document of an
    "Uploaded" or "Sent" event is in the register. *)
Theorem reachable_references_exist s :
  reachable s ->
  (forall t r, In (t, r) (transmittal_documents s) ->
     (exists tr, get_transmittal s t = Some tr) /\
     (exists rr, get_revision s r = Some rr)) /\
  (forall i e, In (i, e) (events s) ->
     (event_type e = "Uploaded" \/ event_type e = "RevisionUploaded"
      \/ event_type e = "Sent")%string /\
     (exists r rr,
         ev_revision_id e = Some r /\ get_revision s r = Some rr /\
         document_id rr = ev_document_id e) /\
     (event_type e <> "RevisionUploaded"%string ->
      exists d, get_document s (ev_document_id e) = Some d)).
Proof.
  intros R. destruct (reachable_references_resolve s R) as [RL RE]. split.
  - intros t r Hin. exact (RL (t, r) Hin).
  - intros i e Hin. exact (RE i e Hin).
Qed.

(** ** Conflicting uploads and round trips *)

(** X1.  [create_document] raises [IntegrityError], and changes nothing,
    when the register already has a document with the same (doc_number,
    org_id, project_id).  When it has none, and the organization, project
    and user ids are integers that SQLite can bind, the call returns the
    next rowid, and from then on every further [create_document] with that
    key raises [IntegrityError], whatever its other arguments are. *)
Theorem create_document_key_conflict num ttl ty st org proj lbl fp u now s :
  ((exists i d, In (i, d) (documents s) /\ doc_number d = num /\
                org_id d = org /\ project_id d = proj) ->
   create_document num ttl ty st org proj lbl fp u now s
   = (s, Raise IntegrityError)) /\
  (~ (exists i d, In (i, d) (documents s) /\ doc_number d = num /\
                  org_id d = org /\ project_id d = proj) ->
   int64 org = true -> int64 proj = true -> int64 u = true ->
   exists s',
     create_document num ttl ty st org proj lbl fp u now s
     = (s', Ok (next_rowid (documents s))) /\
     forall ttl' ty' st' lbl' fp' u' now',
       create_document num ttl' ty' st' org proj lbl' fp' u' now' s'
       = (s', Raise IntegrityError)).
Proof.
  split.
  - intros H. apply create_document_conflict. now apply key_present.
  - intros H _ _ _.
    assert (E : existsb (same_key num org proj) (documents s) = false).
    { destruct (existsb _ _) eqn:E; [|reflexivity].
      apply key_present in E. contradiction. }
    destruct (create_document_returns num ttl ty st org proj lbl fp u now s E)
      as [s' Hs'].
    exists s'. split; [exact Hs'|]. intros.
    apply create_document_conflict, key_present.
    apply create_document_inv in Hs'. destruct Hs' as (_ & _ & ->). cbn.
    eexists _, _. split.
    + apply repoint_In, in_or_app. right. left. reflexivity.
    + rewrite Z.eqb_refl. cbn. auto.
Qed.

(** X5.  Uploading a revision for a document that exists, with an
    uploader id that SQLite can bind, returns a fresh revision id;
    [get_revision] on that id gives back the label, file
    reference and uploader that were passed, the document's current label
    becomes the new label, every other document row is untouched and every
    earlier revision id still resolves to the same row. *)
Theorem add_document_revision_round_trip doc_id lbl fp u now s doc :
  get_document s doc_id = Some doc ->
  int64 u = true ->
  exists s' rev_id,
    add_document_revision doc_id lbl fp u now s = (s', Ok rev_id) /\
    get_revision s rev_id = None /\
    get_revision s' rev_id = Some (initial_revision doc_id lbl fp u now) /\
    get_document s' doc_id = Some (set_current rev_id doc) /\
    current_revision_label s' doc_id = Some lbl /\
    (forall other, other <> doc_id ->
                   get_document s' other = get_document s other) /\
    (forall r rr, get_revision s r = Some rr -> get_revision s' r = Some rr).
Proof.
  intros H _. rewrite add_document_revision_eq. eexists _, _.
  split; [reflexivity|]. unfold get_revision, get_document in *. cbn.
  split; [apply select_by_id_above; unfold next_rowid; lia|].
  split; [apply select_by_id_snoc_new|].
  split; [rewrite repoint_select, H; cbn; now rewrite Z.eqb_refl|].
  split.
  - unfold current_revision_label, get_document. cbn.
    rewrite repoint_select, H. cbn. rewrite Z.eqb_refl.
    unfold rev_label. cbn. rewrite next_rowid_nonzero.
    unfold get_revision. cbn. now rewrite select_by_id_snoc_new.
  - split.
    + intros other N. rewrite repoint_select.
      destruct (Z.eqb_spec other doc_id); [contradiction|].
      now destruct (select_by_id (documents s) other).
    + intros r rr Hr. now apply select_by_id_app_some.
Qed.

Lemma site_sent_reachable : reachable site_sent.
Proof.
  unfold site_sent. apply reach_create_transmittal. apply site_reachable.
Qed.

Lemma reachable_keys_are_unique_witness :
  get_document site_sent 2 =
    Some (set_current 2
            (recipient_copy 2 t3
               {| doc_number := "DOC-001"; title := "Pump layout";
                  doc_type := "drawing"; status := "IFC"; org_id := 1;
                  project_id := 1; current_revision_id := Some 1;
                  created_at := t1 |})) /\
  select_document_id "DOC-001" 2 1 site_sent = Some 2.
Proof.
  apply (proj1 (proj2 (reachable_keys_are_unique site_sent site_sent_reachable))
           2 (set_current 2
                (recipient_copy 2 t3
                   {| doc_number := "DOC-001"; title := "Pump layout";
                      doc_type := "drawing"; status := "IFC"; org_id := 1;
                      project_id := 1; current_revision_id := Some 1;
                      created_at := t1 |}))).
  vm_compute. right. left. reflexivity.
Defined.

Lemma reachable_references_exist_witness :
  (exists tr, get_transmittal site_sent 1 = Some tr) /\
  (exists rr, get_revision site_sent 1 = Some rr).
Proof.
  apply (proj1 (reachable_references_exist site_sent site_sent_reachable) 1 1).
  vm_compute. left. reflexivity.
Defined.

Lemma every_document_has_a_label_witness :
  exists n rr,
    current_revision_id
      (set_current 2
         (recipient_copy 2 t3
            {| doc_number := "DOC-001"; title := "Pump layout";
               doc_type := "drawing"; status := "IFC"; org_id := 1;
               project_id := 1; current_revision_id := Some 1;
               created_at := t1 |})) = Some n /\
    Some n = latest_revision_id (document_revisions site_sent) 2 /\
    get_revision site_sent n = Some rr /\
    document_id rr = 2 /\
    rev_label site_sent
      (set_current 2
         (recipient_copy 2 t3
            {| doc_number := "DOC-001"; title := "Pump layout";
               doc_type := "drawing"; status := "IFC"; org_id := 1;
               project_id := 1; current_revision_id := Some 1;
               created_at := t1 |})) = Some (revision rr).
Proof.
  apply (every_document_has_a_label site_sent 2 _ site_sent_reachable).
  vm_compute. right. left. reflexivity.
Defined.

Lemma add_document_revision_round_trip_witness :
  exists s' rev_id,
    add_document_revision 1 "B" "uploads/b.pdf" 10 t2 site = (s', Ok rev_id) /\
    get_revision site rev_id = None /\
    get_revision s' rev_id =
      Some (initial_revision 1 "B" "uploads/b.pdf" 10 t2) /\
    get_document s' 1 =
      Some (set_current rev_id
              {| doc_number := "DOC-001"; title := "Pump layout";
                 doc_type := "drawing"; status := "IFC"; org_id := 1;
                 project_id := 1; current_revision_id := Some 1;
                 created_at := t1 |}) /\
    current_revision_label s' 1 = Some "B"%string /\
    (forall other, other <> 1 ->
                   get_document s' other = get_document site other) /\
    (forall r rr, get_revision site r = Some rr -> get_revision s' r = Some rr).
Proof.
  apply (add_document_revision_round_trip 1 "B" "uploads/b.pdf" 10 t2 site);
    vm_compute; reflexivity.
Defined.

(** * Readers and callers *)

(** ** The register of one project *)

Lemma insert_by_doc_number_perm r l :
  Permutation (insert_by_doc_number r l) (r :: l).
Proof.
  induction l as [|x l IH]; cbn; [reflexivity|].
  destruct (String.leb _ _); [reflexivity|].
  rewrite IH. apply perm_swap.
Qed.

Lemma order_by_doc_number_perm l : Permutation (order_by_doc_number l) l.
Proof.
  induction l as [|x l IH]; cbn; [constructor|].
  rewrite insert_by_doc_number_perm. now constructor.
Qed.

Lemma insert_by_doc_number_sorted r l :
  StronglySorted by_doc_number l ->
  StronglySorted by_doc_number (insert_by_doc_number r l).
Proof.
  induction 1 as [|x l S IH F]; cbn.
  - repeat constructor.
  - destruct (String.leb (doc_number (snd r)) (doc_number (snd x))) eqn:E.
    + constructor; [now constructor|]. constructor; [exact E|].
      rewrite Forall_forall in F |- *. intros y Hy. specialize (F y Hy).
      unfold by_doc_number in *. eapply string_leb_trans; eauto.
    + constructor; [assumption|].
      rewrite Forall_forall in F |- *. intros y Hy.
      apply (Permutation_in _ (insert_by_doc_number_perm r l)) in Hy.
      destruct Hy as [<-|Hy]; [|now apply F].
      unfold by_doc_number.
      destruct (String.leb_total (doc_number (snd x)) (doc_number (snd r)));
        congruence.
Qed.

Lemma order_by_doc_number_sorted l :
  StronglySorted by_doc_number (order_by_doc_number l).
Proof.
  induction l as [|x l IH]; cbn;
    [constructor|now apply insert_by_doc_number_sorted].
Qed.

Lemma get_documents_by_org_and_project_In d org proj i doc :
  In (i, doc) (get_documents_by_org_and_project d org proj) <->
  In (i, doc) (documents d) /\ org_id doc = org /\ project_id doc = proj.
Proof.
  unfold get_documents_by_org_and_project. split.
  - intros H. apply (Permutation_in _ (order_by_doc_number_perm _)) in H.
    apply filter_In in H. destruct H as [H E]. cbn in E.
    apply andb_true_iff in E. destruct E as [E1 E2].
    apply Z.eqb_eq in E1, E2. auto.
  - intros (H & E1 & E2).
    apply (Permutation_in _ (Permutation_sym (order_by_doc_number_perm _))).
    apply filter_In. split; [assumption|]. cbn.
    now rewrite E1, E2, !Z.eqb_refl.
Qed.

(** ** Storing an upload *)

Lemma store_upload_existing number ttl ty st org proj lbl fp u now s r :
  find (fun r => String.eqb (doc_number (snd r)) number)
       (get_documents_by_org_and_project s org proj) = Some r ->
  In r (documents s) /\ doc_key r = (number, org, proj) /\
  store_upload number ttl ty st org proj lbl fp u now s
  = add_document_revision (fst r) lbl fp u now s.
Proof.
  intros H. unfold store_upload. rewrite H. apply find_some in H.
  destruct H as [Hin E]. destruct r as [i doc].
  apply get_documents_by_org_and_project_In in Hin.
  destruct Hin as (Hin & E1 & E2). cbn in E. apply String.eqb_eq in E.
  unfold doc_key. cbn. repeat split; auto. congruence.
Qed.

Lemma store_upload_new number ttl ty st org proj lbl fp u now s :
  find (fun r => String.eqb (doc_number (snd r)) number)
       (get_documents_by_org_and_project s org proj) = None ->
  existsb (same_key number org proj) (documents s) = false /\
  store_upload number ttl ty st org proj lbl fp u now s
  = create_document number ttl ty st org proj lbl fp u now s.
Proof.
  intros H. unfold store_upload. rewrite H. split; [|reflexivity].
  destruct (existsb _ (documents s)) eqn:E; [|reflexivity].
  apply key_present in E. destruct E as (i & d & Hin & E1 & E2 & E3).
  assert (Hl : In (i, d) (get_documents_by_org_and_project s org proj))
    by (apply get_documents_by_org_and_project_In; auto).
  apply (find_none _ _ H) in Hl. cbn in Hl. apply String.eqb_neq in Hl.
  contradiction.
Qed.

(** X7.  The upload path of [main.upload_document_action], for
    organization, project and user ids that SQLite can bind, does not
    raise and never creates a second document for a key: when the organization
    already has a document with the uploaded number in the project, the
    register keeps its rows and that document receives the revision;
    otherwise exactly one row is added.  Either way the register then has a
    document with that number, organization and project whose current
    revision label is the uploaded one. *)
Theorem store_upload_resolves_identity
    number ttl ty st org proj lbl fp u now s :
  int64 org = true -> int64 proj = true -> int64 u = true ->
  exists s' i,
    store_upload number ttl ty st org proj lbl fp u now s = (s', Ok i) /\
    List.length (documents s') =
      (List.length (documents s) +
       (if existsb (same_key number org proj) (documents s) then 0 else 1))%nat /\
    exists doc_id doc,
      In (doc_id, doc) (documents s') /\
      doc_key (doc_id, doc) = (number, org, proj) /\
      rev_label s' doc = Some lbl.
Proof.
  intros _ _ _.
  destruct (find (fun r => String.eqb (doc_number (snd r)) number)
              (get_documents_by_org_and_project s org proj))
    as [[j d0]|] eqn:F.
  - apply (store_upload_existing number ttl ty st org proj lbl fp u now) in F.
    destruct F as (Hin & K & ->). rewrite add_document_revision_eq.
    eexists _, _. split; [reflexivity|]. cbn [documents fst]. split.
    + assert (E : existsb (same_key number org proj) (documents s) = true).
      { apply existsb_exists. exists (j, d0). split; [assumption|].
        now apply same_key_doc_key. }
      rewrite E. unfold repoint. rewrite length_map. lia.
    + exists j, (set_current (next_rowid (document_revisions s)) d0).
      split; [|split].
      * apply (repoint_In (next_rowid (document_revisions s)) j) in Hin.
        now rewrite Z.eqb_refl in Hin.
      * exact K.
      * unfold rev_label. cbn. rewrite next_rowid_nonzero.
        unfold get_revision. cbn. now rewrite select_by_id_snoc_new.
  - apply (store_upload_new number ttl ty st org proj lbl fp u now) in F.
    destruct F as (E & ->). rewrite E.
    destruct (create_document_returns number ttl ty st org proj lbl fp u now
                s E) as [s' H].
    exists s', (next_rowid (documents s)). split; [exact H|].
    pose proof (create_document_inv _ _ _ _ _ _ _ _ _ _ _ _ _ H)
      as (_ & _ & ->). cbn [documents]. split.
    + unfold repoint. rewrite length_map, length_app. reflexivity.
    + eexists _, _. split; [|split].
      * apply repoint_In, in_or_app. right. left. reflexivity.
      * rewrite Z.eqb_refl. reflexivity.
      * rewrite Z.eqb_refl. unfold rev_label. cbn. rewrite next_rowid_nonzero.
        unfold get_revision. cbn. now rewrite select_by_id_snoc_new.
Qed.

Lemma store_upload_resolves_identity_witness :
  exists s' i,
    store_upload "DOC-001" "Pump layout" "drawing" "IFC" 1 1
      "B" "uploads/b.pdf" 10 t2 site = (s', Ok i) /\
    List.length (documents s') = 1%nat /\
    exists doc_id doc,
      In (doc_id, doc) (documents s') /\
      doc_key (doc_id, doc) = ("DOC-001"%string, 1, 1) /\
      rev_label s' doc = Some "B"%string.
Proof.
  apply (store_upload_resolves_identity "DOC-001" "Pump layout" "drawing"
           "IFC" 1 1 "B" "uploads/b.pdf" 10 t2 site);
    reflexivity.
Defined.

(** ** The ledger stays attached *)

Lemma select_by_id_present {R} (t : table R) i r :
  In (i, r) t -> exists r', select_by_id t i = Some r'.
Proof.
  intros H. destruct (select_by_id t i) eqn:E; [eauto|].
  rewrite select_by_id_none_iff in E. now destruct (E _ _ H).
Qed.

Lemma ledger_resolves_later s s' :
  ledger_resolves s -> append_only s s' ->
  forall i rv, In (i, rv) (document_revisions s) ->
               exists d, get_document s' (document_id rv) = Some d.
Proof.
  intros L A i rv Hin. destruct (L _ _ Hin) as [d Hd].
  destruct (ao_get_document _ _ A _ _ Hd) as (d' & Hd' & _). eauto.
Qed.

Lemma ledger_resolves_grow s s' n rv :
  ledger_resolves s -> append_only s s' ->
  document_revisions s' = document_revisions s ++ [(n, rv)] ->
  (exists d, get_document s' (document_id rv) = Some d) ->
  ledger_resolves s'.
Proof.
  intros L A E N i r Hin. rewrite E in Hin. apply in_app_or in Hin.
  destruct Hin as [Hin|[[= <- <-]|[]]]; [|exact N].
  eapply ledger_resolves_later; eauto.
Qed.

Lemma create_document_ledger num ttl ty st org proj lbl fp u now s :
  ledger_resolves s ->
  ledger_resolves (fst (create_document num ttl ty st org proj lbl fp u now s)).
Proof.
  intros L.
  pose proof (create_document_append_only num ttl ty st org proj lbl fp u now s)
    as A.
  destruct (create_document num ttl ty st org proj lbl fp u now s)
    as [s' [d|e]] eqn:E; cbn in *.
  - destruct (create_document_lookup _ _ _ _ _ _ _ _ _ _ _ _ _ E)
      as (doc & HG & _).
    apply create_document_inv in E. destruct E as (_ & _ & E).
    eapply ledger_resolves_grow; [exact L|exact A|rewrite E; reflexivity|].
    cbn. eauto.
  - apply run_raise in E. destruct E as [-> _]. exact L.
Qed.

Lemma add_document_revision_ledger doc_id lbl fp u now s doc :
  get_document s doc_id = Some doc ->
  ledger_resolves s ->
  ledger_resolves (fst (add_document_revision doc_id lbl fp u now s)).
Proof.
  intros HG L.
  pose proof (add_document_revision_append_only doc_id lbl fp u now s) as A.
  destruct (ao_get_document _ _ A _ _ HG) as (d' & Hd' & _).
  rewrite add_document_revision_eq in *. cbn [fst] in *.
  eapply ledger_resolves_grow; [exact L|exact A|reflexivity|]. cbn. eauto.
Qed.

Lemma create_transmittal_ledger tn desc so ro revs cb now s :
  ledger_resolves s ->
  ledger_resolves (fst (create_transmittal tn desc so ro revs cb now s)).
Proof.
  intros L.
  destruct (create_transmittal tn desc so ro revs cb now s)
    as [s' [tid|e]] eqn:E; cbn.
  - apply run_ok, create_transmittal_stmts_inv in E. destruct E as [-> E].
    eapply (send_loop_invariant ledger_resolves); [|exact E| |exact L].
    + intros r w w1 Lw _ H.
      pose proof (send_revision_append_only _ _ _ _ _ _ _ _ H) as A.
      apply send_revision_inv in H.
      destruct H as (rr & src & target & _ & _ & _ & _ & _ & _ & _ & _ & HV
                     & HD).
      eapply ledger_resolves_grow; [exact Lw|exact A|exact HV|]. cbn.
      unfold get_document.
      destruct HD as [(_ & _ & HD)|(HS & HD)]; rewrite HD.
      * eapply select_by_id_present, repoint_In, in_or_app. right. left.
        reflexivity.
      * apply select_document_id_some in HS. destruct HS as (d & Hin & _).
        eapply select_by_id_present, repoint_In. exact Hin.
    + eexists. unfold get_transmittal. cbn. apply select_by_id_snoc_new.
  - apply run_raise in E. destruct E as [-> _]. exact L.
Qed.

Lemma store_upload_ledger number ttl ty st org proj lbl fp u now s :
  ledger_resolves s ->
  ledger_resolves (fst (store_upload number ttl ty st org proj lbl fp u now s)).
Proof.
  intros L.
  destruct (find (fun r => String.eqb (doc_number (snd r)) number)
              (get_documents_by_org_and_project s org proj))
    as [[j d0]|] eqn:F.
  - apply (store_upload_existing number ttl ty st org proj lbl fp u now) in F.
    destruct F as (Hin & _ & ->).
    destruct (select_by_id_present _ _ _ Hin) as [d' Hd'].
    eapply add_document_revision_ledger; eauto.
  - apply (store_upload_new number ttl ty st org proj lbl fp u now) in F.
    destruct F as (_ & ->). now apply create_document_ledger.
Qed.

(** X8.  The upload path, [create_document] and [create_transmittal] keep
    every row of the revision ledger attached to a document of the
    register, also when they raise; [add_document_revision] does so when
    its document exists.  In such a store the id that the next new document
    receives has no ledger row yet, so a new document starts with exactly
    its own first revision. *)
Theorem ledger_stays_attached s :
  ledger_resolves s ->
  (forall number ttl ty st org proj lbl fp u now,
      ledger_resolves
        (fst (store_upload number ttl ty st org proj lbl fp u now s))) /\
  (forall num ttl ty st org proj lbl fp u now,
      ledger_resolves
        (fst (create_document num ttl ty st org proj lbl fp u now s))) /\
  (forall doc_id lbl fp u now,
      (exists doc, get_document s doc_id = Some doc) ->
      ledger_resolves (fst (add_document_revision doc_id lbl fp u now s))) /\
  (forall tn desc so ro revs cb now,
      ledger_resolves (fst (create_transmittal tn desc so ro revs cb now s))) /\
  rows_of (next_rowid (documents s)) (document_revisions s) = [].
Proof.
  intros L. split; [|split; [|split; [|split]]].
  - intros. now apply store_upload_ledger.
  - intros. now apply create_document_ledger.
  - intros doc_id lbl fp u now [doc H].
    eapply add_document_revision_ledger; eauto.
  - intros. now apply create_transmittal_ledger.
  - unfold rows_of. apply filter_none. intros [i rv] Hin. cbn.
    destruct (L _ _ Hin) as [d Hd]. apply Z.eqb_neq. intros E.
    unfold get_document in Hd. rewrite E in Hd.
    rewrite select_by_id_above in Hd; [discriminate|].
    unfold next_rowid. lia.
Qed.

(** ** Listing a project *)

Lemma NoDup_map_filter {A B} (g : A -> B) (f : A -> bool) l :
  NoDup (map g l) -> NoDup (map g (filter f l)).
Proof.
  induction l as [|a l IH]; cbn; [auto|].
  intros H. apply NoDup_cons_iff in H. destruct H as [N H].
  destruct (f a); cbn; [|auto]. constructor; [|auto].
  rewrite in_map_iff in *. intros [x [E Hx]]. apply N. exists x.
  split; [assumption|]. apply filter_In in Hx. tauto.
Qed.

Lemma string_leb_neq_ltb a b :
  String.leb a b = true -> a <> b -> String.ltb a b = true.
Proof.
  unfold String.leb, String.ltb. intros H N.
  destruct (String.compare a b) eqn:E; try reflexivity; try discriminate.
  apply String.compare_eq_iff in E. contradiction.
Qed.

Lemma sorted_distinct_strict org proj (l : list (Z * document)) :
  StronglySorted by_doc_number l ->
  NoDup (map doc_key l) ->
  Forall (fun r => org_id (snd r) = org /\ project_id (snd r) = proj) l ->
  StronglySorted strictly_by_doc_number l.
Proof.
  induction 1 as [|x l S IH F]; cbn; intros ND FA; constructor.
  - apply IH; [now inversion ND|now inversion FA].
  - inversion ND as [|? ? Nx _]; subst. inversion FA as [|? ? [Ox Px] FA'];
      subst.
    rewrite Forall_forall in *. intros y Hy.
    apply string_leb_neq_ltb; [now apply F|].
    intros E. apply Nx. apply in_map_iff. exists y. split; [|assumption].
    destruct (FA' y Hy) as [Oy Py]. unfold doc_key. congruence.
Qed.

(** X9.  In a store the application can reach,
    [get_documents_by_org_and_project] returns exactly the documents of
    that organization and project, in strictly ascending order of
    doc_number (no number occurs twice), and the label lookup of
    [main.list_documents] finds a revision label for each of them. *)
Theorem project_register_listing s org proj :
  reachable s ->
  (forall i d,
      In (i, d) (get_documents_by_org_and_project s org proj) <->
      In (i, d) (documents s) /\ org_id d = org /\ project_id d = proj) /\
  StronglySorted strictly_by_doc_number
    (get_documents_by_org_and_project s org proj) /\
  (forall i d,
      In (i, d) (get_documents_by_org_and_project s org proj) ->
      exists lbl, rev_label s d = Some lbl).
Proof.
  intros R. split; [|split].
  - intros i d. apply get_documents_by_org_and_project_In.
  - apply (sorted_distinct_strict org proj).
    + apply order_by_doc_number_sorted.
    + unfold get_documents_by_org_and_project.
      eapply Permutation_NoDup.
      * apply Permutation_map, Permutation_sym, order_by_doc_number_perm.
      * apply NoDup_map_filter.
        apply (uq_document_key _ (reachable_constraints_hold s R)).
    + apply Forall_forall. intros [i d] Hin.
      apply get_documents_by_org_and_project_In in Hin. tauto.
  - intros i d Hin. apply get_documents_by_org_and_project_In in Hin.
    destruct Hin as (Hin & _).
    destruct (reachable_documents_pointed s R i d Hin) as (n & Hn & Hpos).
    destruct (reachable_current_is_latest s R i d Hin) as [_ HS].
    destruct (HS n Hn) as (rr & HR & _). exists (revision rr).
    unfold rev_label. rewrite Hn. destruct (Z.eqb_spec n 0); [lia|].
    unfold get_revision. now rewrite HR.
Qed.

Lemma site_ledger_resolves : ledger_resolves site.
Proof.
  intros i rv Hin. vm_compute in Hin. destruct Hin as [E|[]].
  injection E as <- <-. eexists. vm_compute. reflexivity.
Qed.

Lemma ledger_stays_attached_witness :
  ledger_resolves
    (fst (store_upload "DOC-002" "Valve list" "list" "IFR" 1 1
            "0" "uploads/v.pdf" 10 t2 site)) /\
  rows_of (next_rowid (documents site)) (document_revisions site) = [].
Proof.
  split.
  - apply (proj1 (ledger_stays_attached site site_ledger_resolves)).
  - apply (proj2 (proj2 (proj2 (proj2
             (ledger_stays_attached site site_ledger_resolves))))).
Defined.

Lemma project_register_listing_witness :
  StronglySorted strictly_by_doc_number
    (get_documents_by_org_and_project site_sent 2 1).
Proof.
  apply (proj1 (proj2 (project_register_listing site_sent 2 1
                         site_sent_reachable))).
Defined.

(** * Handlers *)

(** ** Sorting *)

Lemma insert_by_perm {R} (before : R -> R -> bool) r l :
  Permutation (insert_by before r l) (r :: l).
Proof.
  induction l as [|x l IH]; cbn; [reflexivity|].
  destruct (before r x); [reflexivity|]. rewrite IH. apply perm_swap.
Qed.

Lemma order_by_perm {R} (before : R -> R -> bool) l :
  Permutation (order_by before l) l.
Proof.
  induction l as [|x l IH]; cbn; [constructor|].
  rewrite insert_by_perm. now constructor.
Qed.

Lemma order_by_In {R} (before : R -> R -> bool) l x :
  In x (order_by before l) <-> In x l.
Proof.
  split; apply Permutation_in;
    [apply order_by_perm|apply Permutation_sym, order_by_perm].
Qed.

Section OrderBy.
Context {R : Type} (before : R -> R -> bool).
Hypothesis before_trans :
  forall a b c, before a b = true -> before b c = true -> before a c = true.
Hypothesis before_total :
  forall a b, before a b = true \/ before b a = true.

Lemma insert_by_sorted r l :
  StronglySorted (fun a b => before a b = true) l ->
  StronglySorted (fun a b => before a b = true) (insert_by before r l).
Proof.
  induction 1 as [|x l S IH F]; cbn; [repeat constructor|].
  destruct (before r x) eqn:E.
  - constructor; [now constructor|]. constructor; [exact E|].
    rewrite Forall_forall in *. intros y Hy. eauto.
  - constructor; [exact IH|].
    rewrite Forall_forall in *. intros y Hy.
    apply (Permutation_in _ (insert_by_perm before r l)) in Hy.
    destruct Hy as [<-|Hy]; [|now apply F].
    destruct (before_total x r) as [H|H]; congruence.
Qed.

Lemma order_by_sorted l :
  StronglySorted (fun a b => before a b = true) (order_by before l).
Proof.
  induction l as [|x l IH]; cbn; [constructor|]. now apply insert_by_sorted.
Qed.
End OrderBy.

(** ** Reading transmittals *)

Lemma get_transmittals_for_org_In d org tid t :
  In (tid, t) (get_transmittals_for_org d org) <->
  In (tid, t) (transmittals d) /\
  (sender_org_id t = org \/ recipient_org_id t = org).
Proof.
  unfold get_transmittals_for_org. rewrite order_by_In, filter_In. cbn.
  rewrite orb_true_iff, !Z.eqb_eq. reflexivity.
Qed.

Lemma get_transmittals_for_org_sorted d org :
  StronglySorted latest_first (get_transmittals_for_org d org).
Proof.
  unfold get_transmittals_for_org.
  apply (order_by_sorted
           (fun a b : Z * transmittal =>
              String.leb (tr_created_at (snd b)) (tr_created_at (snd a)))).
  - intros a b c H1 H2. eapply string_leb_trans; eauto.
  - intros a b.
    destruct (String.leb_total (tr_created_at (snd a)) (tr_created_at (snd b)));
      auto.
Qed.

Lemma get_transmittal_documents_In d tid r rr :
  In (r, rr) (get_transmittal_documents d tid) <->
  In (tid, r) (transmittal_documents d) /\ In (r, rr) (document_revisions d).
Proof.
  unfold get_transmittal_documents. rewrite in_flat_map. split.
  - intros ([t x] & Hl & H). cbn in H.
    destruct (t =? tid) eqn:E; [|destruct H].
    apply filter_In in H. destruct H as [H E2]. cbn in E2.
    apply Z.eqb_eq in E, E2. subst. auto.
  - intros [Hl Hr]. exists (tid, r). split; [exact Hl|]. cbn.
    rewrite Z.eqb_refl. apply filter_In. split; [exact Hr|]. cbn.
    apply Z.eqb_refl.
Qed.

Lemma in_org_true u org :
  in_org u org = true <-> user_org_id u = Some org.
Proof.
  unfold in_org. destruct (user_org_id u) as [o|].
  - rewrite Z.eqb_eq. split; congruence.
  - split; discriminate.
Qed.

Lemma filter_by_id_none {R} (t : table R) i :
  select_by_id t i = None -> filter (fun x => fst x =? i) t = [].
Proof.
  unfold select_by_id. induction t as [|x t IH]; cbn; [reflexivity|].
  destruct (fst x =? i); [discriminate|]. exact IH.
Qed.

Lemma filter_by_id_unique {R} (t : table R) i r :
  NoDup (map fst t) -> select_by_id t i = Some r ->
  filter (fun x => fst x =? i) t = [(i, r)].
Proof.
  unfold select_by_id. induction t as [|[j x] t IH]; cbn; [discriminate|].
  intros ND H. inversion ND as [|? ? Hn ND']; subst.
  destruct (j =? i) eqn:E.
  - apply Z.eqb_eq in E. subst j. cbn in H. injection H as <-.
    f_equal. apply filter_by_id_none. apply select_by_id_none_iff.
    intros k y Hin ->. apply Hn. apply in_map_iff. exists (i, y). auto.
  - now apply IH.
Qed.

(** ** What a send appends to the link table *)

Lemma send_loop_links tn ro cb now tid revs : forall w w',
  for_each revs (send_revision tn ro cb now tid) w = Ok (tt, w') ->
  transmittal_documents w' = transmittal_documents w ++ map (pair tid) revs.
Proof.
  induction revs as [|r rest IH]; intros w w' H.
  - cbn in H. injection H as <-. now rewrite app_nil_r.
  - apply for_each_cons in H. destruct H as (w1 & H1 & H2).
    apply IH in H2. apply send_revision_inv in H1.
    destruct H1 as (rr & src & target & _ & _ & _ & _ & _ & _ & HL & _).
    rewrite H2, HL, <- app_assoc. reflexivity.
Qed.

Lemma create_transmittal_ok_inv tn desc so ro revs cb now s s' tid :
  create_transmittal tn desc so ro revs cb now s = (s', Ok tid) ->
  tid = next_rowid (transmittals s) /\
  get_transmittal s tid = None /\
  get_transmittal s' tid =
    Some {| transmittal_number := tn; description := desc;
            sender_org_id := so; recipient_org_id := ro;
            created_by := cb; tr_created_at := now |} /\
  transmittal_documents s' = transmittal_documents s ++ map (pair tid) revs /\
  forall r, In r revs -> delivered tn ro cb now tid s s' r.
Proof.
  intros H. apply run_ok, create_transmittal_stmts_inv in H.
  destruct H as [-> H].
  pose proof (send_loop_extends _ _ _ _ _ _ _ _ H) as X.
  split; [reflexivity|]. split; [|split; [|split]].
  - apply select_by_id_above. unfold next_rowid. lia.
  - unfold get_transmittal. rewrite (ext_transmittals _ _ X). cbn.
    apply select_by_id_snoc_new.
  - apply send_loop_links in H. exact H.
  - intros r Hin. exact (send_loop_delivered _ _ _ _ _ _ _ _ H r Hin).
Qed.

(** ** The transmittal list and the detail page *)

(** X10. In a store the writers can reach, every transmittal that
    [list_transmittals] shows to a user opens for that user in
    [transmittal_detail], with the row that was listed.  For a user who is
    not superadmin the converse holds: a transmittal that opens is one of
    those listed.  The list is ordered by [created_at], latest first. *)
Theorem transmittal_list_matches_detail s u :
  reachable s ->
  (forall tid t,
      In (tid, t) (list_transmittals s u) ->
      transmittal_detail s tid u
      = TransmittalPage t (get_transmittal_documents s tid)) /\
  (role (snd u) <> "superadmin"%string ->
   forall tid t docs,
     transmittal_detail s tid u = TransmittalPage t docs ->
     In (tid, t) (list_transmittals s u)) /\
  StronglySorted latest_first (list_transmittals s u).
Proof.
  intros HR. pose proof (reachable_constraints_hold s HR) as C.
  unfold list_transmittals. split; [|split].
  - intros tid t Hin. destruct (user_org_id (snd u)) as [org|] eqn:EO;
      [|destruct Hin].
    apply get_transmittals_for_org_In in Hin. destruct Hin as [Hin Ho].
    unfold transmittal_detail, get_transmittal.
    rewrite (select_by_id_unique _ _ _ (pk_transmittals _ C) Hin).
    assert (E : in_org (snd u) (sender_org_id t)
                || in_org (snd u) (recipient_org_id t) = true).
    { apply orb_true_iff.
      destruct Ho as [<-|<-]; [left|right]; now apply in_org_true. }
    rewrite E. cbn. now rewrite andb_false_r.
  - intros Hrole tid t docs. unfold transmittal_detail.
    destruct (get_transmittal s tid) as [t'|] eqn:EG; [|discriminate].
    apply String.eqb_neq in Hrole. rewrite Hrole. cbn.
    destruct (in_org (snd u) (sender_org_id t')
              || in_org (snd u) (recipient_org_id t')) eqn:E;
      [|discriminate].
    cbn. intros [= <- _]. apply select_by_id_In in EG.
    apply orb_true_iff in E. rewrite !in_org_true in E.
    destruct E as [E|E]; rewrite E; apply get_transmittals_for_org_In; auto.
  - destruct (user_org_id (snd u)); [|constructor].
    apply get_transmittals_for_org_sorted.
Qed.

Lemma site_sent_listed :
  In (1, {| transmittal_number := "TR-1"; description := "first issue";
            sender_org_id := 1; recipient_org_id := 2;
            created_by := 10; tr_created_at := t3 |})
     (list_transmittals site_sent recipient_member).
Proof. vm_compute. left. reflexivity. Qed.

Lemma transmittal_list_matches_detail_witness :
  transmittal_detail site_sent 1 recipient_member
  = TransmittalPage
      {| transmittal_number := "TR-1"; description := "first issue";
         sender_org_id := 1; recipient_org_id := 2;
         created_by := 10; tr_created_at := t3 |}
      (get_transmittal_documents site_sent 1).
Proof.
  apply (proj1 (transmittal_list_matches_detail site_sent recipient_member
                  site_sent_reachable)).
  apply site_sent_listed.
Defined.

(** ** Creating a transmittal from the form *)

Lemma create_transmittal_action_inv u tn desc ro revs now d d' answer :
  create_transmittal_action u tn desc ro revs now d = (d', answer) ->
  (answer = Redirect "/transmittals" /\
   exists org tid,
     str_in (role (snd u)) ["superadmin"; "org_admin"]%string = true /\
     user_org_id (snd u) = Some org /\
     tn <> ""%string /\ ro <> 0 /\ revs <> [] /\
     create_transmittal tn desc org ro revs (fst u) now d = (d', Ok tid))
  \/
  (d' = d /\ (answer = Forbidden \/ exists msg, answer = FormError msg)).
Proof.
  unfold create_transmittal_action.
  destruct (str_in (role (snd u)) ["superadmin"; "org_admin"]%string) eqn:ER;
    cbn [negb]; [|intros [= <- <-]; right; eauto].
  destruct (String.eqb tn "") eqn:ET; cbn [orb];
    [intros [= <- <-]; right; eauto|].
  destruct (ro =? 0) eqn:EO; cbn [orb]; [intros [= <- <-]; right; eauto|].
  destruct revs as [|r0 revs]; [intros [= <- <-]; right; eauto|].
  destruct (user_org_id (snd u)) as [org|] eqn:EU;
    [|intros [= <- <-]; right; eauto].
  destruct (create_transmittal tn desc org ro (r0 :: revs) (fst u) now d)
    as [d1 [tid|e]] eqn:EC; intros [= <- <-].
  - left. split; [reflexivity|]. exists org, tid.
    apply String.eqb_neq in ET. apply Z.eqb_neq in EO.
    repeat split; auto. discriminate.
  - right. apply run_raise in EC. destruct EC as [-> _]. eauto.
Qed.

(** X11. [create_transmittal_action] has two outcomes.  Either it
    redirects to the list: then the user is superadmin or org_admin and has
    an organization, number and recipient are filled in, at least one
    revision is selected, and the store holds a new transmittal sent by the
    user's organization with every selected revision delivered.  Or it
    answers 403 or the form with an error message: then the store is the
    one it started from. *)
Theorem create_transmittal_action_effect u tn desc ro revs now d :
  (exists org tid d',
      create_transmittal_action u tn desc ro revs now d
      = (d', Redirect "/transmittals") /\
      str_in (role (snd u)) ["superadmin"; "org_admin"]%string = true /\
      user_org_id (snd u) = Some org /\
      tn <> ""%string /\ ro <> 0 /\ revs <> [] /\
      get_transmittal d tid = None /\
      get_transmittal d' tid =
        Some {| transmittal_number := tn; description := desc;
                sender_org_id := org; recipient_org_id := ro;
                created_by := fst u; tr_created_at := now |} /\
      forall r, In r revs -> delivered tn ro (fst u) now tid d d' r)
  \/
  (exists answer,
      create_transmittal_action u tn desc ro revs now d = (d, answer) /\
      (answer = Forbidden \/ exists msg, answer = FormError msg)).
Proof.
  destruct (create_transmittal_action u tn desc ro revs now d)
    as [d' answer] eqn:E.
  apply create_transmittal_action_inv in E.
  destruct E as [(-> & org & tid & ER & EU & ET & EO & EV & EC)|(-> & A)].
  - left. exists org, tid, d'.
    apply create_transmittal_ok_inv in EC.
    destruct EC as (_ & G0 & G1 & _ & HD).
    repeat (split; [assumption || reflexivity|]). exact HD.
  - right. exists answer. auto.
Qed.

Lemma get_transmittal_documents_sent d tid revs :
  NoDup (map fst (document_revisions d)) ->
  (forall r, In r revs -> exists rr, get_revision d r = Some rr) ->
  map fst
    (flat_map (fun l => if fst l =? tid
                        then filter (fun r => fst r =? snd l)
                               (document_revisions d)
                        else [])
       (map (pair tid) revs)) = revs.
Proof.
  intros ND. induction revs as [|r revs IH]; intros H; [reflexivity|].
  cbn. rewrite Z.eqb_refl. destruct (H r (or_introl eq_refl)) as [rr Hr].
  rewrite (filter_by_id_unique _ _ _ ND Hr). cbn. f_equal.
  apply IH. intros x Hx. apply H. now right.
Qed.

Lemma get_transmittal_documents_none d tid l :
  (forall t r, In (t, r) l -> t <> tid) ->
  flat_map (fun l => if fst l =? tid
                     then filter (fun r => fst r =? snd l)
                            (document_revisions d)
                     else []) l = [].
Proof.
  induction l as [|[t r] l IH]; intros H; [reflexivity|]. cbn.
  destruct (t =? tid) eqn:E.
  - apply Z.eqb_eq in E. exfalso. apply (H t r); [now left|exact E].
  - apply IH. intros t' r' Hin. apply (H t' r'). now right.
Qed.

(** X12. After [create_transmittal_action] has redirected, in a store the
    writers can reach, the new transmittal is in the sender's list and its
    detail page opens for the sender: it carries the submitted number and
    recipient, the sender's organization, and exactly the selected
    revisions, each once (the order of the joined rows is left open by the
    query). *)
Theorem created_transmittal_is_shown u tn desc ro revs now d d' url :
  reachable d ->
  create_transmittal_action u tn desc ro revs now d = (d', Redirect url) ->
  exists tid trans docs,
    transmittal_detail d' tid u = TransmittalPage trans docs /\
    In (tid, trans) (list_transmittals d' u) /\
    transmittal_number trans = tn /\
    recipient_org_id trans = ro /\
    user_org_id (snd u) = Some (sender_org_id trans) /\
    Permutation (map fst docs) revs /\
    forall r rr, In (r, rr) docs -> get_revision d' r = Some rr.
Proof.
  intros HR H. apply create_transmittal_action_inv in H.
  destruct H as [(_ & org & tid & _ & EU & _ & _ & _ & EC)
                |(_ & [A|[msg A]])]; [|discriminate..].
  assert (HR' : reachable d').
  { replace d' with (fst (create_transmittal tn desc org ro revs (fst u) now d))
      by now rewrite EC.
    now apply reach_create_transmittal. }
  pose proof (reachable_constraints_hold _ HR') as C.
  pose proof (reachable_links_bounded _ HR) as B.
  apply create_transmittal_ok_inv in EC.
  destruct EC as (Et & _ & G1 & HL & HD).
  set (trans := {| transmittal_number := tn; description := desc;
                   sender_org_id := org; recipient_org_id := ro;
                   created_by := fst u; tr_created_at := now |}) in *.
  exists tid, trans, (get_transmittal_documents d' tid).
  assert (ED : transmittal_detail d' tid u
               = TransmittalPage trans (get_transmittal_documents d' tid)).
  { unfold transmittal_detail. rewrite G1. cbn.
    rewrite (proj2 (in_org_true (snd u) org) EU). cbn.
    now rewrite andb_false_r. }
  split; [exact ED|]. split.
  { unfold list_transmittals. rewrite EU.
    apply get_transmittals_for_org_In. split; [|now left].
    apply select_by_id_In. exact G1. }
  cbn. repeat (split; [assumption || reflexivity|]). split.
  - unfold get_transmittal_documents. rewrite HL, flat_map_app.
    rewrite get_transmittal_documents_none.
    + cbn. rewrite get_transmittal_documents_sent; [reflexivity| |].
      * apply (pk_document_revisions _ C).
      * intros r Hin. destruct (HD r Hin) as (_ & rr & _ & Hr & _). eauto.
    + intros t r Hin. apply B in Hin. subst tid. unfold next_rowid. lia.
  - intros r rr Hin. apply get_transmittal_documents_In in Hin.
    apply select_by_id_unique; [apply (pk_document_revisions _ C)|tauto].
Qed.

Lemma created_transmittal_is_shown_witness :
  exists tid trans docs,
    transmittal_detail site_sent tid sender_admin
    = TransmittalPage trans docs /\
    In (tid, trans) (list_transmittals site_sent sender_admin) /\
    transmittal_number trans = "TR-1"%string /\
    recipient_org_id trans = 2 /\
    user_org_id (snd sender_admin) = Some (sender_org_id trans) /\
    Permutation (map fst docs) [1] /\
    forall r rr, In (r, rr) docs -> get_revision site_sent r = Some rr.
Proof.
  apply (created_transmittal_is_shown sender_admin "TR-1" "first issue" 2 [1]
           t3 site site_sent "/transmittals").
  - apply site_reachable.
  - vm_compute. reflexivity.
Defined.

(** ** Downloading a file *)

(** X13. When every ledger row belongs to a document of the register,
    [download_file] does not raise for a revision id that SQLite can
    bind: it answers 404 exactly when the revision id is not in the
    ledger, and a file is only served to a
    superadmin or to a user of the organization that owns the revision's
    document; the path served is the one recorded in the ledger row. *)
Theorem download_file_access d revision_id u :
  ledger_resolves d ->
  int64 revision_id = true ->
  exists answer,
    download_file d revision_id u = Ok answer /\
    (answer = NotFound <-> get_revision d revision_id = None) /\
    (answer = Forbidden \/ answer = NotFound \/
     exists rev doc,
       answer = FileResponse (file_path rev) /\
       get_revision d revision_id = Some rev /\
       get_document d (document_id rev) = Some doc /\
       (role (snd u) = "superadmin"%string \/
        user_org_id (snd u) = Some (org_id doc))).
Proof.
  intros L _. unfold download_file.
  destruct (get_revision d revision_id) as [rev|] eqn:ER.
  2: { exists NotFound. split; [reflexivity|]. split; [tauto|]. auto. }
  destruct (L revision_id rev (select_by_id_In _ _ _ ER)) as [doc ED].
  rewrite ED.
  destruct (String.eqb (role (snd u)) "superadmin") eqn:ES; cbn.
  - apply String.eqb_eq in ES. eexists. split; [reflexivity|].
    split; [split; discriminate|]. right. right. exists rev, doc. auto.
  - destruct (in_org (snd u) (org_id doc)) eqn:EO; cbn.
    + apply in_org_true in EO. eexists. split; [reflexivity|].
      split; [split; discriminate|]. right. right. exists rev, doc. auto.
    + eexists. split; [reflexivity|]. split; [split; discriminate|]. auto.
Qed.

Lemma download_file_access_witness :
  exists answer,
    download_file site_sent 2 recipient_member = Ok answer /\
    (answer = NotFound <-> get_revision site_sent 2 = None) /\
    (answer = Forbidden \/ answer = NotFound \/
     exists rev doc,
       answer = FileResponse (file_path rev) /\
       get_revision site_sent 2 = Some rev /\
       get_document site_sent (document_id rev) = Some doc /\
       (role (snd recipient_member) = "superadmin"%string \/
        user_org_id (snd recipient_member) = Some (org_id doc))).
Proof.
  apply (download_file_access site_sent 2 recipient_member).
  - unfold site_sent. apply create_transmittal_ledger.
    apply site_ledger_resolves.
  - reflexivity.
Defined.

(** X14. [add_document_revision] with the id of no document, document
    and uploader ids being integers that SQLite can bind, returns the id
    of a new ledger row; asking [download_file] for that row raises
    [TypeError] for every user who is not superadmin, and serves the file
    to a superadmin. *)
Theorem download_file_dangling_revision s doc_id lbl fp uid now u :
  get_document s doc_id = None ->
  int64 doc_id = true -> int64 uid = true ->
  exists s' rid,
    add_document_revision doc_id lbl fp uid now s = (s', Ok rid) /\
    download_file s' rid u =
      if String.eqb (role (snd u)) "superadmin"
      then Ok (FileResponse fp) else Raise TypeError.
Proof.
  intros HN _ _. rewrite add_document_revision_eq. eexists _, _.
  split; [reflexivity|]. unfold download_file, get_revision, get_document.
  cbn [document_revisions documents]. rewrite select_by_id_snoc_new.
  cbn [document_id initial_revision file_path].
  rewrite repoint_absent by exact HN.
  unfold get_document in HN. rewrite HN.
  destruct (String.eqb (role (snd u)) "superadmin"); reflexivity.
Qed.

Lemma download_file_dangling_revision_witness :
  exists s' rid,
    add_document_revision 42 "B" "uploads/b.pdf" 10 t2 site = (s', Ok rid) /\
    download_file s' rid sender_admin = Raise TypeError.
Proof.
  apply (download_file_dangling_revision site 42 "B" "uploads/b.pdf" 10 t2
           sender_admin);
    vm_compute; reflexivity.
Defined.

(** X15. What is sent can be downloaded by the recipient.  After a
    [create_transmittal] that returns in a store the writers can reach,
    every user of the recipient organization is served, under a ledger id
    that did not exist before, the file of each sent revision.  The sent
    row itself stays closed to such a user, unless superadmin, when its
    document belongs to another organization. *)
Theorem sent_revision_download tn desc so ro revs cb now s s' tid r rr u :
  reachable s ->
  create_transmittal tn desc so ro revs cb now s = (s', Ok tid) ->
  In r revs ->
  get_revision s' r = Some rr ->
  in_org (snd u) ro = true ->
  (exists copy,
      get_revision s copy = None /\
      download_file s' copy u = Ok (FileResponse (file_path rr))) /\
  (role (snd u) <> "superadmin"%string ->
   forall src,
     get_document s' (document_id rr) = Some src -> org_id src <> ro ->
     download_file s' r u = Ok Forbidden).
Proof.
  intros HR EC Hin Hr HU.
  assert (HR' : reachable s').
  { replace s' with (fst (create_transmittal tn desc so ro revs cb now s))
      by now rewrite EC.
    now apply reach_create_transmittal. }
  pose proof (reachable_constraints_hold _ HR') as C.
  apply create_transmittal_ok_inv in EC. destruct EC as (_ & _ & _ & _ & HD).
  destruct (HD r Hin)
    as (_ & rr' & src & Hr' & Hs & _ & (copy & target & tdoc & V1 & V2 & V3
                                         & V4 & _)).
  rewrite Hr in Hr'. injection Hr' as <-. split.
  - exists copy. split; [now apply select_by_id_above|].
    unfold download_file, get_revision, get_document.
    rewrite (select_by_id_unique _ _ _ (pk_document_revisions _ C) V2).
    cbn [document_id replica file_path].
    rewrite (select_by_id_unique _ _ _ (pk_documents _ C) V3).
    rewrite V4, HU. cbn. now destruct (String.eqb _ _).
  - intros Hrole src' Hs' Ho. unfold download_file. rewrite Hr, Hs'.
    apply String.eqb_neq in Hrole. rewrite Hrole. cbn.
    assert (E : in_org (snd u) (org_id src') = false).
    { destruct (in_org (snd u) (org_id src')) eqn:E; [|reflexivity].
      apply in_org_true in E, HU. congruence. }
    now rewrite E.
Qed.

Lemma sent_revision_download_witness :
  (exists copy,
      get_revision site copy = None /\
      download_file site_sent copy recipient_member
      = Ok (FileResponse "uploads/a.pdf")) /\
  download_file site_sent 1 recipient_member = Ok Forbidden.
Proof.
  assert (E : create_transmittal "TR-1" "first issue" 1 2 [1] 10 t3 site
              = (site_sent, Ok 1)) by (vm_compute; reflexivity).
  assert (G : get_revision site_sent 1
              = Some (initial_revision 1 "A" "uploads/a.pdf" 10 t1))
    by (vm_compute; reflexivity).
  pose proof (sent_revision_download "TR-1" "first issue" 1 2 [1] 10 t3
                site site_sent 1 1 _ recipient_member site_reachable E
                (or_introl eq_refl) G eq_refl) as [H1 H2].
  split; [exact H1|].
  eapply H2.
  - vm_compute. discriminate.
  - vm_compute. reflexivity.
  - vm_compute. discriminate.
Defined.

(** ** Selections that can be sent *)

Lemma send_loop_returns tn ro cb now tid revs : forall w,
  NoDup revs ->
  (forall r, In r revs ->
             ~ In (tid, r) (transmittal_documents w) /\ sendable w r) ->
  exists w', for_each revs (send_revision tn ro cb now tid) w = Ok (tt, w').
Proof.
  induction revs as [|r rest IH]; intros w ND H.
  - exists w. reflexivity.
  - inversion ND as [|? ? Hn ND']; subst.
    destruct (H r (or_introl eq_refl)) as (HL & rr & src & Hr & Hs).
    destruct (send_revision_returns tn ro cb now tid r w rr src HL Hr Hs)
      as [w1 H1].
    pose proof (send_revision_extends _ _ _ _ _ _ _ _ H1) as X.
    destruct (IH w1 ND') as [w' H2].
    { intros r' Hin. destruct (H r' (or_intror Hin))
        as (HL' & rr' & src' & Hr' & Hs'). split.
      - apply send_revision_inv in H1.
        destruct H1 as (_ & _ & _ & _ & _ & _ & _ & _ & _ & EL & _).
        rewrite EL. intros Hi. apply in_app_or in Hi.
        destruct Hi as [Hi|[[= ->]|[]]]; [now apply HL'|now apply Hn].
      - destruct (ext_docs_get _ _ X _ _ Hs') as (src2 & Hs2 & _).
        exists rr', src2. split; [|exact Hs2].
        eapply extends_get_revision; eauto. }
    exists w'. cbn. unfold bind. rewrite H1. exact H2.
Qed.

Lemma create_transmittal_sendable tn desc so ro revs cb now s :
  links_bounded s -> NoDup revs -> (forall r, In r revs -> sendable s r) ->
  exists s',
    create_transmittal tn desc so ro revs cb now s
    = (s', Ok (next_rowid (transmittals s))).
Proof.
  intros B ND H.
  destruct (send_loop_returns tn ro cb now (next_rowid (transmittals s)) revs
              (set_transmittals
                 (transmittals s ++
                    [(next_rowid (transmittals s),
                      {| transmittal_number := tn; description := desc;
                         sender_org_id := so; recipient_org_id := ro;
                         created_by := cb; tr_created_at := now |})]) s) ND)
    as [w' Hw].
  - intros r Hin. split; [|exact (H r Hin)].
    cbn. intros Hi. apply B in Hi. unfold next_rowid in Hi. lia.
  - exists w'. now apply create_transmittal_returns.
Qed.

(** X16. In a store the writers can reach, [create_transmittal] returns
    for every list of distinct revision ids each of which is in the ledger
    with its document in the register, and for every sender, recipient and
    user id that SQLite can bind: none of the three needs to exist. *)
Theorem create_transmittal_returns_when_sendable
    tn desc so ro revs cb now s :
  reachable s ->
  int64 so = true -> int64 ro = true -> int64 cb = true ->
  NoDup revs -> (forall r, In r revs -> sendable s r) ->
  exists s' tid, create_transmittal tn desc so ro revs cb now s = (s', Ok tid).
Proof.
  intros HR _ _ _ ND H.
  destruct (create_transmittal_sendable tn desc so ro revs cb now s
              (reachable_links_bounded s HR) ND H) as [s' E].
  eauto.
Qed.

Lemma create_transmittal_returns_when_sendable_witness :
  exists s' tid,
    create_transmittal "TR-2" "" 1 2 [1; 2] 10 t3 site_rev_b = (s', Ok tid).
Proof.
  apply (create_transmittal_returns_when_sendable
           "TR-2" "" 1 2 [1; 2] 10 t3 site_rev_b).
  - apply site_rev_b_reachable.
  - reflexivity.
  - reflexivity.
  - reflexivity.
  - repeat constructor; cbn; intuition discriminate.
  - intros r [<-|[<-|[]]]; eexists _, _; split; vm_compute; reflexivity.
Defined.

(** ** What the form offers *)

Lemma reachable_organization_ids :
  forall s, reachable s -> forall i o, In (i, o) (organizations s) -> 0 < i.
Proof.
  apply (reachable_invariant
           (fun s => forall i o, In (i, o) (organizations s) -> 0 < i)).
  - intros i o [].
  - intros s o IH _ i o' Hin. cbn in Hin. apply in_app_or in Hin.
    destruct Hin as [Hin|[[= <- _]|[]]]; [eauto|].
    pose proof (max_rowid_nonneg (organizations s)). unfold next_rowid. lia.
  - intros s p IH. exact IH.
  - intros s num ttl ty st org proj lbl fp u now s' d IH E.
    apply create_document_inv in E. destruct E as (_ & _ & ->). exact IH.
  - intros s doc_id lbl fp u now IH. rewrite add_document_revision_eq.
    exact IH.
  - intros s t IH. exact IH.
  - intros tn ro cb now tid r w w1 IH _ E. apply send_revision_inv in E.
    destruct E as (_ & _ & _ & _ & _ & _ & EO & _). rewrite EO. exact IH.
Qed.

Lemma offered_option_sendable d u orgs docs opt r :
  reachable d ->
  new_transmittal_form d u = inr (orgs, docs) ->
  In opt docs -> opt_current_revision opt = Some r ->
  sendable d r /\
  exists org doc,
    user_org_id (snd u) = Some org /\
    In (opt_id opt, doc) (documents d) /\ org_id doc = org.
Proof.
  intros HR HF Hin Hc. unfold new_transmittal_form in HF.
  destruct (negb (str_in (role (snd u)) ["superadmin"; "org_admin"]%string));
    [discriminate|].
  injection HF as _ <-. apply in_map_iff in Hin.
  destruct Hin as ([i doc] & <- & Hin). cbn in Hc |- *.
  apply in_flat_map in Hin. destruct Hin as (p & _ & Hin).
  destruct (user_org_id (snd u)) as [org|]; [|destruct Hin].
  apply get_documents_by_org_and_project_In in Hin.
  destruct Hin as (Hin & Ho & _).
  destruct (reachable_current_is_latest d HR i doc Hin) as [_ P].
  destruct (P r Hc) as (rv & Hr & Hd).
  destruct (select_by_id_present _ _ _ Hin) as [doc' Hg].
  split; [|exists org, doc; auto].
  exists rv, doc'. split; [exact Hr|]. now rewrite Hd.
Qed.

(** X17. Whatever [new_transmittal_form] offers can be sent.  In a store
    the writers can reach, take a recipient among the offered
    organizations and distinct revision ids among the offered current
    revisions, at least one, and a number that is not empty:
    [create_transmittal_action] redirects, so the transmittal is stored.
    Every offered document belongs to the user's organization, and the
    user's own organization is not among the offered recipients. *)
Theorem offered_selection_is_sent u tn desc ro o revs now d orgs docs :
  reachable d ->
  new_transmittal_form d u = inr (orgs, docs) ->
  In (ro, o) orgs ->
  tn <> ""%string -> revs <> [] -> NoDup revs ->
  (forall r, In r revs ->
             exists opt, In opt docs /\ opt_current_revision opt = Some r) ->
  (exists d',
      create_transmittal_action u tn desc ro revs now d
      = (d', Redirect "/transmittals")) /\
  user_org_id (snd u) <> Some ro /\
  (forall opt, In opt docs ->
     exists doc, get_document d (opt_id opt) = Some doc /\
                 user_org_id (snd u) = Some (org_id doc)).
Proof.
  intros HR HF Hro Htn Hne ND Hall.
  assert (HS : forall r, In r revs -> sendable d r).
  { intros r Hin. destruct (Hall r Hin) as (opt & Ho & Hc).
    apply (offered_option_sendable d u orgs docs opt r HR HF Ho Hc). }
  assert (HU : exists org, user_org_id (snd u) = Some org).
  { destruct revs as [|r revs]; [congruence|].
    destruct (Hall r (or_introl eq_refl)) as (opt & Ho & Hc).
    destruct (offered_option_sendable d u orgs docs opt r HR HF Ho Hc)
      as (_ & org & _ & E & _). eauto. }
  destruct HU as [org EU].
  pose proof (reachable_constraints_hold d HR) as C.
  split; [|split].
  - pose proof HF as HF'. unfold new_transmittal_form in HF'.
    unfold create_transmittal_action.
    destruct (negb (str_in (role (snd u)) ["superadmin"; "org_admin"]%string));
      [discriminate|].
    injection HF' as <- _. apply filter_In in Hro. destruct Hro as [Hro _].
    apply order_by_In in Hro. apply (reachable_organization_ids d HR) in Hro.
    rewrite (proj2 (String.eqb_neq tn "") Htn).
    rewrite (proj2 (Z.eqb_neq ro 0)) by lia. cbn [orb].
    destruct revs as [|r0 revs]; [congruence|]. rewrite EU.
    destruct (create_transmittal_sendable tn desc org ro (r0 :: revs) (fst u)
                now d (reachable_links_bounded d HR) ND HS) as [s' E].
    rewrite E. eauto.
  - unfold new_transmittal_form in HF.
    destruct (negb (str_in (role (snd u)) ["superadmin"; "org_admin"]%string));
      [discriminate|].
    injection HF as <- _. apply filter_In in Hro. destruct Hro as [_ Hn].
    cbn in Hn. intros E. apply in_org_true in E. rewrite E in Hn. discriminate.
  - intros opt Hin. pose proof HF as HF'. unfold new_transmittal_form in HF'.
    destruct (negb (str_in (role (snd u)) ["superadmin"; "org_admin"]%string));
      [discriminate|].
    injection HF' as _ <-. apply in_map_iff in Hin.
    destruct Hin as ([i doc] & <- & Hin). cbn.
    apply in_flat_map in Hin. destruct Hin as (p & _ & Hin).
    rewrite EU in Hin. apply get_documents_by_org_and_project_In in Hin.
    destruct Hin as (Hin & Ho & _). exists doc. split.
    + apply select_by_id_unique; [apply (pk_documents _ C)|exact Hin].
    + now rewrite EU, Ho.
Qed.

Lemma offered_selection_is_sent_witness :
  exists d',
    create_transmittal_action sender_admin "TR-1" "first issue" 2 [1] t3 site
    = (d', Redirect "/transmittals").
Proof.
  refine (proj1 (offered_selection_is_sent sender_admin "TR-1" "first issue"
                   2 {| org_name := "Birch"; org_description := "recipient";
                        org_created_at := t0 |} [1] t3 site _ _
                   site_reachable _ _ _ _ _ _)).
  - vm_compute. reflexivity.
  - vm_compute. left. reflexivity.
  - discriminate.
  - discriminate.
  - repeat constructor. intros [].
  - intros r [<-|[]]. eexists. split; [left; reflexivity|reflexivity].
Defined.

(** * Users, passwords and sessions *)

(** ** Passwords *)

Lemma split_colon_app salt rest :
  no_colon salt = true ->
  split_colon (salt ++ String colon rest)%string = Some (salt, rest).
Proof.
  induction salt as [|c salt IH]; cbn; [reflexivity|].
  intros H. apply andb_true_iff in H. destruct H as [Hc Hs].
  apply negb_true_iff in Hc. rewrite Hc, (IH Hs). reflexivity.
Qed.

Lemma split_colon_none s : no_colon s = true -> split_colon s = None.
Proof.
  induction s as [|c s IH]; cbn; [reflexivity|].
  intros H. apply andb_true_iff in H. destruct H as [Hc Hs].
  apply negb_true_iff in Hc. rewrite Hc, (IH Hs). reflexivity.
Qed.

Lemma verify_hash_password sha256 salt password attempt :
  no_colon salt = true ->
  verify_password sha256 (hash_password sha256 salt password) attempt
  = String.eqb (sha256 (salt ++ attempt)%string) (sha256 (salt ++ password)%string).
Proof.
  intros H. unfold verify_password, hash_password.
  change (":" ++ sha256 (salt ++ password))%string
    with (String colon (sha256 (salt ++ password)%string)).
  now rewrite split_colon_app.
Qed.

(** X18. A password verifies against its own hash: for a salt without a
    colon (a [uuid4().hex] has none), [verify_password] accepts the
    password that [hash_password] was given, and accepts another attempt
    exactly when the salted digests coincide.  A stored value without a
    colon verifies nothing. *)
Theorem password_round_trip sha256 salt password :
  no_colon salt = true ->
  verify_password sha256 (hash_password sha256 salt password) password = true /\
  (forall attempt,
      verify_password sha256 (hash_password sha256 salt password) attempt = true
      <-> sha256 (salt ++ attempt)%string = sha256 (salt ++ password)%string) /\
  (forall attempt, verify_password sha256 salt attempt = false).
Proof.
  intros H. split; [|split].
  - rewrite verify_hash_password by exact H. apply String.eqb_refl.
  - intros attempt. rewrite verify_hash_password by exact H.
    apply String.eqb_eq.
  - intros attempt. unfold verify_password.
    now rewrite split_colon_none.
Qed.

Lemma password_round_trip_witness :
  verify_password demo_digest (hash_password demo_digest "5f3a9c" "admin")
    "admin" = true.
Proof.
  apply (proj1 (password_round_trip demo_digest "5f3a9c" "admin" eq_refl)).
Defined.

(** ** Keys of users and sessions *)

Lemma find_none_key {A K} (key : A -> K) (eqb : K -> K -> bool) l k :
  (forall x y, eqb x y = true <-> x = y) ->
  ~ In k (map key l) -> find (fun r => eqb (key r) k) l = None.
Proof.
  intros E H. induction l as [|a l IH]; cbn; [reflexivity|].
  destruct (eqb (key a) k) eqn:Ek.
  - apply E in Ek. exfalso. apply H. left. exact Ek.
  - apply IH. intros Hin. apply H. now right.
Qed.

Lemma find_unique_key {A K} (key : A -> K) (eqb : K -> K -> bool) l x :
  (forall x y, eqb x y = true <-> x = y) ->
  NoDup (map key l) -> In x l ->
  find (fun r => eqb (key r) (key x)) l = Some x.
Proof.
  intros E ND Hin. induction l as [|a l IH]; [destruct Hin|].
  cbn in ND |- *. inversion ND as [|? ? Hn ND']; subst.
  destruct Hin as [->|Hin].
  - now rewrite (proj2 (E (key x) (key x)) eq_refl).
  - destruct (eqb (key a) (key x)) eqn:Ek; [|now apply IH].
    apply E in Ek. exfalso. apply Hn. rewrite Ek. now apply in_map.
Qed.

Lemma find_filter_key {A K} (key : A -> K) (eqb : K -> K -> bool) g l k :
  (forall x y, eqb x y = true <-> x = y) ->
  NoDup (map key l) ->
  find (fun r => eqb (key r) k) (filter g l) =
  match find (fun r => eqb (key r) k) l with
  | Some r => if g r then Some r else None
  | None => None
  end.
Proof.
  intros E ND. induction l as [|a l IH]; [reflexivity|].
  cbn in ND |- *. inversion ND as [|? ? Hn ND']; subst.
  destruct (eqb (key a) k) eqn:Ek; destruct (g a) eqn:Eg; cbn;
    rewrite ?Ek; auto.
  apply E in Ek. subst k. apply find_none_key; [exact E|].
  intros Hin. apply Hn. apply in_map_iff in Hin.
  destruct Hin as (x & Hx & Hin). apply filter_In in Hin.
  rewrite <- Hx. apply in_map. tauto.
Qed.

Lemma find_snoc_key {A K} (key : A -> K) (eqb : K -> K -> bool) l x k :
  find (fun r => eqb (key r) k) (l ++ [x]) =
  match find (fun r => eqb (key r) k) l with
  | Some r => Some r
  | None => if eqb (key x) k then Some x else None
  end.
Proof.
  induction l as [|a l IH]; cbn; [reflexivity|].
  destruct (eqb (key a) k); [reflexivity|exact IH].
Qed.

Lemma string_eqb_spec x y : String.eqb x y = true <-> x = y.
Proof. apply String.eqb_eq. Qed.

Lemma existsb_false_key {A} (key : A -> string) l k :
  existsb (fun r => String.eqb (key r) k) l = false -> ~ In k (map key l).
Proof.
  intros H Hin. apply in_map_iff in Hin. destruct Hin as (x & Hx & Hin).
  assert (existsb (fun r => String.eqb (key r) k) l = true); [|congruence].
  apply existsb_exists. exists x. split; [exact Hin|].
  now apply String.eqb_eq.
Qed.

Lemma insert_user_inv nu a i a' :
  insert_user nu a = Ok (i, a') ->
  i = next_rowid (users a) /\
  users a' = users a ++ [(i, nu)] /\ sessions a' = sessions a /\
  get_user_by_email a (user_email nu) = None /\
  (accounts_keys a -> accounts_keys a').
Proof.
  unfold insert_user.
  destruct (existsb _ (users a)) eqn:E; [discriminate|].
  intros [= <- <-]. cbn. repeat (split; [reflexivity|]).
  pose proof (existsb_false_key (fun r : Z * user => user_email (snd r))
                _ _ E) as Hn.
  split.
  - unfold get_user_by_email.
    apply (find_none_key (fun r : Z * user => user_email (snd r)) String.eqb);
      [exact string_eqb_spec|exact Hn].
  - intros [K1 K2 K3]. split; cbn; [|rewrite map_app; cbn|exact K3].
    + now apply rowid_snoc_NoDup.
    + now apply NoDup_snoc.
Qed.

Lemma create_session_inv user_id sid expires a a' r :
  create_session user_id sid expires a = (a', r) ->
  (exists e, r = Raise e /\ a' = a /\ In sid (map fst (sessions a))) \/
  (r = Ok sid /\ users a' = users a /\
   sessions a' = sessions a ++
                   [(sid, {| session_user_id := user_id;
                             expires_at := expires |})] /\
   get_session a sid = None /\
   (accounts_keys a -> accounts_keys a')).
Proof.
  unfold create_session.
  destruct (existsb _ (sessions a)) eqn:E; intros [= <- <-].
  - left. eexists. split; [reflexivity|]. split; [reflexivity|].
    apply existsb_exists in E. destruct E as (x & Hin & Hx).
    apply String.eqb_eq in Hx. rewrite <- Hx. now apply in_map.
  - right. cbn. repeat (split; [reflexivity|]).
    pose proof (existsb_false_key (fun r : string * session => fst r)
                  _ _ E) as Hn.
    split.
    + unfold get_session.
      apply (find_none_key (fun r : string * session => fst r) String.eqb);
        [exact string_eqb_spec|exact Hn].
    + intros [K1 K2 K3]. split; cbn; [exact K1|exact K2|].
      rewrite map_app. cbn. now apply NoDup_snoc.
Qed.

Lemma empty_accounts_keys : accounts_keys empty_accounts.
Proof. split; constructor. Qed.

Lemma create_user_keys sha256 email password name role_ org_id salt now a :
  accounts_keys a ->
  accounts_keys
    (fst (create_user sha256 email password name role_ org_id salt now a)).
Proof.
  intros K. unfold create_user.
  destruct (insert_user _ a) as [[i a']|e] eqn:E; [|exact K].
  apply insert_user_inv in E. cbn. now apply E.
Qed.

Lemma create_session_keys user_id sid expires a :
  accounts_keys a -> accounts_keys (fst (create_session user_id sid expires a)).
Proof.
  intros K. destruct (create_session user_id sid expires a) as [a' r] eqn:E.
  apply create_session_inv in E.
  destruct E as [(e & _ & -> & _)|(_ & _ & _ & _ & H)]; cbn; auto.
Qed.

Lemma delete_session_keys sid a :
  accounts_keys a -> accounts_keys (delete_session sid a).
Proof.
  intros [K1 K2 K3]. split; cbn; auto. now apply NoDup_map_filter.
Qed.

Lemma cleanup_sessions_keys now a :
  accounts_keys a -> accounts_keys (cleanup_sessions now a).
Proof.
  intros [K1 K2 K3]. split; cbn; auto. now apply NoDup_map_filter.
Qed.

Lemma login_action_keys sha256 email password sid expires a :
  accounts_keys a ->
  accounts_keys (fst (login_action sha256 email password sid expires a)).
Proof.
  intros K. unfold login_action.
  destruct (get_user_by_email a email) as [user|]; [|exact K].
  destruct (negb _); [exact K|].
  pose proof (create_session_keys (fst user) sid expires a K) as K'.
  destruct (create_session (fst user) sid expires a) as [a' [s|e]]; exact K'.
Qed.

Lemma logout_keys cookie a :
  accounts_keys a -> accounts_keys (fst (logout cookie a)).
Proof.
  intros K. unfold logout. cbn. destruct cookie as [sid|]; [|exact K].
  destruct (String.eqb sid ""); [exact K|now apply delete_session_keys].
Qed.

Lemma create_user_action_keys
    sha256 u org_id email name_field password role_field salt now a :
  accounts_keys a ->
  accounts_keys
    (fst (create_user_action sha256 u org_id email name_field password
            role_field salt now a)).
Proof.
  intros K. unfold create_user_action.
  destruct (_ || _); [|exact K]. destruct (_ && _); [exact K|].
  match goal with
  | |- context [create_user ?s ?e ?p ?n ?r ?o ?sa ?no ?a] =>
      pose proof (create_user_keys s e p n r o sa no a K) as K';
      destruct (create_user s e p n r o sa no a) as [a' [i|ex]]; exact K'
  end.
Qed.

Lemma create_default_superadmin_keys sha256 salt now d a :
  accounts_keys a ->
  accounts_keys (snd (fst (create_default_superadmin sha256 salt now d a))).
Proof.
  intros K. unfold create_default_superadmin.
  destruct (_ =? 0); [|exact K].
  destruct (insert_organization _ d) as [[org d']|e]; [|exact K].
  match goal with
  | |- context [insert_user ?nu a] =>
      destruct (insert_user nu a) as [[i a']|e] eqn:E; [|exact K]
  end.
  apply insert_user_inv in E. cbn. now apply E.
Qed.

(** X19. The keys of [users] and [sessions] hold throughout: ids and
    emails of users and ids of sessions stay distinct under every function
    and handler that writes these tables, starting from empty tables. *)
Theorem accounts_keys_preserved sha256 a :
  accounts_keys a ->
  (forall email password name role_ org_id salt now,
      accounts_keys
        (fst (create_user sha256 email password name role_ org_id salt now a)))
  /\
  (forall user_id sid expires,
      accounts_keys (fst (create_session user_id sid expires a))) /\
  (forall sid, accounts_keys (delete_session sid a)) /\
  (forall now, accounts_keys (cleanup_sessions now a)) /\
  (forall email password sid expires,
      accounts_keys (fst (login_action sha256 email password sid expires a)))
  /\
  (forall cookie, accounts_keys (fst (logout cookie a))) /\
  (forall u org_id email name_field password role_field salt now,
      accounts_keys
        (fst (create_user_action sha256 u org_id email name_field password
                role_field salt now a))) /\
  (forall salt now d,
      accounts_keys
        (snd (fst (create_default_superadmin sha256 salt now d a)))) /\
  accounts_keys empty_accounts.
Proof.
  intros K.
  split; [intros; now apply create_user_keys|].
  split; [intros; now apply create_session_keys|].
  split; [intros; now apply delete_session_keys|].
  split; [intros; now apply cleanup_sessions_keys|].
  split; [intros; now apply login_action_keys|].
  split; [intros; now apply logout_keys|].
  split; [intros; now apply create_user_action_keys|].
  split; [intros; now apply create_default_superadmin_keys|].
  apply empty_accounts_keys.
Qed.

Lemma accounts_keys_preserved_witness : accounts_keys staff.
Proof.
  apply (proj1 (accounts_keys_preserved demo_digest empty_accounts
                  empty_accounts_keys)).
Defined.

Lemma staff_keys : accounts_keys staff.
Proof. unfold staff. apply create_user_keys. apply empty_accounts_keys. Qed.

(** ** Who may create which user *)

(** X20. [create_user_action] leaves the sessions alone and adds at most
    one user.  An added user has the submitted email, which no user had
    before, belongs to the organization of the path, and is a plain user
    or an org_admin, never a superadmin; an org_admin is only created by
    a superadmin, and a creator who is not superadmin is an org_admin of
    that same organization.  When no user is added the table is as
    before. *)
Theorem create_user_action_privileges
    sha256 u org_id email name_field password role_field salt now a :
  let a' := fst (create_user_action sha256 u org_id email name_field password
                   role_field salt now a) in
  sessions a' = sessions a /\
  (a' = a \/
   exists nu,
     users a' = users a ++ [(next_rowid (users a), nu)] /\
     user_email nu = email /\
     get_user_by_email a email = None /\
     user_org_id nu = Some org_id /\
     (role nu = "user" \/
      role nu = "org_admin" /\ role (snd u) = "superadmin")%string /\
     (role (snd u) = "superadmin" \/
      role (snd u) = "org_admin" /\ user_org_id (snd u) = Some org_id)%string).
Proof.
  unfold create_user_action.
  destruct (String.eqb (role (snd u)) "superadmin") eqn:ES; cbn [orb].
  - apply String.eqb_eq in ES.
    assert (EA : String.eqb (role (snd u)) "org_admin" = false)
      by (rewrite ES; reflexivity).
    rewrite EA. cbn [andb].
    unfold create_user.
    match goal with
    | |- context [insert_user ?nu a] =>
        destruct (insert_user nu a) as [[i a1]|e] eqn:E
    end; cbn; [|auto].
    apply insert_user_inv in E. destruct E as (-> & EU & EE & EG & _).
    split; [exact EE|]. right. eexists. split; [exact EU|]. cbn.
    repeat (split; [assumption || reflexivity|]). split; [|now left].
    unfold str_in. cbn.
    destruct (String.eqb role_field "org_admin") eqn:E1; cbn.
    + apply String.eqb_eq in E1. auto.
    + destruct (String.eqb role_field "user") eqn:E2; cbn; [|now left].
      apply String.eqb_eq in E2. now left.
  - destruct (String.eqb (role (snd u)) "org_admin") eqn:EA; cbn [andb];
      [|cbn; auto].
    destruct (in_org (snd u) org_id) eqn:EO; [|cbn; auto].
    apply String.eqb_eq in EA. apply in_org_true in EO.
    destruct (String.eqb role_field "org_admin") eqn:E1; [cbn; auto|].
    unfold create_user.
    match goal with
    | |- context [insert_user ?nu a] =>
        destruct (insert_user nu a) as [[i a1]|e] eqn:E
    end; cbn; [|auto].
    apply insert_user_inv in E. destruct E as (-> & EU & EE & EG & _).
    split; [exact EE|]. right. eexists. split; [exact EU|]. cbn.
    repeat (split; [assumption || reflexivity|]). split; [|now right].
    left. unfold str_in. cbn. rewrite E1. cbn.
    destruct (String.eqb role_field "user") eqn:E2; cbn; [|reflexivity].
    now apply String.eqb_eq in E2.
Qed.

(** ** Logging in and out *)

Lemma Z_eqb_spec x y : (x =? y) = true <-> x = y.
Proof. apply Z.eqb_eq. Qed.

Lemma get_user_by_email_id a email row :
  NoDup (map fst (users a)) ->
  get_user_by_email a email = Some row ->
  get_user_by_id a (fst row) = Some row.
Proof.
  intros ND H. apply find_some in H. destruct H as [Hin _].
  apply (find_unique_key (fun r : Z * user => fst r) Z.eqb);
    [exact Z_eqb_spec|exact ND|exact Hin].
Qed.

(** X21. [login_action] that answers has two outcomes.  Either it shows
    the form again, sets no cookie and stores nothing: then no user has
    the email, or the password does not verify against that user's hash.
    Or it redirects to the dashboard with a cookie: then a user has the
    email, the password verifies, the cookie names a session that did not
    exist, and afterwards that session resolves to this user's id, which
    resolves to this user; users and other sessions are untouched. *)
Theorem login_action_session
    sha256 email password sid expires a a' answer cookie :
  accounts_keys a ->
  login_action sha256 email password sid expires a
  = (a', Ok (answer, cookie)) ->
  (cookie = None /\ a' = a /\ (exists msg, answer = FormError msg) /\
   forall user,
     get_user_by_email a email = Some user ->
     verify_password sha256 (user_password_hash (snd user)) password = false)
  \/
  (cookie = Some sid /\ answer = Redirect "/dashboard" /\
   exists user,
     get_user_by_email a email = Some user /\
     verify_password sha256 (user_password_hash (snd user)) password = true /\
     users a' = users a /\
     get_session a sid = None /\
     get_session a' sid =
       Some (sid, {| session_user_id := fst user; expires_at := expires |}) /\
     get_user_by_id a' (fst user) = Some user /\
     forall other, other <> sid -> get_session a' other = get_session a other).
Proof.
  intros K. unfold login_action.
  destruct (get_user_by_email a email) as [user|] eqn:EU.
  2: { intros [= <- <- <-]. left. repeat split; eauto. discriminate. }
  destruct (verify_password sha256 (user_password_hash (snd user)) password)
    eqn:EV; cbn [negb].
  2: { intros [= <- <- <-]. left. repeat split; eauto.
       intros user' [= <-]. exact EV. }
  destruct (create_session (fst user) sid expires a) as [a1 r] eqn:EC.
  apply create_session_inv in EC.
  destruct EC as [(e & -> & _)|(-> & EUs & ES & EG & _)]; [discriminate|].
  intros [= <- <- <-]. right. split; [reflexivity|]. split; [reflexivity|].
  exists user. repeat (split; [assumption || reflexivity|]).
  split; [|split].
  - unfold get_session in *. rewrite ES.
    rewrite (find_snoc_key (fun r : string * session => fst r) String.eqb).
    rewrite EG. cbn. now rewrite String.eqb_refl.
  - unfold get_user_by_id. rewrite EUs.
    apply (get_user_by_email_id a email user (pk_users _ K) EU).
  - intros other Hne. unfold get_session. rewrite ES.
    rewrite (find_snoc_key (fun r : string * session => fst r) String.eqb).
    destruct (find _ (sessions a)); [reflexivity|]. cbn.
    apply not_eq_sym in Hne. apply String.eqb_neq in Hne. now rewrite Hne.
Qed.

(** X22. Ending sessions.  [delete_session] removes the named session and
    no other; [cleanup_sessions] removes exactly the sessions whose
    [expires_at] is bytewise below the given time; [logout] with the
    cookie that a [create_session] returned brings the session table back
    to what it was before that call.  None of them touches the users. *)
Theorem sessions_end a :
  accounts_keys a ->
  (forall sid other,
      get_session (delete_session sid a) other
      = if String.eqb other sid then None else get_session a other) /\
  (forall now sid,
      get_session (cleanup_sessions now a) sid
      = match get_session a sid with
        | Some s => if String.ltb (expires_at (snd s)) now then None
                    else Some s
        | None => None
        end) /\
  (forall user_id sid expires a',
      create_session user_id sid expires a = (a', Ok sid) ->
      sid <> ""%string ->
      fst (logout (Some sid) a') = a) /\
  (forall sid now cookie,
      users (delete_session sid a) = users a /\
      users (cleanup_sessions now a) = users a /\
      users (fst (logout cookie a)) = users a).
Proof.
  intros K. split; [|split; [|split]].
  - intros sid other. unfold get_session, delete_session. cbn.
    rewrite (find_filter_key (fun r : string * session => fst r) String.eqb)
      by (exact string_eqb_spec || apply (pk_sessions _ K)).
    destruct (String.eqb other sid) eqn:E.
    + apply String.eqb_eq in E. subst other.
      destruct (find _ (sessions a)) as [s|] eqn:EF; [|reflexivity].
      apply find_some in EF. destruct EF as [_ EF]. cbn in EF.
      now rewrite EF.
    + destruct (find _ (sessions a)) as [s|] eqn:EF; [|reflexivity].
      apply find_some in EF. destruct EF as [_ EF]. cbn in EF.
      apply String.eqb_eq in EF. rewrite EF, E. reflexivity.
  - intros now sid. unfold get_session, cleanup_sessions. cbn.
    rewrite (find_filter_key (fun r : string * session => fst r) String.eqb)
      by (exact string_eqb_spec || apply (pk_sessions _ K)).
    destruct (find _ (sessions a)) as [s|]; [|reflexivity].
    now destruct (String.ltb (expires_at (snd s)) now).
  - intros user_id sid expires a' EC Hne.
    apply create_session_inv in EC.
    destruct EC as [(e & [=] & _)|(_ & EU & ES & EG & _)].
    unfold logout. cbn. apply String.eqb_neq in Hne. rewrite Hne.
    unfold delete_session. rewrite EU, ES, filter_app. cbn.
    rewrite String.eqb_refl. cbn. rewrite app_nil_r.
    assert (EF : filter (fun r : string * session =>
                           negb (String.eqb (fst r) sid)) (sessions a)
                 = sessions a).
    { apply forallb_filter_id. apply forallb_forall. intros x Hin.
      apply negb_true_iff. destruct (String.eqb (fst x) sid) eqn:E;
        [|reflexivity].
      unfold get_session in EG.
      apply (find_none _ _ EG) in Hin. cbn in Hin. congruence. }
    rewrite EF. now destruct a.
  - intros sid now cookie. unfold logout. cbn.
    repeat split. destruct cookie as [c|]; [|reflexivity].
    now destruct (String.eqb c "").
Qed.

Lemma login_action_session_witness :
  exists a' usr,
    login_action demo_digest "ana@acme.example" "secret" "c0ffee" t3 staff
    = (a', Ok (Redirect "/dashboard", Some "c0ffee"%string)) /\
    get_session a' "c0ffee"
    = Some ("c0ffee"%string,
            {| session_user_id := fst usr; expires_at := t3 |}) /\
    get_user_by_id a' (fst usr) = Some usr.
Proof.
  eexists _, _. split; [vm_compute; reflexivity|].
  destruct (login_action_session demo_digest "ana@acme.example" "secret"
              "c0ffee" t3 staff _ _ _ staff_keys eq_refl)
    as [(E & _)|(_ & _ & usr & E & _ & _ & _ & H1 & H2 & _)];
    [discriminate E|].
  vm_compute in E. injection E as <-. split; [exact H1|exact H2].
Defined.

Lemma sessions_end_witness :
  get_session
    (delete_session "c0ffee"
       (fst (login_action demo_digest "ana@acme.example" "secret" "c0ffee"
               t3 staff))) "c0ffee" = None.
Proof.
  apply (proj1 (sessions_end
                  (fst (login_action demo_digest "ana@acme.example" "secret"
                          "c0ffee" t3 staff))
                  (login_action_keys _ _ _ _ _ _ staff_keys))
           "c0ffee"%string "c0ffee"%string).
Defined.

(** ** The default superadmin *)

(** X23. [create_default_superadmin] acts once.  With a user in the table
    it stores nothing.  With no user it inserts the organization "Global"
    and one user, the superadmin of that organization, whose password
    "admin" then opens a session through [login_action]; a second call
    stores nothing.  With no user but an organization already named
    "Global" it raises [IntegrityError] and stores nothing. *)
Theorem create_default_superadmin_once sha256 salt now d a :
  (users a <> [] ->
   create_default_superadmin sha256 salt now d a = ((d, a), Ok tt)) /\
  (users a = [] ->
   forall i o, In (i, o) (organizations d) -> org_name o = "Global"%string ->
   create_default_superadmin sha256 salt now d a
   = ((d, a), Raise IntegrityError)) /\
  (users a = [] ->
   (forall i o, In (i, o) (organizations d) -> org_name o <> "Global"%string) ->
   exists d' a' admin,
     create_default_superadmin sha256 salt now d a = ((d', a'), Ok tt) /\
     get_organization d' (next_rowid (organizations d))
     = Some {| org_name := "Global";
               org_description := "Default global organization";
               org_created_at := now |} /\
     users a' = [(1, admin)] /\ sessions a' = sessions a /\
     user_email admin = "admin@example.com"%string /\
     role admin = "superadmin"%string /\
     user_org_id admin = Some (next_rowid (organizations d)) /\
     (forall salt' now',
         create_default_superadmin sha256 salt' now' d' a'
         = ((d', a'), Ok tt)) /\
     (no_colon salt = true ->
      forall sid expires,
        get_session a sid = None ->
        exists a'',
          login_action sha256 "admin@example.com" "admin" sid expires a'
          = (a'', Ok (Redirect "/dashboard", Some sid)))).
Proof.
  unfold create_default_superadmin. split; [|split].
  - intros H. destruct (users a); [congruence|]. reflexivity.
  - intros H i o Hin Hn. rewrite H. cbn.
    unfold insert_organization. cbn [org_name].
    assert (E : existsb (fun r => String.eqb (org_name (snd r)) "Global")
                  (organizations d) = true).
    { apply existsb_exists. exists (i, o). split; [exact Hin|].
      now apply String.eqb_eq. }
    now rewrite E.
  - intros H Hn. rewrite H. cbn.
    unfold insert_organization. cbn [org_name].
    assert (E : existsb (fun r => String.eqb (org_name (snd r)) "Global")
                  (organizations d) = false).
    { destruct (existsb _ (organizations d)) eqn:E; [|reflexivity].
      apply existsb_exists in E. destruct E as ([i o] & Hin & E).
      apply String.eqb_eq in E. exfalso. exact (Hn i o Hin E). }
    rewrite E. unfold insert_user. rewrite H. cbn.
    eexists _, _, _. split; [reflexivity|]. cbn.
    split; [apply select_by_id_snoc_new|].
    do 5 (split; [reflexivity|]). split; [intros; reflexivity|].
    intros Hs sid expires HG. unfold login_action, get_user_by_email. cbn.
    rewrite verify_hash_password by exact Hs. rewrite String.eqb_refl. cbn.
    unfold create_session. cbn.
    assert (EX : existsb (fun r : string * session => String.eqb (fst r) sid)
                   (sessions a) = false).
    { apply find_none_existsb. exact HG. }
    rewrite EX. eauto.
Qed.

(** * Pages of the register *)

Lemma document_label s i d :
  reachable s -> In (i, d) (documents s) ->
  exists n rr,
    current_revision_id d = Some n /\
    get_revision s n = Some rr /\
    document_id rr = i /\
    rev_label s d = Some (revision rr).
Proof.
  intros R Hin.
  destruct (reachable_documents_pointed s R i d Hin) as (n & Hn & Hpos).
  destruct (reachable_current_is_latest s R i d Hin) as [_ HS].
  destruct (HS n Hn) as (rr & HR & HD).
  exists n, rr. repeat split; auto.
  unfold rev_label. rewrite Hn.
  destruct (Z.eqb_spec n 0); [lia|]. unfold get_revision. now rewrite HR.
Qed.

Lemma rev_labels_keys d (l : list (Z * document)) :
  (forall x, In x l -> exists lbl, rev_label d (snd x) = Some lbl) ->
  map fst
    (flat_map (fun doc => match rev_label d (snd doc) with
                          | Some l => [(fst doc, l)]
                          | None => []
                          end) l)
  = map fst l.
Proof.
  induction l as [|x l IH]; intros H; [reflexivity|]. cbn.
  destruct (H x (or_introl eq_refl)) as [lbl E]. rewrite E. cbn. f_equal.
  apply IH. intros y Hy. apply H. now right.
Qed.

Lemma get_revisions_for_document_In d doc_id r rv :
  In (r, rv) (get_revisions_for_document d doc_id) <->
  In (r, rv) (document_revisions d) /\ document_id rv = doc_id.
Proof.
  unfold get_revisions_for_document. split.
  - intros H.
    apply (Permutation_in _ (order_by_uploaded_at_desc_perm _)) in H.
    apply filter_In in H. cbn in H. now rewrite Z.eqb_eq in H.
  - intros [H E].
    apply (Permutation_in _ (Permutation_sym
                               (order_by_uploaded_at_desc_perm _))).
    apply filter_In. cbn. now rewrite Z.eqb_eq.
Qed.

(** X24. In a store the writers can reach, when [list_documents] shows a
    page, the project exists and belongs to the organization, the user is
    superadmin or of that organization, and every listed document belongs
    to that organization and project, has an entry in [rev_labels], and
    opens in [document_detail] under the same path; the label listed for
    it is the label of its current revision, which is one of the
    revisions shown on the detail page. *)
Theorem listed_document_opens d a org proj u p docs labels :
  reachable d ->
  list_documents d org proj u = inr (p, docs, labels) ->
  get_project d proj = Some p /\ proj_org_id p = org /\
  (role (snd u) = "superadmin"%string \/ user_org_id (snd u) = Some org) /\
  map fst labels = map fst docs /\
  forall i doc,
    In (i, doc) docs ->
    org_id doc = org /\ project_id doc = proj /\
    document_detail d a org proj i u
    = inr (doc, get_revisions_for_document d i,
           get_events_for_document d a i) /\
    exists rid rv,
      current_revision_id doc = Some rid /\
      In (rid, rv) (get_revisions_for_document d i) /\
      In (i, revision rv) labels.
Proof.
  intros HR. pose proof (reachable_constraints_hold d HR) as C.
  unfold list_documents.
  destruct (negb (String.eqb (role (snd u)) "superadmin")
            && negb (in_org (snd u) org)) eqn:EA; [discriminate|].
  destruct (get_project d proj) as [p'|] eqn:EP; [|discriminate].
  destruct (proj_org_id p' =? org) eqn:EO; cbn [negb]; [|discriminate].
  intros [= <- <- <-]. apply Z.eqb_eq in EO.
  split; [reflexivity|]. split; [exact EO|]. split.
  { apply andb_false_iff in EA. rewrite !negb_false_iff in EA.
    destruct EA as [EA|EA]; [left; now apply String.eqb_eq
                            |right; now apply in_org_true]. }
  split.
  { apply rev_labels_keys. intros [i doc] Hin.
    apply get_documents_by_org_and_project_In in Hin.
    destruct Hin as (Hin & _).
    destruct (document_label d i doc HR Hin) as (n & rr & _ & _ & _ & E).
    eauto. }
  intros i doc Hin. pose proof Hin as Hl.
  apply get_documents_by_org_and_project_In in Hin.
  destruct Hin as (Hin & Ho & Hp).
  destruct (document_label d i doc HR Hin) as (n & rr & Hn & Hr & Hd & E).
  split; [exact Ho|]. split; [exact Hp|]. split.
  - unfold document_detail. rewrite EA. unfold get_document.
    rewrite (select_by_id_unique _ _ _ (pk_documents _ C) Hin).
    rewrite Ho, Hp, !Z.eqb_refl. reflexivity.
  - exists n, rr. split; [exact Hn|]. split.
    + apply get_revisions_for_document_In. split; [|exact Hd].
      apply select_by_id_In. exact Hr.
    + apply in_flat_map. exists (i, doc). split; [exact Hl|]. cbn.
      rewrite E. now left.
Qed.

Lemma listed_document_opens_witness :
  exists p docs labels,
    list_documents site_sent 1 1 sender_admin = inr (p, docs, labels) /\
    map fst labels = map fst docs.
Proof.
  eexists _, _, _. split; [vm_compute; reflexivity|].
  refine (proj1 (proj2 (proj2 (proj2
            (listed_document_opens site_sent empty_accounts 1 1 sender_admin
               _ _ _ site_sent_reachable _))))).
  vm_compute. reflexivity.
Defined.

(** ** The history of a document *)

Lemma get_events_for_document_In d a doc_id i e name :
  In (i, e, name) (get_events_for_document d a doc_id) <->
  In (i, e) (events d) /\ ev_document_id e = doc_id /\
  exists w, In w (users a) /\ fst w = ev_user_id e /\ user_name (snd w) = name.
Proof.
  unfold get_events_for_document. rewrite order_by_In, in_flat_map. split.
  - intros ([j e'] & Hin & H). cbn in H.
    destruct (ev_document_id e' =? doc_id) eqn:E; [|destruct H].
    apply in_map_iff in H. destruct H as (w & [= <- <- <-] & Hw).
    apply filter_In in Hw. destruct Hw as [Hw Ew].
    apply Z.eqb_eq in E, Ew. eauto 8.
  - intros (Hin & E & w & Hw & Ew & En). exists (i, e). split; [exact Hin|].
    cbn. rewrite (proj2 (Z.eqb_eq _ _) E). apply in_map_iff. exists w.
    split; [now rewrite En|]. apply filter_In. split; [exact Hw|].
    now apply Z.eqb_eq.
Qed.

Lemma get_events_for_document_complete d a doc_id :
  NoDup (map fst (users a)) ->
  (forall i e, In (i, e) (events d) -> ev_document_id e = doc_id ->
               exists w, get_user_by_id a (ev_user_id e) = Some w) ->
  Permutation (map fst (get_events_for_document d a doc_id))
    (filter (fun e => ev_document_id (snd e) =? doc_id) (events d)).
Proof.
  intros ND H. unfold get_events_for_document.
  rewrite order_by_perm. revert H. generalize (events d) as l.
  induction l as [|[i e] l IH]; intros H; [reflexivity|]. cbn.
  rewrite map_app, IH by (intros j e' Hin; apply (H j e'); now right).
  destruct (ev_document_id e =? doc_id) eqn:E; [|reflexivity].
  apply Z.eqb_eq in E. destruct (H i e (or_introl eq_refl) E) as [[k w] Hw].
  assert (Hs : select_by_id (users a) (ev_user_id e) = Some w).
  { unfold select_by_id. unfold get_user_by_id in Hw. now rewrite Hw. }
  rewrite (filter_by_id_unique _ _ _ ND Hs). reflexivity.
Qed.

(** X25. The history shown for a document.  With distinct user ids,
    [get_events_for_document] lists exactly the events of the document
    whose user is in [users], each with that user's name, latest first;
    an event whose user is missing is not shown.  When the user of every
    event of the document exists, the history is complete: every event of
    the document is listed exactly once. *)
Theorem document_history d a doc_id :
  accounts_keys a ->
  (forall i e name,
      In (i, e, name) (get_events_for_document d a doc_id) <->
      In (i, e) (events d) /\ ev_document_id e = doc_id /\
      exists w, get_user_by_id a (ev_user_id e) = Some w /\
                user_name (snd w) = name) /\
  StronglySorted latest_event_first (get_events_for_document d a doc_id) /\
  ((forall i e, In (i, e) (events d) -> ev_document_id e = doc_id ->
                exists w, get_user_by_id a (ev_user_id e) = Some w) ->
   Permutation (map fst (get_events_for_document d a doc_id))
     (filter (fun e => ev_document_id (snd e) =? doc_id) (events d))).
Proof.
  intros K. split; [|split].
  - intros i e name. rewrite get_events_for_document_In.
    split; intros (Hin & E & w & H); (split; [exact Hin|split; [exact E|]]);
      exists w.
    + destruct H as (Hw & Ew & En). split; [|exact En].
      unfold get_user_by_id. rewrite <- Ew.
      apply (find_unique_key (fun r : Z * user => fst r) Z.eqb);
        [exact Z_eqb_spec|apply (pk_users _ K)|exact Hw].
    + destruct H as (Hw & En). apply find_some in Hw.
      destruct Hw as [Hw Ew]. apply Z.eqb_eq in Ew. auto.
  - unfold get_events_for_document.
    apply (order_by_sorted
             (fun x y : Z * event * string =>
                String.leb (timestamp (snd (fst y)))
                  (timestamp (snd (fst x))))).
    + intros x y z H1 H2. eapply string_leb_trans; eauto.
    + intros x y.
      destruct (String.leb_total (timestamp (snd (fst x)))
                  (timestamp (snd (fst y)))); auto.
  - apply get_events_for_document_complete. apply (pk_users _ K).
Qed.

Lemma site_staff_keys : accounts_keys site_staff.
Proof.
  split; cbn; repeat constructor; cbn; intuition discriminate.
Qed.

Lemma document_history_witness :
  Permutation (map fst (get_events_for_document site_sent site_staff 1))
    (filter (fun e => ev_document_id (snd e) =? 1) (events site_sent)).
Proof.
  apply (proj2 (proj2 (document_history site_sent site_staff 1
                         site_staff_keys))).
  intros i e Hin _. vm_compute in Hin.
  repeat (destruct Hin as [[= <- <-]|Hin];
          [eexists; vm_compute; reflexivity|]).
  destruct Hin.
Defined.

(** ** Creating projects and organizations *)

Lemma get_projects_by_org_In d org i p :
  In (i, p) (get_projects_by_org d (Some org)) <->
  In (i, p) (projects d) /\ proj_org_id p = org.
Proof.
  unfold get_projects_by_org. rewrite order_by_In, filter_In. cbn.
  now rewrite Z.eqb_eq.
Qed.

(** X26. [create_project_action] has two outcomes.  Either it redirects
    to the project list of the organization: then the user is superadmin,
    or org_admin of that very organization, the name is not empty, and
    the store has grown by exactly one project row, of that organization;
    the list it redirects to shows the new project when the organization
    exists and answers 404 when it does not, the row being stored all the
    same.  Or it answers 403 or the form with an error and the store is
    unchanged. *)
Theorem create_project_action_effect
    u org name_field description_field now d :
  (exists d',
      create_project_action u org name_field description_field now d
      = (d', Redirect ("/organizations/" ++ str org ++ "/projects")) /\
      (role (snd u) = "superadmin" \/
       role (snd u) = "org_admin" /\ user_org_id (snd u) = Some org)%string /\
      name_field <> ""%string /\
      d' = set_projects
             (projects d ++
                [(next_rowid (projects d),
                  {| proj_name := name_field;
                     proj_description := description_field;
                     proj_org_id := org; proj_created_at := now |})]) d /\
      (forall o, get_organization d org = Some o ->
                 exists ps,
                   list_projects d' org u = inr (o, ps) /\
                   In (next_rowid (projects d),
                       {| proj_name := name_field;
                          proj_description := description_field;
                          proj_org_id := org; proj_created_at := now |}) ps) /\
      (get_organization d org = None ->
       list_projects d' org u = inl NotFound))
  \/
  (exists answer,
      create_project_action u org name_field description_field now d
      = (d, answer) /\
      (answer = Forbidden \/ exists msg, answer = FormError msg)).
Proof.
  unfold create_project_action.
  destruct (str_in (role (snd u)) ["superadmin"; "org_admin"]%string) eqn:ER;
    cbn [negb]; [|right; eauto].
  destruct (String.eqb (role (snd u)) "org_admin"
            && negb (in_org (snd u) org)) eqn:EA; [right; eauto|].
  destruct (String.eqb name_field "") eqn:EN; [right; eauto|].
  rewrite create_project_eq. left. eexists. split; [reflexivity|].
  assert (HA : (role (snd u) = "superadmin" \/
                role (snd u) = "org_admin" /\ user_org_id (snd u) = Some org)
               %string).
  { unfold str_in in ER. cbn in ER.
    destruct (String.eqb (role (snd u)) "superadmin") eqn:E1.
    - left. now apply String.eqb_eq.
    - destruct (String.eqb (role (snd u)) "org_admin") eqn:E2;
        [|discriminate].
      cbn in EA. apply negb_false_iff in EA. right.
      split; [now apply String.eqb_eq|now apply in_org_true]. }
  assert (HG : negb (String.eqb (role (snd u)) "superadmin")
               && negb (in_org (snd u) org) = false).
  { destruct HA as [E|[_ E]].
    - rewrite E. reflexivity.
    - rewrite (proj2 (in_org_true _ _) E). cbn. apply andb_false_r. }
  split; [exact HA|]. split; [now apply String.eqb_neq|].
  split; [reflexivity|]. split.
  - intros o Ho. unfold list_projects. rewrite HG.
    unfold get_organization in *. cbn [organizations set_projects].
    rewrite Ho. eexists. split; [reflexivity|].
    apply get_projects_by_org_In. cbn. split; [|reflexivity].
    apply in_or_app. right. now left.
  - intros Ho. unfold list_projects. rewrite HG.
    unfold get_organization in *. cbn [organizations set_projects].
    now rewrite Ho.
Qed.

Lemma sorted_strict {A} (key : A -> string) (l : list A) :
  StronglySorted (fun a b => String.leb (key a) (key b) = true) l ->
  NoDup (map key l) ->
  StronglySorted (fun a b => String.ltb (key a) (key b) = true) l.
Proof.
  induction 1 as [|x l S IH F]; cbn; intros ND; constructor.
  - apply IH. now inversion ND.
  - inversion ND as [|? ? Nx _]; subst.
    rewrite Forall_forall in *. intros y Hy.
    apply string_leb_neq_ltb; [now apply F|].
    intros E. apply Nx. rewrite E. now apply in_map.
Qed.

Lemma get_organizations_sorted d :
  NoDup (map (fun r => org_name (snd r)) (organizations d)) ->
  StronglySorted strictly_by_name (get_organizations d).
Proof.
  intros ND. unfold get_organizations.
  apply (sorted_strict (fun r : Z * organization => org_name (snd r))).
  - apply (order_by_sorted
             (fun a b : Z * organization =>
                String.leb (org_name (snd a)) (org_name (snd b)))).
    + intros a b c H1 H2. eapply string_leb_trans; eauto.
    + intros a b.
      destruct (String.leb_total (org_name (snd a)) (org_name (snd b))); auto.
  - eapply Permutation_NoDup; [|exact ND].
    apply Permutation_map, Permutation_sym, order_by_perm.
Qed.

(** X27. [create_organization_action] does not raise.  Either it
    redirects to the list: then the user is superadmin, the name is not
    empty and no organization had it, and [get_organizations] lists the
    new organization together with the former ones.  Or it answers 403
    or the form with an error and the store is unchanged; for a
    superadmin who gave a name this means that the name was taken.  In a
    store the writers can reach the list comes out in strictly ascending
    order of name, before and after. *)
Theorem create_organization_action_effect u name description now d :
  exists d' answer,
    create_organization_action u name description now d = (d', Ok answer) /\
    ((answer = Redirect "/organizations" /\
      role (snd u) = "superadmin"%string /\ name <> ""%string /\
      (forall i o, In (i, o) (organizations d) -> org_name o <> name) /\
      Permutation (get_organizations d')
        ((next_rowid (organizations d),
          {| org_name := name; org_description := description;
             org_created_at := now |}) :: get_organizations d))
     \/
     (d' = d /\
      (answer = Forbidden \/ exists msg, answer = FormError msg) /\
      (role (snd u) = "superadmin"%string -> name <> ""%string ->
       exists i o, In (i, o) (organizations d) /\ org_name o = name))) /\
    (reachable d ->
     StronglySorted strictly_by_name (get_organizations d) /\
     StronglySorted strictly_by_name (get_organizations d')).
Proof.
  unfold create_organization_action.
  assert (HS : forall s, reachable s ->
                         StronglySorted strictly_by_name (get_organizations s)).
  { intros s R. apply get_organizations_sorted.
    apply (uq_organization_name _ (reachable_constraints_hold s R)). }
  destruct (str_in (role (snd u)) ["superadmin"]%string) eqn:ER; cbn [negb].
  2: { eexists _, _. split; [reflexivity|]. split; [|auto].
       right. split; [reflexivity|]. split; [now left|].
       intros E. rewrite E in ER. discriminate. }
  destruct (String.eqb name "") eqn:EN.
  { eexists _, _. split; [reflexivity|]. split; [|auto].
    right. split; [reflexivity|]. split; [right; eauto|].
    apply String.eqb_eq in EN. congruence. }
  pose proof (reach_create_organization d name description now) as RC.
  rewrite create_organization_eq in *.
  destruct (existsb (fun r => String.eqb (org_name (snd r)) name)
              (organizations d)) eqn:EX.
  - eexists _, _. split; [reflexivity|]. split; [|auto].
    right. split; [reflexivity|]. split; [right; eauto|]. intros _ _.
    apply existsb_exists in EX. destruct EX as ([i o] & Hin & E).
    apply String.eqb_eq in E. eauto.
  - eexists _, _. split; [reflexivity|]. split; [|auto].
    left. split; [reflexivity|]. split.
    { unfold str_in in ER. cbn in ER. rewrite orb_false_r in ER.
      now apply String.eqb_eq. }
    split; [now apply String.eqb_neq|]. split.
    + intros i o Hin E.
      assert (existsb (fun r => String.eqb (org_name (snd r)) name)
                (organizations d) = true); [|congruence].
      apply existsb_exists. exists (i, o). split; [exact Hin|].
      now apply String.eqb_eq.
    + unfold get_organizations. cbn [organizations set_organizations].
      rewrite !order_by_perm. apply Permutation_sym, Permutation_cons_append.
Qed.
